(** * Smart-diet helper: nutrition data model, aggregation and AI extraction

    A shallow embedding of the TypeScript sources

    - [src/types.ts]                      (data model, defaults),
    - [src/components/MacroProgress.tsx]  (Macro Aggregator, Goal Evaluator),
    - [src/App.tsx]                       (log store, Item Rescaler, handlers),
    - [src/services/geminiService.ts]     (Food Entry Extraction, recommendation,
                                           reports),
    - the [DecisionMaker] component       (the option chooser)

    together with the properties the specification states about them.

    JavaScript's [number] is IEEE-754 binary64.  The program is written once,
    over an interface [Number] of the arithmetic it uses, and read at two
    instances: Rocq's primitive [float] (binary64, round to nearest even: the
    arithmetic the code really performs) and [xnum], exact rationals extended
    with the two infinities and NaN (the arithmetic the specification's
    algebraic laws speak about).  What a product or a quotient of doubles is
    off by is derived from the specification of binary64 rounding.

    A JavaScript string is held as the UTF-8 bytes of its text. *)

From Stdlib Require Import Floats ZArith Uint63 QArith Qcanon Qround Qpower Qabs Lqa Permutation.
From Stdlib Require Import Ascii String OrdersEx FunInd.
From stdpp Require Import base tactics option list strings gmap fin_maps sorting.

Set Default Proof Using "Type".
Open Scope string_scope.

(* ===================================================================== *)
(** * Part I.  The embedding                                              *)
(* ===================================================================== *)

(** ** JavaScript numbers *)

(** The operations on [number] the sources use.  [ltb a b] is [a < b],
    [leb a b] is [a <= b], [eqb a b] is [a === b] on two numbers. *)
Class Number (num : Type) := {
  of_Z : Z -> num;
  add : num -> num -> num;
  mul : num -> num -> num;
  div : num -> num -> num;
  ltb : num -> num -> bool;
  leb : num -> num -> bool;
  eqb : num -> num -> bool;
  Math_round : num -> num;
  Math_max : num -> num -> num;
  Math_min : num -> num -> num
}.

Declare Scope num_scope.
Delimit Scope num_scope with num.
Notation "a + b" := (add a b) : num_scope.
Notation "a * b" := (mul a b) : num_scope.
Notation "a / b" := (div a b) : num_scope.
Notation "a <? b" := (ltb a b) : num_scope.
Notation "a >? b" := (ltb b a) : num_scope.
Notation "a >=? b" := (leb b a) : num_scope.
Notation "a =? b" := (eqb a b) : num_scope.

(** A decimal literal of the source with value [n / d] ([0.55] is [lit 55 100]).
    On [float] the correctly rounded quotient of two small integers is the
    double nearest to the decimal, which is what the JavaScript parser yields. *)
Definition lit {num : Type} `{Number num} (n : Z) (d : positive) : num :=
  (of_Z n / of_Z (Z.pos d))%num.

(** *** Instance 1: binary64 *)

Module F64.

Definition of_Z (z : Z) : float :=
  if (z <? 0)%Z then PrimFloat.opp (PrimFloat.of_uint63 (Uint63.of_Z (- z)))
  else PrimFloat.of_uint63 (Uint63.of_Z z).

(** [Math.round]: an integral number, an infinity and NaN are returned as
    they are; otherwise the integer closest to [x], a tie going towards
    +infinity, that is [floor (x + 1/2)] computed without rounding, with the
    sign of [x] kept on a zero result.  A finite double with a negative
    exponent [e] is [(-1)^s * m * 2^e] and below [2^53] in magnitude. *)
Definition round (x : float) : float :=
  match Prim2SF x with
  | S754_finite s m e =>
      if (0 <=? e)%Z then x
      else
        let k := (- e)%Z in
        let twice := ((if s then Z.neg m else Z.pos m) * 2 + 2 ^ k)%Z in
        let z := (twice / 2 ^ (k + 1))%Z in
        if (z =? 0)%Z then (if s then PrimFloat.neg_zero else PrimFloat.zero)
        else of_Z z
  | _ => x
  end.

(** [Math.max(a, b)]: NaN if either is NaN; [+0] counts as larger than [-0]. *)
Definition max (a b : float) : float :=
  if PrimFloat.is_nan a || PrimFloat.is_nan b then PrimFloat.nan
  else if PrimFloat.ltb a b then b
  else if PrimFloat.ltb b a then a
  else if PrimFloat.get_sign a then b else a.

(** [Math.min(a, b)]: NaN if either is NaN; [-0] counts as smaller than [+0]. *)
Definition min (a b : float) : float :=
  if PrimFloat.is_nan a || PrimFloat.is_nan b then PrimFloat.nan
  else if PrimFloat.ltb b a then b
  else if PrimFloat.ltb a b then a
  else if PrimFloat.get_sign a then a else b.

End F64.

#[export] Instance float_Number : Number float := {|
  of_Z := F64.of_Z;
  add := PrimFloat.add;
  mul := PrimFloat.mul;
  div := PrimFloat.div;
  ltb := PrimFloat.ltb;
  leb := PrimFloat.leb;
  eqb := PrimFloat.eqb;
  Math_round := F64.round;
  Math_max := F64.max;
  Math_min := F64.min
|}.

(** *** The value of a double

    [to_Q x] is the rational a finite double stands for, [(-1)^s * m * 2^e]
    (and zero for the others).  A normal double has a mantissa [m] of 53
    bits, and its magnitude lies between [2^(e+52)] and [2^(e+53)]. *)

Definition pow2 (e : Z) : Q := (2 ^ e)%Q.

Definition sign_Q (s : bool) : Q := if s then (-1)%Q else 1%Q.

Definition SF2Q (x : spec_float) : Q :=
  match x with
  | S754_finite s m e => (sign_Q s * inject_Z (Z.pos m) * pow2 e)%Q
  | _ => 0%Q
  end.

Definition to_Q (x : float) : Q := SF2Q (Prim2SF x).

(** The unit roundoff of binary64, [2^-53]. *)
Definition unit_roundoff : Q := 1 # 9007199254740992.

(** A normal double whose magnitude is at least [2^-201] and below [2^200]. *)
Definition moderate (x : float) : bool :=
  match Prim2SF x with
  | S754_finite _ _ e => (-253 <=? e)%Z && (e <=? 147)%Z
  | _ => false
  end.

Definition is_zero (x : float) : bool :=
  match Prim2SF x with
  | S754_zero _ => true
  | _ => false
  end.

(** [a] is a zero or a finite double, within the relative error [tol] of
    [b]: [|a - b| <= tol * |b|]. *)
Definition close_to (tol : Q) (a b : float) : Prop :=
  (is_zero a = true \/ exists s m e, Prim2SF a = S754_finite s m e)
  /\ (Qabs (to_Q a - to_Q b) <= tol * Qabs (to_Q b))%Q.

(** A double below zero. *)
Definition SFnegative (x : spec_float) : bool :=
  match x with
  | S754_infinity s | S754_finite s _ _ => s
  | _ => false
  end.

(** The record [rec] of the rounding algorithm locates the quotient [N / T]:
    its mantissa is the integer part, and its two bits tell whether the
    quotient is that integer, below, at or above the middle to the next. *)
Definition locates (N T : Z) (rec : shr_record) : Prop :=
  let m := shr_m rec in
  (0 <= m)%Z
  /\ (m * T <= N < (m + 1) * T)%Z
  /\ match shr_r rec, shr_s rec with
     | false, false => N = (m * T)%Z
     | false, true => (m * T < N)%Z /\ (2 * N < (2 * m + 1) * T)%Z
     | true, false => (2 * N)%Z = ((2 * m + 1) * T)%Z
     | true, true => ((2 * m + 1) * T < 2 * N)%Z
     end.

(** *** Instance 2: exact arithmetic

    The finite values are rationals and no operation rounds; division by zero
    and the arithmetic of the infinities follow IEEE-754 (there is one zero,
    which behaves as [+0]). *)

Inductive xnum : Type :=
  | Fin (q : Qc)
  | PInf
  | NInf
  | NaN.

Module X.

Definition sgn_inf (negative : bool) : xnum := if negative then NInf else PInf.

Definition is_neg (a : xnum) : bool :=
  match a with
  | Fin q => bool_decide (q < 0)%Qc
  | NInf => true
  | _ => false
  end.

Definition add (a b : xnum) : xnum :=
  match a, b with
  | NaN, _ | _, NaN => NaN
  | PInf, NInf | NInf, PInf => NaN
  | PInf, _ | _, PInf => PInf
  | NInf, _ | _, NInf => NInf
  | Fin p, Fin q => Fin (p + q)
  end.

Definition mul (a b : xnum) : xnum :=
  match a, b with
  | NaN, _ | _, NaN => NaN
  | Fin p, Fin q => Fin (p * q)
  | Fin p, _ => if bool_decide (p = 0)%Qc then NaN else sgn_inf (xorb (is_neg a) (is_neg b))
  | _, Fin q => if bool_decide (q = 0)%Qc then NaN else sgn_inf (xorb (is_neg a) (is_neg b))
  | _, _ => sgn_inf (xorb (is_neg a) (is_neg b))
  end.

Definition div (a b : xnum) : xnum :=
  match a, b with
  | NaN, _ | _, NaN => NaN
  | Fin p, Fin q =>
      if bool_decide (q = 0)%Qc
      then (if bool_decide (p = 0)%Qc then NaN else sgn_inf (is_neg a))
      else Fin (p / q)
  | Fin _, _ => Fin 0
  | _, Fin _ => sgn_inf (xorb (is_neg a) (is_neg b))
  | _, _ => NaN
  end.

Definition ltb (a b : xnum) : bool :=
  match a, b with
  | NaN, _ | _, NaN => false
  | Fin p, Fin q => bool_decide (p < q)%Qc
  | NInf, NInf | PInf, _ | _, NInf => false
  | _, _ => true
  end.

Definition eqb (a b : xnum) : bool :=
  match a, b with
  | Fin p, Fin q => bool_decide (p = q)
  | PInf, PInf | NInf, NInf => true
  | _, _ => false
  end.

Definition leb (a b : xnum) : bool := ltb a b || eqb a b.

Definition round (a : xnum) : xnum :=
  match a with
  | Fin q => Fin (Q2Qc (inject_Z (Qfloor (q + Q2Qc (1 # 2))%Qc)))
  | _ => a
  end.

Definition max (a b : xnum) : xnum :=
  match a, b with
  | NaN, _ | _, NaN => NaN
  | _, _ => if ltb a b then b else a
  end.

Definition min (a b : xnum) : xnum :=
  match a, b with
  | NaN, _ | _, NaN => NaN
  | _, _ => if ltb b a then b else a
  end.

End X.

#[export] Instance xnum_Number : Number xnum := {|
  of_Z := fun z => Fin (Q2Qc (inject_Z z));
  add := X.add;
  mul := X.mul;
  div := X.div;
  ltb := X.ltb;
  leb := X.leb;
  eqb := X.eqb;
  Math_round := X.round;
  Math_max := X.max;
  Math_min := X.min
|}.

(** ** Data model ([src/types.ts]) *)

Module Ingredient.
Record t (num : Type) : Type := mk {
  id : string;
  name : string;
  weight : num;
  calories : num;
  protein : num;
  carbs : num;
  fat : num;
  addedOilCalories : num;
  notes : option string
}.
Arguments mk {num}.
Arguments id {num}.
Arguments name {num}.
Arguments weight {num}.
Arguments calories {num}.
Arguments protein {num}.
Arguments carbs {num}.
Arguments fat {num}.
Arguments addedOilCalories {num}.
Arguments notes {num}.
End Ingredient.

Module Meal.
Record t (num : Type) : Type := mk {
  id : string;
  name : string;
  timestamp : num;
  items : list (Ingredient.t num);
  cookingMethodNote : option string;
  isSkipped : option bool
}.
Arguments mk {num}.
Arguments id {num}.
Arguments name {num}.
Arguments timestamp {num}.
Arguments items {num}.
Arguments cookingMethodNote {num}.
Arguments isSkipped {num}.
End Meal.

Module BodyMetrics.
Record t (num : Type) : Type := mk {
  weight : option num;
  waist : option num;
  thigh : option num;
  calf : option num
}.
Arguments mk {num}.
Arguments weight {num}.
Arguments waist {num}.
Arguments thigh {num}.
Arguments calf {num}.
End BodyMetrics.

Module DailyLog.
Record t (num : Type) : Type := mk {
  date : string;
  meals : list (Meal.t num);
  metrics : BodyMetrics.t num;
  dailyNotes : option string
}.
Arguments mk {num}.
Arguments date {num}.
Arguments meals {num}.
Arguments metrics {num}.
Arguments dailyNotes {num}.
End DailyLog.

Module MacroGoals.
Record t (num : Type) : Type := mk {
  calories : num;
  protein : num;
  carbsPercentage : num;
  fatPercentage : num
}.
Arguments mk {num}.
Arguments calories {num}.
Arguments protein {num}.
Arguments carbsPercentage {num}.
Arguments fatPercentage {num}.
End MacroGoals.

Section Defaults.
Context {num : Type} `{Number num}.

Definition DEFAULT_GOALS : MacroGoals.t num := {|
  MacroGoals.calories := of_Z 1350;
  MacroGoals.protein := of_Z 75;
  MacroGoals.carbsPercentage := lit 55 100;
  MacroGoals.fatPercentage := lit 25 100
|}.

Definition fixed_egg : Ingredient.t num := {|
  Ingredient.id := "fixed-egg";
  Ingredient.name := "Boiled Egg";
  Ingredient.weight := of_Z 50;
  Ingredient.calories := of_Z 70;
  Ingredient.protein := of_Z 6;
  Ingredient.carbs := lit 6 10;
  Ingredient.fat := of_Z 5;
  Ingredient.addedOilCalories := of_Z 0;
  Ingredient.notes := Some "Standard large egg"
|}.

Definition fixed_milk : Ingredient.t num := {|
  Ingredient.id := "fixed-milk";
  Ingredient.name := "Milk (Whole)";
  Ingredient.weight := of_Z 250;
  Ingredient.calories := of_Z 150;
  Ingredient.protein := of_Z 8;
  Ingredient.carbs := of_Z 12;
  Ingredient.fat := of_Z 8;
  Ingredient.addedOilCalories := of_Z 0;
  Ingredient.notes := Some "250ml"
|}.

Definition FIXED_BREAKFAST_ITEMS : list (Ingredient.t num) :=
  [fixed_egg; fixed_milk].

End Defaults.

(** ** Macro Aggregator and Goal Evaluator ([src/components/MacroProgress.tsx]) *)

Module Totals.
Record t (num : Type) : Type := mk {
  calories : num;
  protein : num;
  carbs : num;
  fat : num;
  oil : num
}.
Arguments mk {num}.
Arguments calories {num}.
Arguments protein {num}.
Arguments carbs {num}.
Arguments fat {num}.
Arguments oil {num}.
End Totals.

Section MacroProgress.
Context {num : Type} `{Number num}.

(** The body of the [forEach] callback: the five [acc.x += item.x]. *)
Definition add_item (acc : Totals.t num) (item : Ingredient.t num) : Totals.t num := {|
  Totals.calories := (Totals.calories acc + Ingredient.calories item)%num;
  Totals.protein := (Totals.protein acc + Ingredient.protein item)%num;
  Totals.carbs := (Totals.carbs acc + Ingredient.carbs item)%num;
  Totals.fat := (Totals.fat acc + Ingredient.fat item)%num;
  Totals.oil := (Totals.oil acc + Ingredient.addedOilCalories item)%num
|}.

(** The [reduce] callback: [meal.items.forEach (...)] on the accumulator. *)
Definition add_meal (acc : Totals.t num) (meal : Meal.t num) : Totals.t num :=
  fold_left add_item (Meal.items meal) acc.

Definition zero_totals : Totals.t num :=
  Totals.mk (of_Z 0) (of_Z 0) (of_Z 0) (of_Z 0) (of_Z 0).

(** [const total = log.meals.reduce (..., {calories: 0, ...})]. *)
Definition total (log : DailyLog.t num) : Totals.t num :=
  fold_left add_meal (DailyLog.meals log) zero_totals.

Definition targetCarbs (goals : MacroGoals.t num) : num :=
  Math_round ((MacroGoals.calories goals * MacroGoals.carbsPercentage goals) / of_Z 4)%num.

Definition targetFat (goals : MacroGoals.t num) : num :=
  Math_round ((MacroGoals.calories goals * MacroGoals.fatPercentage goals) / of_Z 9)%num.

Definition currentCarbCalories (t : Totals.t num) : num :=
  (Totals.carbs t * of_Z 4)%num.

Definition currentCarbRatio (t : Totals.t num) : num :=
  if (Totals.calories t >? of_Z 0)%num
  then ((currentCarbCalories t / Totals.calories t) * of_Z 100)%num
  else of_Z 0.

Definition isCarbRatioGood (t : Totals.t num) : bool :=
  (currentCarbRatio t >=? of_Z 50)%num.

Definition getPercent (val target : num) : num :=
  Math_min (of_Z 100) (Math_max (of_Z 0) ((val / target) * of_Z 100)%num).

(** The calories bar turns red when [total.calories > targetCalories]. *)
Definition overBudget (t : Totals.t num) (goals : MacroGoals.t num) : bool :=
  (Totals.calories t >? MacroGoals.calories goals)%num.

End MacroProgress.


(** ** The JavaScript host: exceptions, JSON values, the collaborator *)

(** The outcome of code that may throw: [Throw m] is a thrown [Error] whose
    [message] is [m]. *)
Inductive Exc (A : Type) : Type :=
  | Return (a : A)
  | Throw (message : string).
Arguments Return {A}.
Arguments Throw {A}.

#[export] Instance Exc_ret : MRet Exc := @Return.

#[export] Instance Exc_bind : MBind Exc := fun A B k c =>
  match c with
  | Return a => k a
  | Throw m => Throw m
  end.

(** [try { c } catch (error) { h error.message }]. *)
Definition try_catch {A : Type} (c : Exc A) (h : string -> Exc A) : Exc A :=
  match c with
  | Return a => Return a
  | Throw m => h m
  end.

(** What [JSON.parse] returns.  An object lists each key once. *)
#[warnings="-register-all"]
Inductive json (num : Type) : Type :=
  | JNull
  | JBool (b : bool)
  | JNumber (n : num)
  | JString (s : string)
  | JArray (elements : list (json num))
  | JObject (fields : list (string * json num)).
Arguments JNull {num}.
Arguments JBool {num}.
Arguments JNumber {num}.
Arguments JString {num}.
Arguments JArray {num}.
Arguments JObject {num}.

(** One element of the request's [parts]. *)
Inductive Part : Type :=
  | InlineData (mimeType data : string)
  | Text (text : string).

(** The variables [getAIClient] looks for: [process.env] and
    [import.meta.env], each absent ([None]) or holding the keys read. *)
Record ProcessEnv : Type := {
  API_KEY : option string;
  REACT_APP_API_KEY : option string
}.

Record ImportMetaEnv : Type := {
  VITE_API_KEY : option string;
  meta_API_KEY : option string
}.

Record Env : Type := {
  process_env : option ProcessEnv;
  import_meta_env : option ImportMetaEnv
}.

(** Everything the sources call and do not define: library functions of the
    JavaScript runtime, the unchecked casts TypeScript performs on values of
    type [any], the prompt's wording, and the external collaborator.
    - [JSON_parse s] is [JSON.parse(s)], throwing on malformed text;
    - [Number_of_string], [String_of_number] are [Number(s)] and [String(n)];
    - [as_string v] is a truthy value of type [any] used as a [string];
    - [asIngredient id v] is [{...v, id}] used as an [Ingredient];
    - [promptText d] is the prompt built from the description [d];
    - [generateContent key parts] is the collaborator's answer to the request:
      a thrown error, or a response whose [text] is a string or [undefined];
    - [random_id i] is the [i]-th [Math.random().toString(36).substr(2, 9)]
      of one call. *)
Class Host (num : Type) `{Number num} := {
  JSON_parse : string -> Exc (json num);
  JSON_parse_empty_object : JSON_parse "{}" = Return (JObject []);
  Number_of_string : string -> num;
  String_of_number : num -> string;
  as_string : json num -> string;
  asIngredient : string -> json num -> Ingredient.t num;
  promptText : string -> string;
  deployment : Env;
  generateContent : string -> list Part -> Exc (option string);
  random_id : nat -> string
}.

(** [a || b] on an optional string: [undefined] and the empty string are falsy. *)
Definition truthy_string (s : string) : bool :=
  match s with
  | EmptyString => false
  | String _ _ => true
  end.

Definition or_else (a : option string) (b : string) : string :=
  match a with
  | Some s => if truthy_string s then s else b
  | None => b
  end.

(** [s.split(sep)] for a one-character separator. *)
Fixpoint split (sep : Ascii.ascii) (s : string) : list string :=
  match s with
  | EmptyString => [EmptyString]
  | String c rest =>
      if Ascii.eqb c sep then EmptyString :: split sep rest
      else match split sep rest with
           | [] => [String c EmptyString]
           | piece :: pieces => String c piece :: pieces
           end
  end.

(** A string is held as the UTF-8 bytes of its text; [bytes] writes one by
    the values of its bytes. *)
Definition bytes (codes : list nat) : string :=
  fold_right (fun n s => String (Ascii.ascii_of_nat n) s) EmptyString codes.

(** The code points [String.prototype.trim] removes, ECMAScript's WhiteSpace
    and LineTerminator: U+0009 to U+000D, U+0020, U+00A0, U+1680, U+2000 to
    U+200A, U+2028, U+2029, U+202F, U+205F, U+3000 and U+FEFF. *)
Definition white_space : list string := map bytes [
  [9]; [10]; [11]; [12]; [13]; [32];
  [194; 160];
  [225; 154; 128];
  [226; 128; 128]; [226; 128; 129]; [226; 128; 130]; [226; 128; 131];
  [226; 128; 132]; [226; 128; 133]; [226; 128; 134]; [226; 128; 135];
  [226; 128; 136]; [226; 128; 137]; [226; 128; 138];
  [226; 128; 168]; [226; 128; 169]; [226; 128; 175];
  [226; 129; 159];
  [227; 128; 128];
  [239; 187; 191]
]%nat.

(** The white space of one byte, of two bytes and of three bytes. *)
Definition is_whitespace (c : Ascii.ascii) : bool :=
  let n := Ascii.nat_of_ascii c in
  (n =? 32)%nat || ((9 <=? n)%nat && (n <=? 13)%nat).

Definition is_whitespace2 (c1 c2 : Ascii.ascii) : bool :=
  (Ascii.nat_of_ascii c1 =? 194)%nat && (Ascii.nat_of_ascii c2 =? 160)%nat.

Definition is_whitespace3 (c1 c2 c3 : Ascii.ascii) : bool :=
  let n1 := Ascii.nat_of_ascii c1 in
  let n2 := Ascii.nat_of_ascii c2 in
  let n3 := Ascii.nat_of_ascii c3 in
  ((n1 =? 225)%nat && (n2 =? 154)%nat && (n3 =? 128)%nat)
  || ((n1 =? 226)%nat && (n2 =? 128)%nat
      && (((128 <=? n3)%nat && (n3 <=? 138)%nat)
          || (n3 =? 168)%nat || (n3 =? 169)%nat || (n3 =? 175)%nat))
  || ((n1 =? 226)%nat && (n2 =? 129)%nat && (n3 =? 159)%nat)
  || ((n1 =? 227)%nat && (n2 =? 128)%nat && (n3 =? 128)%nat)
  || ((n1 =? 239)%nat && (n2 =? 187)%nat && (n3 =? 191)%nat).

(** [s.trimStart()]: white space is removed, one code point after the other,
    up to the first byte that starts none. *)
Fixpoint trim_start (s : string) : string :=
  match s with
  | EmptyString => EmptyString
  | String c1 rest1 =>
      if is_whitespace c1 then trim_start rest1
      else
        match rest1 with
        | EmptyString => s
        | String c2 rest2 =>
            if is_whitespace2 c1 c2 then trim_start rest2
            else
              match rest2 with
              | EmptyString => s
              | String c3 rest3 =>
                  if is_whitespace3 c1 c2 c3 then trim_start rest3 else s
              end
        end
  end.

(** [s.trimEnd()]: nothing is kept of a string that is white space from its
    first byte on; otherwise the first byte is kept and the rest is trimmed at
    its end.  (No white space starts with a byte that continues a code point,
    so the bytes of a code point that is kept are kept together.) *)
Fixpoint trim_end (s : string) : string :=
  match s with
  | EmptyString => EmptyString
  | String c rest =>
      match trim_start s with
      | EmptyString => EmptyString
      | String _ _ => String c (trim_end rest)
      end
  end.

(** [s.trim()]. *)
Definition trim (s : string) : string := trim_end (trim_start s).

(** ** Food Entry Extraction ([src/services/geminiService.ts]) *)

Section GeminiService.
Context {num : Type} `{Host num}.

Definition missing_api_key_message : string :=
  "未检测到 API Key。

1. **本地运行**: 请在 .env 文件中添加 `API_KEY=您的密钥` (或 `VITE_API_KEY=...` 如果使用 Vite)。
2. **Vercel/Netlify 部署**: 请在项目设置 (Settings) > Environment Variables 中添加变量 `API_KEY` (或 `VITE_API_KEY`)。".

(** [getAIClient]: the client is its key. *)
Definition getAIClient : Exc string :=
  let apiKey :=
    match process_env deployment with
    | Some env => or_else (API_KEY env) (or_else (REACT_APP_API_KEY env) EmptyString)
    | None => EmptyString
    end in
  let apiKey :=
    if truthy_string apiKey then apiKey
    else match import_meta_env deployment with
         | Some env => or_else (VITE_API_KEY env) (or_else (meta_API_KEY env) EmptyString)
         | None => EmptyString
         end in
  if truthy_string apiKey then Return apiKey else Throw missing_api_key_message.

(** [imageBase64.split(',')[1] || imageBase64]. *)
Definition base64Data (imageBase64 : string) : string :=
  or_else (nth_error (split ","%char imageBase64) 1) imageBase64.

(** [value.key] for a key that no number, boolean, string or array carries:
    [None] is [undefined]; reading a property of [null] throws. *)
Definition get_property (value : json num) (key : string) : Exc (option (json num)) :=
  match value with
  | JNull => Throw ("Cannot read properties of null (reading '" ++ key ++ "')")
  | JObject fields => Return (snd <$> List.find (fun kv => String.eqb (fst kv) key) fields)
  | _ => Return None
  end.

(** Truthiness of a JSON value ([NaN] never comes out of [JSON.parse]). *)
Definition truthy (value : json num) : bool :=
  match value with
  | JNull => false
  | JBool b => b
  | JNumber n => negb (n =? of_Z 0)%num
  | JString s => truthy_string s
  | JArray _ | JObject _ => true
  end.

Definition add_ids (elements : list (json num)) : list (Ingredient.t num) :=
  imap (fun i item => asIngredient (random_id i) item) elements.

(** [result.items?.map(item => ({...item, id: ...})) || []]. *)
Definition itemsWithIds (result : json num) : Exc (list (Ingredient.t num)) :=
  items ← get_property result "items";
  match items with
  | None | Some JNull => Return []
  | Some (JArray elements) => Return (add_ids elements)
  | Some _ => Throw "result.items?.map is not a function"
  end.

Definition default_cooking_analysis : string := "无额外烹饪说明".

(** [result.cookingAnalysis || "无额外烹饪说明"]. *)
Definition cookingAnalysis_of (result : json num) : Exc string :=
  analysis ← get_property result "cookingAnalysis";
  match analysis with
  | Some v => Return (if truthy v then as_string v else default_cooking_analysis)
  | None => Return default_cooking_analysis
  end.

Definition default_failure_message : string := "分析食物失败，请重试。".

(** The [parts] of the request: the image, when there is one, as inline
    JPEG data, then the prompt. *)
Definition request_parts (description : string) (imageBase64 : option string)
  : list Part :=
  let image_parts :=
    match imageBase64 with
    | Some image =>
        if truthy_string image then [InlineData "image/jpeg" (base64Data image)] else []
    | None => []
    end in
  (image_parts ++ [Text (promptText description)])%list.

Definition parseFoodEntry (description : string) (imageBase64 : option string)
  : Exc (list (Ingredient.t num) * string) :=
  try_catch
    (ai ← getAIClient;
     text ← generateContent ai (request_parts description imageBase64);
     result ← JSON_parse (or_else text "{}");
     items ← itemsWithIds result;
     cookingAnalysis ← cookingAnalysis_of result;
     Return (items, cookingAnalysis))
    (fun message => Throw (or_else (Some message) default_failure_message)).

End GeminiService.


(** ** Log store, Item Rescaler and handlers ([src/App.tsx]) *)

(** [keyof Ingredient] and [string | number]. *)
Inductive IngredientKey : Type :=
  | K_id | K_name | K_weight | K_calories | K_protein | K_carbs | K_fat
  | K_addedOilCalories | K_notes.

Inductive Value (num : Type) : Type :=
  | VString (s : string)
  | VNumber (n : num).
Arguments VString {num}.
Arguments VNumber {num}.

Record InputState : Type := {
  text : string;
  image : option string
}.

(** The component state the handlers read and write.  [fileInput] is the
    value of [fileInputRef.current] ([None] when the ref is null); [alerts]
    are the messages passed to [alert], oldest first. *)
Record AppState (num : Type) : Type := {
  logs : gmap string (DailyLog.t num);
  selectedDate : string;
  activeMealInput : option string;
  inputState : InputState;
  isProcessing : bool;
  fileInput : option string;
  alerts : list string
}.
Arguments logs {num}.
Arguments selectedDate {num}.
Arguments activeMealInput {num}.
Arguments inputState {num}.
Arguments isProcessing {num}.
Arguments fileInput {num}.
Arguments alerts {num}.

Section App.
Context {num : Type} `{Host num}.

(** The default meal of a slot: [{id: `${key}-${date}`, name, timestamp:
    Date.now(), items}], with the breakfast's cooking note when given. *)
Definition default_meal (key label date : string) (timestamp : num)
    (items : list (Ingredient.t num)) (note : option string) : Meal.t num := {|
  Meal.id := key ++ "-" ++ date;
  Meal.name := label;
  Meal.timestamp := timestamp;
  Meal.items := items;
  Meal.cookingMethodNote := note;
  Meal.isSkipped := None
|}.

(** [getDailyLog].  [now i] is what the [i]-th [Date.now()] of the call
    returns. *)
Definition getDailyLog (logs : gmap string (DailyLog.t num)) (now : nat -> num)
    (date : string) : DailyLog.t num :=
  match logs !! date with
  | Some log => log
  | None => {|
      DailyLog.date := date;
      DailyLog.meals := [
        default_meal "breakfast" "早餐" date (now 0%nat) FIXED_BREAKFAST_ITEMS (Some "水煮/生鲜");
        default_meal "lunch" "午餐" date (now 1%nat) [] None;
        default_meal "dinner" "晚餐" date (now 2%nat) [] None;
        default_meal "snack" "加餐" date (now 3%nat) [] None
      ];
      DailyLog.metrics := BodyMetrics.mk None None None None;
      DailyLog.dailyNotes := None
    |}
  end.

(** [MEAL_TYPES]: the key and the label of each slot. *)
Definition MEAL_TYPES : list (string * string) := [
  ("breakfast", "早餐");
  ("lunch", "午餐");
  ("dinner", "晚餐");
  ("snack", "加餐")
].

(** The meal a slot shows: [meals.find(m => m.name === type.label)
    || meals.find(m => m.id.startsWith(type.key))]. *)
Definition slot_meal (type : string * string) (log : DailyLog.t num)
  : option (Meal.t num) :=
  match List.find (fun m => String.eqb (Meal.name m) (snd type)) (DailyLog.meals log) with
  | Some m => Some m
  | None => List.find (fun m => String.prefix (fst type) (Meal.id m)) (DailyLog.meals log)
  end.

(** [updateLog]: [setLogs(prev => ({ ...prev, [newLog.date]: newLog }))]. *)
Definition updateLog (prev : gmap string (DailyLog.t num)) (newLog : DailyLog.t num)
  : gmap string (DailyLog.t num) :=
  <[DailyLog.date newLog := newLog]> prev.

(** [{ ...log, meals }], [{ ...meal, items }] and [{ ...state, logs }]. *)
Definition with_meals (log : DailyLog.t num) (meals : list (Meal.t num)) : DailyLog.t num := {|
  DailyLog.date := DailyLog.date log;
  DailyLog.meals := meals;
  DailyLog.metrics := DailyLog.metrics log;
  DailyLog.dailyNotes := DailyLog.dailyNotes log
|}.

Definition with_items (meal : Meal.t num) (items : list (Ingredient.t num)) : Meal.t num := {|
  Meal.id := Meal.id meal;
  Meal.name := Meal.name meal;
  Meal.timestamp := Meal.timestamp meal;
  Meal.items := items;
  Meal.cookingMethodNote := Meal.cookingMethodNote meal;
  Meal.isSkipped := Meal.isSkipped meal
|}.

Definition with_logs (st : AppState num) (new_logs : gmap string (DailyLog.t num))
  : AppState num := {|
  logs := new_logs;
  selectedDate := selectedDate st;
  activeMealInput := activeMealInput st;
  inputState := inputState st;
  isProcessing := isProcessing st;
  fileInput := fileInput st;
  alerts := alerts st
|}.

(** [const currentLog = getDailyLog(selectedDate)], as the handlers close
    over it. *)
Definition currentLog (now : nat -> num) (st : AppState num) : DailyLog.t num :=
  getDailyLog (logs st) now (selectedDate st).

(** *** Item Rescaler: the [field === 'weight'] branch *)

(** [{ ...item, weight: newWeight }]. *)
Definition with_weight (item : Ingredient.t num) (newWeight : num) : Ingredient.t num := {|
  Ingredient.id := Ingredient.id item;
  Ingredient.name := Ingredient.name item;
  Ingredient.weight := newWeight;
  Ingredient.calories := Ingredient.calories item;
  Ingredient.protein := Ingredient.protein item;
  Ingredient.carbs := Ingredient.carbs item;
  Ingredient.fat := Ingredient.fat item;
  Ingredient.addedOilCalories := Ingredient.addedOilCalories item;
  Ingredient.notes := Ingredient.notes item
|}.

Definition rescale (item : Ingredient.t num) (newWeight : num) : Ingredient.t num :=
  let ratio :=
    if (Ingredient.weight item >? of_Z 0)%num
    then (newWeight / Ingredient.weight item)%num
    else of_Z 1 in
  if (Ingredient.weight item =? of_Z 0)%num
  then with_weight item newWeight
  else {|
    Ingredient.id := Ingredient.id item;
    Ingredient.name := Ingredient.name item;
    Ingredient.weight := newWeight;
    Ingredient.calories := (Ingredient.calories item * ratio)%num;
    Ingredient.protein := (Ingredient.protein item * ratio)%num;
    Ingredient.carbs := (Ingredient.carbs item * ratio)%num;
    Ingredient.fat := (Ingredient.fat item * ratio)%num;
    Ingredient.addedOilCalories := (Ingredient.addedOilCalories item * ratio)%num;
    Ingredient.notes := Ingredient.notes item
  |}.

(** Rescaling to [w2] and then back to the weight the item had. *)
Definition rescale_round_trip (item : Ingredient.t num) (w2 : num) : Ingredient.t num :=
  rescale (rescale item w2) (Ingredient.weight item).

(** The item as an object.  The callback gets a reference to the item and
    returns a reference to the object its literal [{ ...item, weight: ... }]
    creates; no statement of it assigns to a field of an object.  [Heap] holds
    the objects, a reference being the index of one. *)
Definition Heap : Type := list (Ingredient.t num).

(** An object literal: the object is stored at the next free reference. *)
Definition new_object (heap : Heap) (object : Ingredient.t num) : Heap * nat :=
  ((heap ++ [object])%list, length heap).

(** Lines 173 to 188 on a reference ([None] when nothing is stored at it). *)
Definition rescale_object (heap : Heap) (item : nat) (newWeight : num)
  : option (Heap * nat) :=
  match heap !! item with
  | Some object => Some (new_object heap (rescale object newWeight))
  | None => None
  end.

(** The round trip on a reference. *)
Definition rescale_round_trip_object (heap : Heap) (item : nat) (w2 : num)
  : option (Heap * nat) :=
  match heap !! item with
  | Some object =>
      match rescale_object heap item w2 with
      | Some (heap', item') => rescale_object heap' item' (Ingredient.weight object)
      | None => None
      end
  | None => None
  end.

(** The five macro values of an item, in the order the rescaler lists them. *)
Definition macros (item : Ingredient.t num) : list num := [
  Ingredient.calories item;
  Ingredient.protein item;
  Ingredient.carbs item;
  Ingredient.fat item;
  Ingredient.addedOilCalories item
].

Definition rename (item : Ingredient.t num) (name : string) : Ingredient.t num := {|
  Ingredient.id := Ingredient.id item;
  Ingredient.name := name;
  Ingredient.weight := Ingredient.weight item;
  Ingredient.calories := Ingredient.calories item;
  Ingredient.protein := Ingredient.protein item;
  Ingredient.carbs := Ingredient.carbs item;
  Ingredient.fat := Ingredient.fat item;
  Ingredient.addedOilCalories := Ingredient.addedOilCalories item;
  Ingredient.notes := Ingredient.notes item
|}.

Definition to_Number (value : Value num) : num :=
  match value with
  | VNumber n => n
  | VString s => Number_of_string s
  end.

Definition to_String (value : Value num) : string :=
  match value with
  | VString s => s
  | VNumber n => String_of_number n
  end.

(** What the inner [map] callback returns for the item whose id matches. *)
Definition update_item (item : Ingredient.t num) (field : IngredientKey)
    (value : Value num) : Ingredient.t num :=
  match field with
  | K_weight => rescale item (to_Number value)
  | K_name => rename item (to_String value)
  | _ => item
  end.

Definition handleUpdateItemDetails (now : nat -> num) (st : AppState num)
    (mealId itemId : string) (field : IngredientKey) (value : Value num)
  : AppState num :=
  let currentLog := currentLog now st in
  let updatedMeals :=
    map (fun meal =>
           if negb (String.eqb (Meal.id meal) mealId) then meal
           else
             let updatedItems :=
               map (fun item =>
                      if negb (String.eqb (Ingredient.id item) itemId) then item
                      else update_item item field value)
                   (Meal.items meal) in
             with_items meal updatedItems)
        (DailyLog.meals currentLog) in
  with_logs st (updateLog (logs st) (with_meals currentLog updatedMeals)).

(** *** Adding food *)

(** The meal after a successful extraction: the new items appended, the
    analysis appended to the cooking note (or taken as the note). *)
Definition append_extraction (m : Meal.t num) (items : list (Ingredient.t num))
    (cookingAnalysis : string) : Meal.t num := {|
  Meal.id := Meal.id m;
  Meal.name := Meal.name m;
  Meal.timestamp := Meal.timestamp m;
  Meal.items := (Meal.items m ++ items)%list;
  Meal.cookingMethodNote :=
    Some (match Meal.cookingMethodNote m with
          | Some note =>
              if truthy_string note then note ++ "; " ++ cookingAnalysis
              else cookingAnalysis
          | None => cookingAnalysis
          end);
  Meal.isSkipped := Meal.isSkipped m
|}.

(** The text of the alert in the [catch]: [`无法识别食物: ${e.message}`]. *)
Definition alert_text (message : string) : string := "无法识别食物: " ++ message.

(** The guard [!inputState.text.trim() && !inputState.image]. *)
Definition nothing_to_add (input : InputState) : bool :=
  negb (truthy_string (trim (text input)))
  && negb (truthy_string (or_else (image input) EmptyString)).

(** [inputState.image || undefined]. *)
Definition image_argument (input : InputState) : option string :=
  match image input with
  | Some i => if truthy_string i then Some i else None
  | None => None
  end.

Definition handleAddFood (now : nat -> num) (st : AppState num)
    (mealTypeKey mealId : string) : AppState num :=
  let currentLog := currentLog now st in
  let input := inputState st in
  if nothing_to_add input then st
  else
    match parseFoodEntry (text input) (image_argument input) with
    | Return (items, cookingAnalysis) =>
        let updatedMeals :=
          map (fun m =>
                 if String.eqb (Meal.id m) mealId
                 then append_extraction m items cookingAnalysis
                 else m)
              (DailyLog.meals currentLog) in
        {| logs := updateLog (logs st) (with_meals currentLog updatedMeals);
           selectedDate := selectedDate st;
           activeMealInput := None;
           inputState := {| text := EmptyString; image := None |};
           isProcessing := false;
           fileInput := (fun _ => EmptyString) <$> fileInput st;
           alerts := alerts st |}
    | Throw message =>
        {| logs := logs st;
           selectedDate := selectedDate st;
           activeMealInput := activeMealInput st;
           inputState := inputState st;
           isProcessing := false;
           fileInput := fileInput st;
           alerts := (alerts st ++ [alert_text message])%list |}
    end.

End App.


(** ** Further handlers of [src/App.tsx] *)

(** [keyof BodyMetrics]. *)
Inductive MetricKey : Type :=
  | M_weight | M_waist | M_thigh | M_calf.

(** The report handler's argument and the view state it writes. *)
Inductive ReportType : Type :=
  | R_daily | R_nutrition | R_fat_loss.

Inductive View : Type :=
  | V_dashboard | V_calendar | V_report.

Record ReportState : Type := {
  view : View;
  reportContent : string;
  reportTitle : string;
  generatingReport : bool
}.

(** [a - b] on numbers. *)
Class Subtraction (num : Type) := minus : num -> num -> num.

#[export] Instance float_Subtraction : Subtraction float := PrimFloat.sub.

Module XSub.

Definition opp (a : xnum) : xnum :=
  match a with
  | Fin q => Fin (- q)
  | PInf => NInf
  | NInf => PInf
  | NaN => NaN
  end.

Definition sub (a b : xnum) : xnum := X.add a (opp b).

End XSub.

#[export] Instance xnum_Subtraction : Subtraction xnum := XSub.sub.

(** What a day looks like in the weekly report's data. *)
Record DaySummary (num : Type) : Type := {
  day_date : string;
  day_calories : num;
  day_protein : num;
  day_carbs : num;
  day_fat : num;
  day_addedOil : num;
  day_weight : option num;
  day_waist : option num;
  foodList : list string
}.
Arguments day_date {num}.
Arguments day_calories {num}.
Arguments day_protein {num}.
Arguments day_carbs {num}.
Arguments day_fat {num}.
Arguments day_addedOil {num}.
Arguments day_weight {num}.
Arguments day_waist {num}.
Arguments foodList {num}.

(** The [summary] of the daily report: each meal's name with its items
    written out, the day's calories and added oil. *)
Record DailySummary (num : Type) : Type := {
  summary_date : string;
  summary_meals : list (string * string);
  totalCals : num;
  totalOil : num
}.
Arguments summary_date {num}.
Arguments summary_meals {num}.
Arguments totalCals {num}.
Arguments totalOil {num}.

Inductive WeeklyKind : Type :=
  | nutrition | fat_loss.

(** What the recommendation and the reports call and do not define:
    - [parseFloat s] is [parseFloat(s)];
    - [generateText key model contents] is the collaborator's answer to a
      request made of a model name and a prompt string;
    - the three prompts, as functions of the values the templates splice in. *)
Class Services (num : Type) `{Host num} := {
  parseFloat : string -> num;
  generateText : string -> string -> string -> Exc (option string);
  recommendationPrompt :
    MacroGoals.t num -> num -> num -> num -> num -> string -> list string -> string;
  dailyReportPrompt : DailySummary num -> string;
  weeklyReportPrompt : WeeklyKind -> list (DaySummary num) -> string
}.

Section AppHandlers.
Context {num : Type} `{Services num}.

(** The [map] callback of [handleDeleteItem]: the meal named loses the items
    whose id is [itemId]; any other meal is returned as it is. *)
Definition delete_in (mealId itemId : string) (meal : Meal.t num) : Meal.t num :=
  if negb (String.eqb (Meal.id meal) mealId) then meal
  else with_items meal
         (List.filter (fun i => negb (String.eqb (Ingredient.id i) itemId))
                      (Meal.items meal)).

Definition handleDeleteItem (now : nat -> num) (st : AppState num)
    (mealId itemId : string) : AppState num :=
  let currentLog := currentLog now st in
  let updatedMeals := map (delete_in mealId itemId) (DailyLog.meals currentLog) in
  with_logs st (updateLog (logs st) (with_meals currentLog updatedMeals)).

(** [isNaN(n)] for a number [n]: NaN is the one number not equal to itself. *)
Definition isNaN (n : num) : bool := negb (n =? n)%num.

(** [{ ...metrics, [key]: value }]. *)
Definition set_metric (metrics : BodyMetrics.t num) (key : MetricKey)
    (value : option num) : BodyMetrics.t num :=
  match key with
  | M_weight => BodyMetrics.mk value (BodyMetrics.waist metrics)
                  (BodyMetrics.thigh metrics) (BodyMetrics.calf metrics)
  | M_waist => BodyMetrics.mk (BodyMetrics.weight metrics) value
                 (BodyMetrics.thigh metrics) (BodyMetrics.calf metrics)
  | M_thigh => BodyMetrics.mk (BodyMetrics.weight metrics) (BodyMetrics.waist metrics)
                 value (BodyMetrics.calf metrics)
  | M_calf => BodyMetrics.mk (BodyMetrics.weight metrics) (BodyMetrics.waist metrics)
                (BodyMetrics.thigh metrics) value
  end.

Definition get_metric (metrics : BodyMetrics.t num) (key : MetricKey) : option num :=
  match key with
  | M_weight => BodyMetrics.weight metrics
  | M_waist => BodyMetrics.waist metrics
  | M_thigh => BodyMetrics.thigh metrics
  | M_calf => BodyMetrics.calf metrics
  end.

(** [{ ...log, metrics }]. *)
Definition with_metrics (log : DailyLog.t num) (metrics : BodyMetrics.t num)
  : DailyLog.t num := {|
  DailyLog.date := DailyLog.date log;
  DailyLog.meals := DailyLog.meals log;
  DailyLog.metrics := metrics;
  DailyLog.dailyNotes := DailyLog.dailyNotes log
|}.

Definition handleUpdateMetrics (now : nat -> num) (st : AppState num)
    (key : MetricKey) (value : string) : AppState num :=
  let currentLog := currentLog now st in
  let n := parseFloat value in
  with_logs st
    (updateLog (logs st)
       (with_metrics currentLog
          (set_metric (DailyLog.metrics currentLog) key
             (if isNaN n then None else Some n)))).

End AppHandlers.

(** *** The logs of the weekly report *)

(** The order [sort()] puts strings in: the first differing character
    decides, a proper prefix comes first.  Characters are compared as bytes,
    which is the order of the UTF-16 code units for the ASCII date keys of the
    store. *)
Definition string_le (a b : string) : Prop :=
  OrdersEx.String_as_OT.compare a b <> Gt.

#[export] Instance string_le_dec : RelDecision string_le.
Proof. intros a b. unfold string_le. apply _. Defined.

(** [l.slice(-n)]: the last [n] elements, all of them when there are fewer. *)
Definition slice_last {A : Type} (n : nat) (l : list A) : list A :=
  drop (length l - n) l.

(** [Object.keys(logs).sort().slice(-7)]. *)
Definition recent_dates {num : Type} (logs : gmap string (DailyLog.t num)) : list string :=
  slice_last 7 (merge_sort string_le (map fst (map_to_list logs))).

(** [dates.map(d => logs[d])]. *)
Definition recentLogs {num : Type} (logs : gmap string (DailyLog.t num))
  : list (DailyLog.t num) :=
  omap (fun d => logs !! d) (recent_dates logs).


(** ** Recommendation and reports ([src/services/geminiService.ts]) *)

Section Reports.
Context {num : Type} `{Services num} `{Subtraction num}.

(** [log.meals.reduce((acc, m) => acc + m.items.reduce((s, i) => s + f(i), 0), 0)]:
    the sum over the meals of each meal's own sum. *)
Definition sum_by (f : Ingredient.t num -> num) (log : DailyLog.t num) : num :=
  fold_left
    (fun acc m => (acc + fold_left (fun s i => (s + f i)%num) (Meal.items m) (of_Z 0))%num)
    (DailyLog.meals log) (of_Z 0).

Definition pro_model : string := "gemini-3-pro-preview".

Definition default_recommendation_failure : string := "获取推荐失败".

(** What is left of the day's budget: target minus consumed. *)
Definition remainingCals (currentLog : DailyLog.t num) (goals : MacroGoals.t num) : num :=
  minus (MacroGoals.calories goals) (sum_by Ingredient.calories currentLog).

Definition remainingProtein (currentLog : DailyLog.t num) (goals : MacroGoals.t num) : num :=
  minus (MacroGoals.protein goals) (sum_by Ingredient.protein currentLog).

(** The prompt of the recommendation, built from the goals, what has been
    consumed, what is left, the meal and the options. *)
Definition recommendation_prompt (options : list string) (currentLog : DailyLog.t num)
    (goals : MacroGoals.t num) (mealType : string) : string :=
  recommendationPrompt goals
    (sum_by Ingredient.calories currentLog) (sum_by Ingredient.protein currentLog)
    (remainingCals currentLog goals) (remainingProtein currentLog goals)
    mealType options.

(** [getMealRecommendation]: the value [JSON.parse] returns is handed back as
    it is. *)
Definition getMealRecommendation (options : list string) (currentLog : DailyLog.t num)
    (goals : MacroGoals.t num) (mealType : string) : Exc (json num) :=
  try_catch
    (ai ← getAIClient;
     text ← generateText ai pro_model
              (recommendation_prompt options currentLog goals mealType);
     JSON_parse (or_else text "{}"))
    (fun message => Throw (or_else (Some message) default_recommendation_failure)).

(** [`${i.name} (${i.weight}g, 油脂: ${i.addedOilCalories})`]. *)
Definition item_line (i : Ingredient.t num) : string :=
  Ingredient.name i ++ " (" ++ String_of_number (Ingredient.weight i) ++ "g, 油脂: "
  ++ String_of_number (Ingredient.addedOilCalories i) ++ ")".

Definition daily_summary (log : DailyLog.t num) : DailySummary num := {|
  summary_date := DailyLog.date log;
  summary_meals :=
    map (fun m => (Meal.name m, String.concat ", " (map item_line (Meal.items m))))
        (DailyLog.meals log);
  totalCals := sum_by Ingredient.calories log;
  totalOil := sum_by Ingredient.addedOilCalories log
|}.

Definition report_failure : string := "生成报告失败".

(** The [catch] of both reports: [`生成报告失败: ${error.message}`]. *)
Definition report_failure_with (message : string) : string :=
  report_failure ++ ": " ++ message.

Definition generateDailyReport (log : DailyLog.t num) : string :=
  match (ai ← getAIClient;
         generateText ai pro_model (dailyReportPrompt (daily_summary log))) with
  | Return text => or_else text report_failure
  | Throw message => report_failure_with message
  end.

Definition day_summary (l : DailyLog.t num) : DaySummary num := {|
  day_date := DailyLog.date l;
  day_calories := sum_by Ingredient.calories l;
  day_protein := sum_by Ingredient.protein l;
  day_carbs := sum_by Ingredient.carbs l;
  day_fat := sum_by Ingredient.fat l;
  day_addedOil := sum_by Ingredient.addedOilCalories l;
  day_weight := BodyMetrics.weight (DailyLog.metrics l);
  day_waist := BodyMetrics.waist (DailyLog.metrics l);
  foodList :=
    take 5 (flat_map (fun m => map Ingredient.name (Meal.items m)) (DailyLog.meals l))
|}.

Definition no_weekly_report : string := "无法生成报告。".

Definition generateWeeklyReport (logs : list (DailyLog.t num)) (type : WeeklyKind)
  : string :=
  match (ai ← getAIClient;
         generateText ai pro_model (weeklyReportPrompt type (map day_summary logs))) with
  | Return text => or_else text no_weekly_report
  | Throw message => report_failure_with message
  end.

(** [handleGenerateReport], on the store and the selected date of [st]. *)
Definition handleGenerateReport (now : nat -> num) (st : AppState num)
    (type : ReportType) : ReportState :=
  match type with
  | R_daily => {|
      view := V_report;
      reportContent := generateDailyReport (currentLog now st);
      reportTitle := "今日营养分析";
      generatingReport := false
    |}
  | R_nutrition => {|
      view := V_report;
      reportContent := generateWeeklyReport (recentLogs (logs st)) nutrition;
      reportTitle := "本周营养分析";
      generatingReport := false
    |}
  | R_fat_loss => {|
      view := V_report;
      reportContent := generateWeeklyReport (recentLogs (logs st)) fat_loss;
      reportTitle := "本周减脂总结";
      generatingReport := false
    |}
  end.

End Reports.

(** ** The option chooser (the [DecisionMaker] component) *)

(** The component's state; [decision_alerts] are the messages passed to
    [alert], oldest first. *)
Record DecisionState (num : Type) : Type := {
  optionsInput : string;
  mealType : string;
  loading : bool;
  result : option (json num);
  decision_alerts : list string
}.
Arguments optionsInput {num}.
Arguments mealType {num}.
Arguments loading {num}.
Arguments result {num}.
Arguments decision_alerts {num}.

(** What [/[,，\n]/] matches: the comma, the line feed and the full-width
    comma (U+FF0C). *)
Definition separators : list string := [","; bytes [10%nat]; bytes [239; 188; 140]%nat].

(** The separators of one byte, and the three bytes of the full-width comma. *)
Definition is_separator (c : ascii) : bool :=
  Ascii.eqb c ","%char || (Ascii.nat_of_ascii c =? 10)%nat.

Definition is_fullwidth_comma (c1 c2 c3 : ascii) : bool :=
  (Ascii.nat_of_ascii c1 =? 239)%nat && (Ascii.nat_of_ascii c2 =? 188)%nat
  && (Ascii.nat_of_ascii c3 =? 140)%nat.

(** Putting a character in front of the first piece. *)
Definition cons_piece (c : ascii) (pieces : list string) : list string :=
  match pieces with
  | [] => [String c EmptyString]
  | piece :: pieces => String c piece :: pieces
  end.

(** [s.split(/[,，\n]/)]. *)
Fixpoint split_options (s : string) : list string :=
  match s with
  | EmptyString => [EmptyString]
  | String c rest =>
      if is_separator c then EmptyString :: split_options rest
      else
        match rest with
        | String c2 (String c3 rest') =>
            if is_fullwidth_comma c c2 c3 then EmptyString :: split_options rest'
            else cons_piece c (split_options rest)
        | _ => cons_piece c (split_options rest)
        end
  end.

(** [optionsInput.split(/[,，\n]/).map(s => s.trim()).filter(Boolean)]. *)
Definition parse_options (optionsInput : string) : list string :=
  List.filter truthy_string (map trim (split_options optionsInput)).

Definition recommendation_alert : string := "获取推荐失败，请重试。".

Section DecisionMaker.
Context {num : Type} `{Services num} `{Subtraction num}.

Definition handleDecide (currentLog : DailyLog.t num) (goals : MacroGoals.t num)
    (st : DecisionState num) : DecisionState num :=
  if negb (truthy_string (trim (optionsInput st))) then st
  else
    match getMealRecommendation (parse_options (optionsInput st)) currentLog goals
            (mealType st) with
    | Return res => {|
        optionsInput := optionsInput st;
        mealType := mealType st;
        loading := false;
        result := Some res;
        decision_alerts := decision_alerts st
      |}
    | Throw _ => {|
        optionsInput := optionsInput st;
        mealType := mealType st;
        loading := false;
        result := None;
        decision_alerts := (decision_alerts st ++ [recommendation_alert])%list
      |}
    end.

End DecisionMaker.


(** ** Notions used to state properties of the handlers *)

(** Every log of the store is filed under its own date. *)
Definition well_keyed {num : Type} (logs : gmap string (DailyLog.t num)) : Prop :=
  forall (date : string) (log : DailyLog.t num),
    logs !! date = Some log -> DailyLog.date log = date.

(** A meal without its items: what no handler changes but [handleAddFood]'s
    cooking note. *)
Definition meal_frame {num : Type} (m : Meal.t num) : string * string * num * option bool :=
  (Meal.id m, Meal.name m, Meal.timestamp m, Meal.isSkipped m).


(** The strings of a list one after the other. *)
Definition join (pieces : list string) : string :=
  fold_right append EmptyString pieces.

(** No separator of the option chooser occurs in the string. *)
Definition no_separator (s : string) : Prop :=
  forall sep before after : string, In sep separators -> s <> before ++ sep ++ after.

(** Every character of the string satisfies [p]. *)
Fixpoint string_forall (p : ascii -> bool) (s : string) : bool :=
  match s with
  | EmptyString => true
  | String c rest => p c && string_forall p rest
  end.

Definition is_comma (c : ascii) : bool := Ascii.eqb c ","%char.

(** The variables [getAIClient] reads, in the order it prefers them. *)
Definition key_candidates (env : Env) : list (option string) :=
  (match process_env env with
   | Some p => [API_KEY p; REACT_APP_API_KEY p]
   | None => []
   end
   ++ match import_meta_env env with
      | Some m => [VITE_API_KEY m; meta_API_KEY m]
      | None => []
      end)%list.

(** The first of them that is set to a non-empty string. *)
Definition first_key (env : Env) : option string :=
  List.find truthy_string (omap id (key_candidates env)).

(** ** Concrete scenarios *)

(** A [JSON.parse] that knows the empty object only; any other text is
    rejected as malformed. *)
Definition scenario_JSON_parse (s : string) : Exc (json float) :=
  if String.eqb s "{}" then Return (JObject [])
  else Throw "Unexpected token in JSON".

Definition scenario_asIngredient (id : string) (v : json float) : Ingredient.t float := {|
  Ingredient.id := id;
  Ingredient.name := EmptyString;
  Ingredient.weight := PrimFloat.nan;
  Ingredient.calories := PrimFloat.nan;
  Ingredient.protein := PrimFloat.nan;
  Ingredient.carbs := PrimFloat.nan;
  Ingredient.fat := PrimFloat.nan;
  Ingredient.addedOilCalories := PrimFloat.nan;
  Ingredient.notes := None
|}.

Definition scenario_env : Env := {|
  process_env := Some {| API_KEY := Some "test-key"; REACT_APP_API_KEY := None |};
  import_meta_env := None
|}.

(** A deployment with a key whose collaborator gives [answer] to every
    request. *)
Definition scenario_host (answer : Exc (option string)) : Host float := {|
  JSON_parse := scenario_JSON_parse;
  JSON_parse_empty_object := eq_refl;
  Number_of_string := fun _ => PrimFloat.nan;
  String_of_number := fun _ => "NaN";
  as_string := fun _ => "[object Object]";
  asIngredient := scenario_asIngredient;
  promptText := fun description => description;
  deployment := scenario_env;
  generateContent := fun _ _ => answer;
  random_id := fun i => String (Ascii.ascii_of_nat (97 + i)) EmptyString
|}.

(** The collaborator cannot be reached. *)
Definition offline_host : Host float :=
  scenario_host (Throw "Failed to fetch").

(** The collaborator answers with no text. *)
Definition silent_host : Host float :=
  scenario_host (Return None).

Definition no_clock : nat -> float := fun _ => F64.of_Z 0.

(** The log of a date never written, as [getDailyLog] builds it. *)
Definition fresh_log : DailyLog.t float :=
  getDailyLog ∅ no_clock "2024-05-01".

(** The log of the day after, likewise. *)
Definition next_day_log : DailyLog.t float :=
  getDailyLog ∅ no_clock "2024-05-02".

(** An application state on that date with "two eggs" typed in for lunch. *)
Definition typing_state : AppState float := {|
  logs := ∅;
  selectedDate := "2024-05-01";
  activeMealInput := Some "lunch";
  inputState := {| text := "two eggs"; image := None |};
  isProcessing := false;
  fileInput := Some EmptyString;
  alerts := []
|}.

(** An item whose calories are [c] and whose other macros are zero. *)
Definition calories_only {num : Type} `{Number num} (id : string) (c : num)
  : Ingredient.t num := {|
  Ingredient.id := id;
  Ingredient.name := id;
  Ingredient.weight := of_Z 100;
  Ingredient.calories := c;
  Ingredient.protein := of_Z 0;
  Ingredient.carbs := of_Z 0;
  Ingredient.fat := of_Z 0;
  Ingredient.addedOilCalories := of_Z 0;
  Ingredient.notes := None
|}.

(** A log with one meal holding [items]. *)
Definition one_meal_log {num : Type} `{Number num} (items : list (Ingredient.t num))
  : DailyLog.t num := {|
  DailyLog.date := "2024-05-01";
  DailyLog.meals := [default_meal "lunch" "午餐" "2024-05-01" (of_Z 0) items None];
  DailyLog.metrics := BodyMetrics.mk None None None None;
  DailyLog.dailyNotes := None
|}.

(** The items of every meal of a log, in the order the aggregator visits them. *)
Definition all_items {num : Type} (log : DailyLog.t num) : list (Ingredient.t num) :=
  concat (map Meal.items (DailyLog.meals log)).

(** The sum of a list of numbers from zero, left to right. *)
Definition sum {num : Type} `{Number num} (l : list num) : num :=
  fold_left add l (of_Z 0).

(** The two logs hold the same items: [ms] is the first log's meals with
    the items of each meal in some other order, and the second log's meals are
    [ms] in some other order. *)
Definition same_items {num : Type} (m m' : Meal.t num) : Prop :=
  Permutation (Meal.items m) (Meal.items m').

Definition reordered {num : Type} (log log' : DailyLog.t num) : Prop :=
  exists ms : list (Meal.t num),
    Forall2 same_items (DailyLog.meals log) ms
    /\ Permutation ms (DailyLog.meals log').

(** [|a - b| <= tol] in binary64. *)
Definition within (tol a b : float) : bool :=
  PrimFloat.leb (PrimFloat.abs (PrimFloat.sub a b)) tol.

(** Every macro value of [a] is within [tol] of the corresponding one of [b]. *)
Definition macros_within (tol : float) (a b : Ingredient.t float) : bool :=
  forallb (fun xy => within tol (fst xy) (snd xy)) (combine (macros a) (macros b)).

(** [Number.MIN_VALUE], the smallest double above zero ([2^-1074], about
    [5e-324]). *)
Definition MIN_VALUE : float := PrimFloat.next_up PrimFloat.zero.

(** The default egg with its weight set to zero. *)
Definition weightless_egg : Ingredient.t float :=
  with_weight fixed_egg (F64.of_Z 0).

(** A log with two meals: 0.1 kcal in the first, 0.2 and 0.3 kcal in the
    second. *)
Definition two_meal_snacks : DailyLog.t float := {|
  DailyLog.date := "2024-05-01";
  DailyLog.meals := [
    default_meal "lunch" "午餐" "2024-05-01" (F64.of_Z 0)
      [calories_only "a" (lit 1 10)] None;
    default_meal "snack" "加餐" "2024-05-01" (F64.of_Z 0)
      [calories_only "b" (lit 2 10); calories_only "c" (lit 3 10)] None
  ];
  DailyLog.metrics := BodyMetrics.mk None None None None;
  DailyLog.dailyNotes := None
|}.

(** Three snacks of 0.1, 0.2 and 0.3 kcal, and the same three in reverse. *)
Definition three_snacks : list (Ingredient.t float) :=
  [calories_only "a" (lit 1 10); calories_only "b" (lit 2 10); calories_only "c" (lit 3 10)].

(** *** Scenarios for the further handlers *)

Definition scenario_parseFloat (s : string) : float :=
  if String.eqb s "72.5" then lit 725 10 else PrimFloat.nan.

(** Services over [host] whose collaborator gives [answer] to every prompt. *)
Definition scenario_services (host : Host float) (answer : Exc (option string))
  : @Services float _ host := {|
  parseFloat := scenario_parseFloat;
  generateText := fun _ _ _ => answer;
  recommendationPrompt := fun _ _ _ _ _ _ _ => "recommend";
  dailyReportPrompt := fun _ => "daily";
  weeklyReportPrompt := fun _ _ => "weekly"
|}.

Definition offline_services : @Services float _ offline_host :=
  scenario_services offline_host (Throw "Failed to fetch").

(** The double quote, and the text of a response with two (empty) items. *)
Definition dq : string := String (Ascii.ascii_of_nat 34) EmptyString.

Definition two_items_text : string :=
  "{" ++ dq ++ "items" ++ dq ++ ":[{},{}]}".

Definition two_items_JSON_parse (s : string) : Exc (json float) :=
  if String.eqb s "{}" then Return (JObject [])
  else if String.eqb s two_items_text
       then Return (JObject [("items", JArray [JObject []; JObject []])])
       else Throw "Unexpected token in JSON".

(** A deployment whose collaborator answers every request with that text. *)
Definition answering_host : Host float := {|
  JSON_parse := two_items_JSON_parse;
  JSON_parse_empty_object := eq_refl;
  Number_of_string := fun _ => PrimFloat.nan;
  String_of_number := fun _ => "NaN";
  as_string := fun _ => "[object Object]";
  asIngredient := scenario_asIngredient;
  promptText := fun description => description;
  deployment := scenario_env;
  generateContent := fun _ _ => Return (Some two_items_text);
  random_id := fun i => String (Ascii.ascii_of_nat (97 + i)) EmptyString
|}.

Definition answering_services : @Services float _ answering_host :=
  scenario_services answering_host (Return (Some two_items_text)).

(** The default goals with a budget of 0.6 kcal. *)
Definition tight_goals : MacroGoals.t float := {|
  MacroGoals.calories := lit 6 10;
  MacroGoals.protein := MacroGoals.protein DEFAULT_GOALS;
  MacroGoals.carbsPercentage := MacroGoals.carbsPercentage DEFAULT_GOALS;
  MacroGoals.fatPercentage := MacroGoals.fatPercentage DEFAULT_GOALS
|}.

(** A deployment whose collaborator answers with two items, each read as
    [calories] kcal of food: in binary64, and in exact arithmetic. *)
Definition snack_host (calories : float) : Host float := {|
  JSON_parse := two_items_JSON_parse;
  JSON_parse_empty_object := eq_refl;
  Number_of_string := fun _ => PrimFloat.nan;
  String_of_number := fun _ => "NaN";
  as_string := fun _ => "[object Object]";
  asIngredient := fun id _ => calories_only id calories;
  promptText := fun description => description;
  deployment := scenario_env;
  generateContent := fun _ _ => Return (Some two_items_text);
  random_id := fun i => String (Ascii.ascii_of_nat (97 + i)) EmptyString
|}.

Definition exact_snack_host (calories : xnum) : Host xnum := {|
  JSON_parse := fun s =>
    if String.eqb s "{}" then Return (JObject [])
    else if String.eqb s two_items_text
         then Return (JObject [("items", JArray [JObject []; JObject []])])
         else Throw "Unexpected token in JSON";
  JSON_parse_empty_object := eq_refl;
  Number_of_string := fun _ => NaN;
  String_of_number := fun _ => "NaN";
  as_string := fun _ => "[object Object]";
  asIngredient := fun id _ => calories_only id calories;
  promptText := fun description => description;
  deployment := scenario_env;
  generateContent := fun _ _ => Return (Some two_items_text);
  random_id := fun i => String (Ascii.ascii_of_nat (97 + i)) EmptyString
|}.

Definition exact_snack_services (calories : xnum)
  : @Services xnum _ (exact_snack_host calories) := {|
  parseFloat := fun _ => NaN;
  generateText := fun _ _ _ => Return None;
  recommendationPrompt := fun _ _ _ _ _ _ _ => "recommend";
  dailyReportPrompt := fun _ => "daily";
  weeklyReportPrompt := fun _ _ => "weekly"
|}.

(** A state whose log of the day holds an empty lunch and a snack of
    [snack] kcal, with "noodles" typed in for lunch. *)
Definition snack_state {num : Type} `{Number num} (snack : num) : AppState num := {|
  logs := {[ "2024-05-01" := {|
      DailyLog.date := "2024-05-01";
      DailyLog.meals := [
        default_meal "lunch" "午餐" "2024-05-01" (of_Z 0) [] None;
        default_meal "snack" "加餐" "2024-05-01" (of_Z 0) [calories_only "s" snack] None
      ];
      DailyLog.metrics := BodyMetrics.mk None None None None;
      DailyLog.dailyNotes := None
    |} ]};
  selectedDate := "2024-05-01";
  activeMealInput := Some "lunch";
  inputState := {| text := "noodles"; image := None |};
  isProcessing := false;
  fileInput := None;
  alerts := []
|}.

(** The state [typing_state] with an ideographic space typed in instead. *)
Definition wide_space_state : AppState float := {|
  logs := ∅;
  selectedDate := "2024-05-01";
  activeMealInput := Some "lunch";
  inputState := {| text := bytes [227; 128; 128]%nat; image := None |};
  isProcessing := false;
  fileInput := Some EmptyString;
  alerts := []
|}.

(** The option chooser with an ideographic space, a space and an
    ideographic space typed in, and with two dishes typed in. *)
Definition blank_decision : DecisionState float := {|
  optionsInput := bytes [227; 128; 128; 32; 227; 128; 128]%nat;
  mealType := "午餐";
  loading := false;
  result := None;
  decision_alerts := []
|}.

Definition undecided : DecisionState float := {|
  optionsInput := "牛肉饭，冷面";
  mealType := "午餐";
  loading := true;
  result := None;
  decision_alerts := []
|}.

(** A store with the logs of two days. *)
Definition two_day_store : gmap string (DailyLog.t float) :=
  updateLog (updateLog ∅ fresh_log) next_day_log.

(* ===================================================================== *)
(** * Part II.  Properties                                                *)
(* ===================================================================== *)

(** ** The literals are the doubles JavaScript reads *)

#[warnings="-inexact-float"]
Example literals_are_nearest_doubles :
  (lit 6 10 = 0.6 /\ lit 55 100 = 0.55 /\ lit 25 100 = 0.25 /\ lit 126 10 = 12.6
   /\ F64.of_Z 1350 = 1350 /\ F64.of_Z 220 = 220)%float.
Proof. vm_compute. repeat split. Qed.

(** ** Macro Aggregator *)

Section Aggregator.
Context {num : Type} `{Number num}.

Lemma fold_add_meal_flat (ms : list (Meal.t num)) (acc : Totals.t num) :
  fold_left add_meal ms acc = fold_left add_item (concat (map Meal.items ms)) acc.
Proof.
  revert acc. induction ms as [|m ms IH]; intros acc; simpl; [reflexivity|].
  rewrite IH. unfold add_meal. now rewrite fold_left_app.
Qed.

Lemma total_flat (log : DailyLog.t num) :
  total log = fold_left add_item (all_items log) zero_totals.
Proof. apply fold_add_meal_flat. Qed.

Lemma fold_add_item_fields (l : list (Ingredient.t num)) (acc : Totals.t num) :
  fold_left add_item l acc = {|
    Totals.calories := fold_left add (map Ingredient.calories l) (Totals.calories acc);
    Totals.protein := fold_left add (map Ingredient.protein l) (Totals.protein acc);
    Totals.carbs := fold_left add (map Ingredient.carbs l) (Totals.carbs acc);
    Totals.fat := fold_left add (map Ingredient.fat l) (Totals.fat acc);
    Totals.oil := fold_left add (map Ingredient.addedOilCalories l) (Totals.oil acc)
  |}.
Proof.
  revert acc. induction l as [|i l IH]; intros acc; simpl.
  - now destruct acc.
  - now rewrite IH.
Qed.

Lemma total_fields (log : DailyLog.t num) :
  total log = {|
    Totals.calories := sum (map Ingredient.calories (all_items log));
    Totals.protein := sum (map Ingredient.protein (all_items log));
    Totals.carbs := sum (map Ingredient.carbs (all_items log));
    Totals.fat := sum (map Ingredient.fat (all_items log));
    Totals.oil := sum (map Ingredient.addedOilCalories (all_items log))
  |}.
Proof. rewrite total_flat. apply fold_add_item_fields. Qed.

Lemma total_items_only (log log' : DailyLog.t num) :
  map Meal.items (DailyLog.meals log) = map Meal.items (DailyLog.meals log') ->
  total log = total log'.
Proof. intros E. rewrite !total_flat. unfold all_items. now rewrite E. Qed.

End Aggregator.

(** C1.  The Macro Aggregator's totals are, field by field, the sum (from
    zero, in the order of the log) of that field over every item of every
    meal.  A meal without items leaves the accumulator as it is; the totals
    depend on the meals' item lists only, so a meal flagged [isSkipped] that
    still holds items contributes them.  For a log whose breakfast holds the
    two default records and whose other meals are empty, the totals in
    binary64 are 220 kcal, 14 g protein, 12.6 g carbs, 13 g fat, 0 oil. *)
Theorem C1_totals_are_elementwise_sums :
  (forall (num : Type) (N : Number num) (log : DailyLog.t num),
      total log = {|
        Totals.calories := sum (map Ingredient.calories (all_items log));
        Totals.protein := sum (map Ingredient.protein (all_items log));
        Totals.carbs := sum (map Ingredient.carbs (all_items log));
        Totals.fat := sum (map Ingredient.fat (all_items log));
        Totals.oil := sum (map Ingredient.addedOilCalories (all_items log))
      |})
  /\ (forall (num : Type) (N : Number num) (acc : Totals.t num) (meal : Meal.t num),
        Meal.items meal = [] -> add_meal acc meal = acc)
  /\ (forall (num : Type) (N : Number num) (log log' : DailyLog.t num),
        map Meal.items (DailyLog.meals log) = map Meal.items (DailyLog.meals log') ->
        total log = total log')
  /\ (forall log : DailyLog.t float,
        map Meal.items (DailyLog.meals log) = [FIXED_BREAKFAST_ITEMS; []; []; []] ->
        total log = {|
          Totals.calories := of_Z 220;
          Totals.protein := of_Z 14;
          Totals.carbs := lit 126 10;
          Totals.fat := of_Z 13;
          Totals.oil := of_Z 0
        |}).
Proof.
  split; [|split; [|split]].
  - intros. apply total_fields.
  - intros num N acc meal E. unfold add_meal. now rewrite E.
  - intros. now apply total_items_only.
  - intros log E. rewrite total_flat. unfold all_items. rewrite E.
    vm_compute. reflexivity.
Qed.

Lemma C1_witness :
  total fresh_log = {|
    Totals.calories := of_Z 220;
    Totals.protein := of_Z 14;
    Totals.carbs := lit 126 10;
    Totals.fat := of_Z 13;
    Totals.oil := of_Z 0
  |}.
Proof.
  apply (proj2 (proj2 (proj2 C1_totals_are_elementwise_sums))). reflexivity.
Defined.

(** ** Facts of binary64 arithmetic, from its specification *)

Section FloatOrder.

Lemma SFcompare_antisym (x y : spec_float) :
  SFcompare y x = option_map CompOpp (SFcompare x y).
Proof.
  destruct x as [sx|sx| |sx mx ex], y as [sy|sy| |sy my ey]; simpl;
    try (destruct sx; reflexivity); try (destruct sy; reflexivity);
    try (destruct sx, sy; reflexivity); try reflexivity.
  rewrite (Z.compare_antisym ex ey), !Pos.compare_cont_spec, (Pos.compare_antisym mx my).
  simpl. destruct sx, sy; simpl; try reflexivity;
    destruct (ex ?= ey)%Z; simpl; try reflexivity;
    destruct (mx ?= my)%positive; reflexivity.
Qed.

Lemma F64_ltb_asym (a b : float) :
  PrimFloat.ltb a b = true -> PrimFloat.ltb b a = false.
Proof.
  rewrite !FloatAxioms.ltb_spec. unfold SFltb. rewrite (SFcompare_antisym (Prim2SF a)).
  destruct (SFcompare (Prim2SF a) (Prim2SF b)) as [[]|]; simpl; congruence.
Qed.

Lemma F64_ltb_leb (a b : float) :
  PrimFloat.ltb a b = true -> PrimFloat.leb a b = true.
Proof.
  rewrite FloatAxioms.ltb_spec, FloatAxioms.leb_spec. unfold SFltb, SFleb.
  destruct (SFcompare (Prim2SF a) (Prim2SF b)) as [[]|]; simpl; congruence.
Qed.

Lemma F64_eqb_not_gtb (a b : float) :
  PrimFloat.eqb a b = true -> PrimFloat.ltb b a = false.
Proof.
  rewrite FloatAxioms.eqb_spec, FloatAxioms.ltb_spec. unfold SFeqb, SFltb.
  rewrite (SFcompare_antisym (Prim2SF a)).
  destruct (SFcompare (Prim2SF a) (Prim2SF b)) as [[]|]; simpl; congruence.
Qed.

Lemma SFcompare_defined (x y : spec_float) :
  SFcompare x x <> None -> SFcompare y y <> None -> SFcompare x y <> None.
Proof. destruct x, y; simpl; congruence. Qed.

Lemma F64_not_ltb_leb (a b : float) :
  PrimFloat.is_nan a = false -> PrimFloat.is_nan b = false ->
  PrimFloat.ltb b a = false -> PrimFloat.leb a b = true.
Proof.
  unfold PrimFloat.is_nan. rewrite !FloatAxioms.eqb_spec, FloatAxioms.ltb_spec, FloatAxioms.leb_spec.
  unfold SFeqb, SFltb, SFleb. intros Ha Hb.
  rewrite (SFcompare_antisym (Prim2SF a)).
  pose proof (SFcompare_defined (Prim2SF a) (Prim2SF b)) as D.
  destruct (SFcompare (Prim2SF a) (Prim2SF a)) as [[]|]; try discriminate;
  destruct (SFcompare (Prim2SF b) (Prim2SF b)) as [[]|]; try discriminate;
  destruct (SFcompare (Prim2SF a) (Prim2SF b)) as [[]|]; simpl; try congruence;
  exfalso; apply D; congruence.
Qed.

Lemma F64_mul_comm (a b : float) : PrimFloat.mul a b = PrimFloat.mul b a.
Proof.
  apply Prim2SF_inj. rewrite !FloatAxioms.mul_spec. unfold SF64mul, SFmul.
  destruct (Prim2SF a) as [sa|sa| |sa ma ea], (Prim2SF b) as [sb|sb| |sb mb eb];
    try reflexivity; try (now rewrite xorb_comm).
  now rewrite xorb_comm, Pos.mul_comm, Z.add_comm.
Qed.

End FloatOrder.

(** ** Goal Evaluator *)

Section GoalEvaluatorF64.

(** The four ways [Math.min(100, Math.max(0, x))] comes out. *)
Lemma F64_clamp_cases (x : float) :
  let p := F64.min (F64.of_Z 100) (F64.max (F64.of_Z 0) x) in
  (PrimFloat.is_nan x = true /\ p = PrimFloat.nan)
  \/ (PrimFloat.is_nan x = false /\ PrimFloat.ltb (F64.of_Z 0) x = false /\ p = F64.of_Z 0)
  \/ (PrimFloat.is_nan x = false /\ PrimFloat.ltb (F64.of_Z 0) x = true
      /\ PrimFloat.ltb (F64.of_Z 100) x = false /\ p = x)
  \/ (PrimFloat.is_nan x = false /\ PrimFloat.ltb (F64.of_Z 100) x = true
      /\ p = F64.of_Z 100).
Proof.
  unfold F64.max.
  change (PrimFloat.is_nan (F64.of_Z 0)) with false.
  change (PrimFloat.get_sign (F64.of_Z 0)) with false. simpl orb.
  destruct (PrimFloat.is_nan x) eqn:Nx.
  - left. split; [reflexivity|]. vm_compute. reflexivity.
  - destruct (PrimFloat.ltb (F64.of_Z 0) x) eqn:P.
    + unfold F64.min.
      change (PrimFloat.is_nan (F64.of_Z 100)) with false.
      change (PrimFloat.get_sign (F64.of_Z 100)) with false.
      rewrite Nx. simpl orb.
      destruct (PrimFloat.ltb x (F64.of_Z 100)) eqn:L.
      * right; right; left. auto using F64_ltb_asym.
      * destruct (PrimFloat.ltb (F64.of_Z 100) x) eqn:G.
        -- right; right; right. auto.
        -- right; right; left. auto.
    + right; left. split; [reflexivity|]. split; [reflexivity|].
      destruct (PrimFloat.ltb x (F64.of_Z 0)); vm_compute; reflexivity.
Qed.

End GoalEvaluatorF64.

(** C4.  In binary64: the carbohydrate-energy ratio is
    [100 * ((carbs * 4) / calories)] when [calories > 0] and is [0] when
    [calories == 0], no division taking place; the on-target flag is
    [ratio >= 50]; the display ratio is [clamp] of [100 * (actual / target)]
    and is never below 0 and never above 100, whatever the actual and the
    target are; it lies in [0, 100] unless the quotient is NaN (as for 0 / 0),
    in which case it is NaN. *)
Theorem C4_carb_ratio_and_clamped_percent :
  (forall t : Totals.t float,
      (Totals.calories t >? of_Z 0)%num = true ->
      currentCarbRatio t
      = (of_Z 100 * ((Totals.carbs t * of_Z 4) / Totals.calories t))%num)
  /\ (forall t : Totals.t float,
        (Totals.calories t =? of_Z 0)%num = true -> currentCarbRatio t = of_Z 0)
  /\ (forall t : Totals.t float,
        isCarbRatioGood t = (currentCarbRatio t >=? of_Z 50)%num)
  /\ (forall val target : float,
        let p := getPercent val target in
        p = Math_min (of_Z 100) (Math_max (of_Z 0) (of_Z 100 * (val / target))%num)
        /\ (p <? of_Z 0)%num = false
        /\ (p >? of_Z 100)%num = false
        /\ (PrimFloat.is_nan (of_Z 100 * (val / target))%num = false ->
            (of_Z 0 <=? p)%float = true /\ (p <=? of_Z 100)%float = true)
        /\ (PrimFloat.is_nan (of_Z 100 * (val / target))%num = true ->
            p = PrimFloat.nan)).
Proof.
  split; [|split; [|split]].
  - intros t Hpos. unfold currentCarbRatio, currentCarbCalories.
    rewrite Hpos. apply F64_mul_comm.
  - intros t Hzero. unfold currentCarbRatio.
    assert (G : (Totals.calories t >? of_Z 0)%num = false)
      by exact (F64_eqb_not_gtb _ _ Hzero).
    now rewrite G.
  - reflexivity.
  - intros val target p.
    assert (E : p = Math_min (of_Z 100) (Math_max (of_Z 0) (of_Z 100 * (val / target))%num)).
    { unfold p, getPercent. now rewrite (F64_mul_comm (val / target)%num). }
    split; [exact E|]. rewrite E. clear E p.
    set (x := (of_Z 100 * (val / target))%num).
    change (Math_min (of_Z 100) (Math_max (of_Z 0) x))
      with (F64.min (F64.of_Z 100) (F64.max (F64.of_Z 0) x)).
    destruct (F64_clamp_cases x) as [[N ->]|[(N & L & ->)|[(N & P & G & ->)|(N & G & ->)]]].
    + split; [reflexivity|]. split; [reflexivity|]. split; [congruence|reflexivity].
    + split; [reflexivity|]. split; [reflexivity|]. split; [|congruence].
      intros _. split; reflexivity.
    + split; [exact (F64_ltb_asym _ _ P)|]. split; [exact G|]. split; [|congruence].
      intros _. split; [exact (F64_ltb_leb _ _ P)|].
      now apply F64_not_ltb_leb.
    + split; [reflexivity|]. split; [reflexivity|]. split; [|congruence].
      intros _. split; reflexivity.
Qed.

Lemma C4_witness :
  currentCarbRatio (total fresh_log) = (of_Z 100 * ((lit 126 10 * of_Z 4) / of_Z 220))%num.
Proof.
  exact (proj1 C4_carb_ratio_and_clamped_percent (total fresh_log) eq_refl).
Defined.

(** C5.  The gram targets are [round (calories * carbsPercentage / 4)] and
    [round (calories * fatPercentage / 9)].  In binary64, with the default
    goals, the carbohydrate target is 186 g (and the fat target 38 g); for
    totals of 220 kcal and 12.6 g of carbohydrate the carbohydrate-energy
    ratio is 22.90909090909091, which is within 0.01 of 22.9 and is displayed
    as 23, and the calories are not over budget. *)
Theorem C5_gram_targets_and_default_scenario :
  (forall (num : Type) (N : Number num) (goals : MacroGoals.t num),
      targetCarbs goals
      = Math_round ((MacroGoals.calories goals * MacroGoals.carbsPercentage goals)
                    / of_Z 4)%num
      /\ targetFat goals
         = Math_round ((MacroGoals.calories goals * MacroGoals.fatPercentage goals)
                       / of_Z 9)%num)
  /\ DEFAULT_GOALS
     = MacroGoals.mk (F64.of_Z 1350) (F64.of_Z 75) (lit 55 100) (lit 25 100)
  /\ targetCarbs (num := float) DEFAULT_GOALS = of_Z 186
  /\ targetFat (num := float) DEFAULT_GOALS = of_Z 38
  /\ (forall t : Totals.t float,
        Totals.calories t = of_Z 220 -> Totals.carbs t = lit 126 10 ->
        currentCarbRatio t = lit 2290909090909091 100000000000000
        /\ within (lit 1 100) (currentCarbRatio t) (lit 229 10) = true
        /\ Math_round (currentCarbRatio t) = of_Z 23
        /\ isCarbRatioGood t = false
        /\ overBudget t DEFAULT_GOALS = false).
Proof.
  split; [intros; split; reflexivity|]. split; [reflexivity|].
  split; [vm_compute; reflexivity|]. split; [vm_compute; reflexivity|].
  intros t Hcal Hcarbs.
  unfold isCarbRatioGood, overBudget, currentCarbRatio, currentCarbCalories.
  rewrite Hcal, Hcarbs. vm_compute. repeat split.
Qed.

Lemma C5_witness :
  currentCarbRatio (total fresh_log) = lit 2290909090909091 100000000000000
  /\ within (lit 1 100) (currentCarbRatio (total fresh_log)) (lit 229 10) = true
  /\ Math_round (currentCarbRatio (total fresh_log)) = of_Z 23
  /\ isCarbRatioGood (total fresh_log) = false
  /\ overBudget (total fresh_log) DEFAULT_GOALS = false.
Proof.
  exact (proj2 (proj2 (proj2 (proj2 C5_gram_targets_and_default_scenario)))
           (total fresh_log) eq_refl eq_refl).
Defined.

(** ** Item Rescaler *)

(** Editing the weight of an item is rescaling it; editing its name renames it. *)
Lemma update_item_weight {num : Type} `{Host num} (item : Ingredient.t num) (w : num) :
  update_item item K_weight (VNumber w) = rescale item w.
Proof. reflexivity. Qed.

(** C3.  Rescaling an item whose weight is [0] (in binary64: [+0] or [-0])
    to any weight [w2] returns the item with its weight replaced by [w2]:
    calories, protein, carbs, fat and added-oil calories are those of the
    input, so no quotient by zero is formed and no NaN appears that the input
    did not hold. *)
Theorem C3_zero_weight_rescale_keeps_macros :
  forall (num : Type) (N : Number num) (item : Ingredient.t num) (w2 : num),
    (Ingredient.weight item =? of_Z 0)%num = true ->
    rescale item w2 = with_weight item w2
    /\ Ingredient.weight (rescale item w2) = w2
    /\ macros (rescale item w2) = macros item.
Proof.
  intros num N item w2 Hzero. unfold rescale. rewrite Hzero. repeat split.
Qed.

Lemma C3_witness :
  rescale weightless_egg (F64.of_Z 100) = with_weight weightless_egg (F64.of_Z 100)
  /\ Ingredient.weight (rescale weightless_egg (F64.of_Z 100)) = F64.of_Z 100
  /\ macros (rescale weightless_egg (F64.of_Z 100)) = macros weightless_egg.
Proof.
  exact (C3_zero_weight_rescale_keeps_macros float _ weightless_egg (F64.of_Z 100) eq_refl).
Defined.

(** *** Exact arithmetic: multiplying by a positive ratio and by its inverse *)

Section ExactArithmetic.

Lemma X_mul_pos (x : xnum) (r : Qc) :
  (0 < r)%Qc ->
  X.mul x (Fin r) = match x with Fin q => Fin (q * r) | _ => x end.
Proof.
  intros Hr. destruct x as [q| | |]; simpl; try reflexivity.
  - rewrite bool_decide_eq_false_2, (bool_decide_eq_false_2 (r < 0)%Qc); [reflexivity| |].
    + apply Qcle_not_lt, Qclt_le_weak, Hr.
    + intros ->. now apply (Qclt_not_eq _ _ Hr).
  - rewrite bool_decide_eq_false_2, (bool_decide_eq_false_2 (r < 0)%Qc); [reflexivity| |].
    + apply Qcle_not_lt, Qclt_le_weak, Hr.
    + intros ->. now apply (Qclt_not_eq _ _ Hr).
Qed.

Lemma X_div_pos (a b : Qc) :
  (0 < b)%Qc -> X.div (Fin a) (Fin b) = Fin (a / b).
Proof.
  intros Hb. simpl. rewrite bool_decide_eq_false_2; [reflexivity|].
  intros ->. now apply (Qclt_not_eq _ _ Hb).
Qed.

Lemma Qcdiv_pos (a b : Qc) : (0 < a)%Qc -> (0 < b)%Qc -> (0 < a / b)%Qc.
Proof. intros Ha Hb. apply Qcmult_pos_pos; [exact Ha|]. now apply Qcinv_pos. Qed.

Lemma X_mul_there_and_back (x : xnum) (w1 w2 : Qc) :
  (0 < w1)%Qc -> (0 < w2)%Qc ->
  X.mul (X.mul x (Fin (w2 / w1))) (Fin (w1 / w2)) = x.
Proof.
  intros H1 H2.
  rewrite (X_mul_pos x) by now apply Qcdiv_pos.
  destruct x as [q| | |]; (rewrite X_mul_pos by now apply Qcdiv_pos); try reflexivity.
  f_equal. field. split; intros ->; [now apply (Qclt_not_eq _ _ H2)|now apply (Qclt_not_eq _ _ H1)].
Qed.

Lemma X_rescale_pos (item : Ingredient.t xnum) (w1 w2 : Qc) :
  Ingredient.weight item = Fin w1 -> (0 < w1)%Qc ->
  rescale item (Fin w2) = {|
    Ingredient.id := Ingredient.id item;
    Ingredient.name := Ingredient.name item;
    Ingredient.weight := Fin w2;
    Ingredient.calories := X.mul (Ingredient.calories item) (Fin (w2 / w1));
    Ingredient.protein := X.mul (Ingredient.protein item) (Fin (w2 / w1));
    Ingredient.carbs := X.mul (Ingredient.carbs item) (Fin (w2 / w1));
    Ingredient.fat := X.mul (Ingredient.fat item) (Fin (w2 / w1));
    Ingredient.addedOilCalories := X.mul (Ingredient.addedOilCalories item) (Fin (w2 / w1));
    Ingredient.notes := Ingredient.notes item
  |}.
Proof.
  intros Hw H1. unfold rescale. rewrite Hw.
  change ((Fin w1 >? of_Z 0)%num) with (bool_decide (0 < w1)%Qc).
  change ((Fin w1 =? of_Z 0)%num) with (bool_decide (w1 = 0%Qc)).
  rewrite (bool_decide_eq_true_2 (0 < w1)%Qc) by exact H1.
  rewrite (bool_decide_eq_false_2 (w1 = 0%Qc))
    by (intros ->; now apply (Qclt_not_eq _ _ H1)).
  change ((Fin w2 / Fin w1)%num) with (X.div (Fin w2) (Fin w1)).
  now rewrite X_div_pos.
Qed.

End ExactArithmetic.

(** *** Binary64: rounding to nearest even, from its specification *)

Section RoundingToNearest.
Open Scope Z_scope.

(** One shift of the record halves the mantissa and keeps the quotient
    located, in units twice as large. *)
Lemma shr_1_locates (N T : Z) (rec : shr_record) :
  0 < T -> locates N T rec -> locates N (2 * T) (shr_1 rec).
Proof.
  intros HT. destruct rec as [m r s]. unfold locates. simpl shr_m. simpl shr_r. simpl shr_s.
  intros (Hm & Hb & Hloc).
  destruct m as [|p|p]; [| |lia].
  - destruct r, s; simpl in *; lia.
  - destruct p as [p|p|].
    + rewrite Pos2Z.inj_xI in *. set (a := Z.pos p) in *. assert (0 < a) by (unfold a; lia).
      set (b := a * T) in *.
      assert (Eb : a * T = b) by reflexivity.
      destruct r, s; simpl in *; fold a; nia.
    + rewrite Pos2Z.inj_xO in *. set (a := Z.pos p) in *. assert (0 < a) by (unfold a; lia).
      destruct r, s; simpl in *; fold a; nia.
    + destruct r, s; simpl in *; lia.
Qed.

Lemma iter_pos_shr_1_locates (p : positive) :
  forall (N T : Z) (rec : shr_record),
    0 < T -> locates N T rec -> locates N (T * 2 ^ Z.pos p) (SpecFloat.iter_pos shr_1 p rec).
Proof.
  induction p as [p IH|p IH|]; intros N T rec HT Hrec; simpl SpecFloat.iter_pos.
  - replace (T * 2 ^ Z.pos p~1) with ((2 * T * 2 ^ Z.pos p) * 2 ^ Z.pos p).
    + apply IH; [|apply IH; [lia|now apply shr_1_locates]].
      assert (0 < 2 ^ Z.pos p) by (apply Z.pow_pos_nonneg; lia). nia.
    + replace (Z.pos p~1) with (Z.pos p + Z.pos p + 1) by lia.
      rewrite !Z.pow_add_r, Z.pow_1_r by lia. ring.
  - replace (T * 2 ^ Z.pos p~0) with ((T * 2 ^ Z.pos p) * 2 ^ Z.pos p).
    + apply IH; [|now apply IH].
      assert (0 < 2 ^ Z.pos p) by (apply Z.pow_pos_nonneg; lia). nia.
    + replace (Z.pos p~0) with (Z.pos p + Z.pos p) by lia.
      rewrite !Z.pow_add_r by lia. ring.
  - replace (T * 2 ^ 1) with (2 * T) by (rewrite Z.pow_1_r; ring).
    now apply shr_1_locates.
Qed.

(** [n] shifts: the units are [2^n] times as large, the exponent is [n]
    higher. *)
Lemma shr_locates (N T : Z) (rec : shr_record) (e n : Z) :
  0 < T -> 0 <= n -> locates N T rec ->
  locates N (T * 2 ^ n) (fst (shr rec e n)) /\ snd (shr rec e n) = e + n.
Proof.
  intros HT Hn Hrec. destruct n as [|p|p]; [| |lia]; simpl.
  - rewrite Z.mul_1_r. split; [exact Hrec|lia].
  - split; [now apply iter_pos_shr_1_locates|reflexivity].
Qed.

(** Rounding the located quotient to the nearest integer, ties to even. *)
Lemma round_nearest_even_locates (N T : Z) (rec : shr_record) :
  0 < T -> locates N T rec ->
  let m := round_nearest_even (shr_m rec) (loc_of_shr_record rec) in
  shr_m rec <= m <= shr_m rec + 1
  /\ 2 * Z.abs (m * T - N) <= T.
Proof.
  intros HT. destruct rec as [m r s]. unfold locates. simpl.
  intros (Hm & Hb & Hloc).
  destruct r, s; simpl; try destruct (Z.even m); nia.
Qed.

(** A mantissa of [d] bits lies between [2^(d-1)] and [2^d], and only such a
    one does. *)
Lemma digits2_pos_bounds (m : positive) :
  2 ^ (Z.pos (digits2_pos m) - 1) <= Z.pos m < 2 ^ Z.pos (digits2_pos m).
Proof.
  induction m as [m IH|m IH|]; simpl digits2_pos; [| |simpl; lia];
    rewrite Pos2Z.inj_succ; set (d := Z.pos (digits2_pos m)) in *;
    assert (E1 : 2 ^ d = 2 * 2 ^ (d - 1))
      by (rewrite <- Z.pow_succ_r by (unfold d; lia); f_equal; lia);
    assert (E2 : 2 ^ (Z.succ d) = 2 * 2 ^ d) by (apply Z.pow_succ_r; unfold d; lia);
    replace (Z.succ d - 1) with d by lia; lia.
Qed.

Lemma digits2_pos_unique (m : positive) (d : Z) :
  2 ^ (d - 1) <= Z.pos m < 2 ^ d -> Z.pos (digits2_pos m) = d.
Proof.
  intros [Hlo Hhi]. pose proof (digits2_pos_bounds m) as [Hlo' Hhi'].
  assert (Hd : 0 < d).
  { destruct (Z.lt_ge_cases 0 d) as [|Hd]; [assumption|].
    destruct (Z.eq_dec d 0) as [->|]; [simpl in Hhi; lia|].
    rewrite Z.pow_neg_r in Hhi by lia. lia. }
  destruct (Z.lt_trichotomy (Z.pos (digits2_pos m)) d) as [Hlt|[Heq|Hgt]]; [|exact Heq|].
  - assert (2 ^ Z.pos (digits2_pos m) <= 2 ^ (d - 1)) by (apply Z.pow_le_mono_r; lia). lia.
  - assert (2 ^ d <= 2 ^ (Z.pos (digits2_pos m) - 1)) by (apply Z.pow_le_mono_r; lia). lia.
Qed.

(** The exponent of the format at a magnitude that is not subnormal. *)
Lemma fexp_normal (x : Z) : -1074 <= x - 53 -> fexp 53 1024 x = x - 53.
Proof. intros H. unfold fexp, emin. lia. Qed.

(** Rounding a located quotient [N / D], scaled by [2^ex], whose integer part
    [mx] has at least 53 bits, to 53 bits: neither underflow nor overflow. *)
Lemma binary_round_aux_correct (sx : bool) (mx : positive) (ex : Z) (lx : location)
    (N D : Z) :
  0 < D ->
  locates N D (shr_record_of_loc (Z.pos mx) lx) ->
  let d := Z.pos (digits2_pos mx) in
  53 <= d -> -1074 <= d + ex - 53 -> d + ex <= 1023 ->
  exists (mf : positive) (ef m1 : Z),
    binary_round_aux 53 1024 sx (Z.pos mx) ex lx = S754_finite sx mf ef
    /\ Z.pos (digits2_pos mf) = 53
    /\ (ef = d + ex - 53 /\ Z.pos mf = m1 \/ ef = d + ex - 52 /\ 2 * Z.pos mf = m1)
    /\ 2 * Z.abs (m1 * (D * 2 ^ (d - 53)) - N) <= D * 2 ^ (d - 53)
    /\ 2 ^ 52 * (D * 2 ^ (d - 53)) <= N.
Proof.
  intros HD Hloc d Hd Hlo Hhi.
  set (k := d - 53) in *. set (T := D * 2 ^ k).
  assert (Hk : 0 <= k) by (unfold k; lia).
  assert (HT : 0 < T) by (unfold T; assert (0 < 2 ^ k) by (apply Z.pow_pos_nonneg; lia); nia).
  pose proof (digits2_pos_bounds mx) as [Hmlo Hmhi]. fold d in Hmlo, Hmhi.
  assert (Ed : 2 ^ d = 2 ^ 53 * 2 ^ k).
  { unfold k. rewrite <- Z.pow_add_r by lia. f_equal. lia. }
  assert (Ed' : 2 ^ (d - 1) = 2 ^ 52 * 2 ^ k).
  { unfold k. rewrite <- Z.pow_add_r by lia. f_equal. lia. }
  assert (HN : Z.pos mx * D <= N < (Z.pos mx + 1) * D).
  { destruct Hloc as (_ & Hb & _). destruct lx as [|[| |]]; exact Hb. }
  assert (HNlo : 2 ^ 52 * T <= N) by (unfold T; nia).
  assert (HNhi : N < 2 ^ 53 * T) by (unfold T; nia).
  unfold binary_round_aux, shr_fexp.
  simpl Zdigits2. fold d.
  rewrite (fexp_normal (d + ex)) by lia.
  replace (d + ex - 53 - ex) with k by (unfold k; lia).
  destruct (shr_locates N D (shr_record_of_loc (Z.pos mx) lx) ex k HD Hk Hloc) as [Hrec He].
  destruct (shr (shr_record_of_loc (Z.pos mx) lx) ex k) as [rec e'].
  simpl in Hrec, He. fold T in Hrec. subst e'.
  destruct (round_nearest_even_locates N T rec HT Hrec) as [Hm1 Herr].
  set (m1 := round_nearest_even (shr_m rec) (loc_of_shr_record rec)) in *.
  assert (Hm0 : 2 ^ 52 <= shr_m rec < 2 ^ 53).
  { destruct Hrec as (_ & Hb & _). split; nia. }
  assert (Hm1' : 2 ^ 52 <= m1 <= 2 ^ 53) by lia.
  destruct (Z.eq_dec m1 (2 ^ 53)) as [E|NE].
  - rewrite E. exists (Z.to_pos (2 ^ 52)), (d + ex - 52), m1.
    replace (ex + k) with (d + ex - 53) by (unfold k; lia).
    change (Zdigits2 (2 ^ 53)) with 54.
    rewrite (fexp_normal (54 + (d + ex - 53))) by lia.
    replace (54 + (d + ex - 53) - 53 - (d + ex - 53)) with 1 by lia.
    simpl shr. cbv beta iota.
    replace (d + ex - 53 + 1 <=? 1024 - 53) with true by (symmetry; apply Z.leb_le; lia).
    split; [f_equal; lia|]. split; [reflexivity|]. split; [right; split; [lia|now rewrite E]|].
    split; [exact Herr|exact HNlo].
  - assert (Hp : exists p1 : positive, m1 = Z.pos p1).
    { destruct m1 as [|p1|p1]; try (exfalso; simpl in Hm1'; lia). now exists p1. }
    destruct Hp as [p1 Ep]. rewrite Ep in *.
    assert (Hd1 : Z.pos (digits2_pos p1) = 53) by (apply digits2_pos_unique; simpl; lia).
    exists p1, (d + ex - 53), (Z.pos p1).
    replace (ex + k) with (d + ex - 53) by (unfold k; lia).
    simpl Zdigits2. rewrite Hd1.
    rewrite (fexp_normal (53 + (d + ex - 53))) by lia.
    replace (53 + (d + ex - 53) - 53 - (d + ex - 53)) with 0 by lia.
    simpl shr. cbv beta iota. simpl shr_m.
    replace (d + ex - 53 <=? 1024 - 53) with true by (symmetry; apply Z.leb_le; lia).
    split; [reflexivity|]. split; [first [exact Hd1|reflexivity]|]. split; [left; split; reflexivity|].
    split; [exact Herr|exact HNlo].
Qed.

End RoundingToNearest.

(** *** Binary64: the accuracy of a product and of a quotient *)

Section Accuracy.
Local Open Scope Q_scope.

Lemma pow2_pos (e : Z) : 0 < pow2 e.
Proof. apply Qpower_0_lt. reflexivity. Qed.

Lemma pow2_add (a b : Z) : pow2 (a + b) == pow2 a * pow2 b.
Proof. apply Qpower_plus. discriminate. Qed.

Lemma pow2_inject (k : Z) : (0 <= k)%Z -> pow2 k == inject_Z (2 ^ k).
Proof. intros Hk. unfold pow2. now rewrite Zpower_Qpower. Qed.

Lemma sign_Q_xorb (a b : bool) : sign_Q (xorb a b) == sign_Q a * sign_Q b.
Proof. destruct a, b; reflexivity. Qed.

(** A rounded integer quotient is the quotient up to the unit roundoff. *)
Lemma relative_error (m1 T N : Z) :
  (0 < T)%Z -> (2 * Z.abs (m1 * T - N) <= T)%Z -> (2 ^ 52 * T <= N)%Z ->
  exists delta : Q,
    - unit_roundoff <= delta <= unit_roundoff
    /\ inject_Z (m1 * T) == inject_Z N * (1 + delta).
Proof.
  intros HT Herr HN.
  assert (HN0 : (0 < N)%Z) by lia.
  exists ((m1 * T - N) # Z.to_pos N).
  unfold unit_roundoff, Qle, Qeq; simpl.
  rewrite !Z2Pos.id by lia.
  change (2 ^ 52)%Z with 4503599627370496%Z in HN.
  repeat split; nia.
Qed.

(** The value [binary_round_aux] gives, neither underflow nor overflow. *)
Lemma rounded_value (sx : bool) (mx : positive) (ex : Z) (lx : location) (N D : Z) :
  (0 < D)%Z ->
  locates N D (shr_record_of_loc (Z.pos mx) lx) ->
  let d := Z.pos (digits2_pos mx) in
  (53 <= d)%Z -> (-1074 <= d + ex - 53)%Z -> (d + ex <= 1023)%Z ->
  exists (mf : positive) (ef : Z) (delta : Q),
    binary_round_aux 53 1024 sx (Z.pos mx) ex lx = S754_finite sx mf ef
    /\ Z.pos (digits2_pos mf) = 53%Z
    /\ (d + ex - 53 <= ef <= d + ex - 52)%Z
    /\ - unit_roundoff <= delta <= unit_roundoff
    /\ inject_Z (Z.pos mf) * pow2 ef * inject_Z D
       == inject_Z N * pow2 ex * (1 + delta).
Proof.
  intros HD Hloc d Hd Hlo Hhi.
  destruct (binary_round_aux_correct sx mx ex lx N D HD Hloc Hd Hlo Hhi)
    as (mf & ef & m1 & Hres & Hdf & Hcase & Herr & HN).
  fold d in Hcase, Herr, HN. set (k := (d - 53)%Z) in *.
  assert (Hk : (0 <= k)%Z) by (unfold k; lia).
  assert (HT : (0 < D * 2 ^ k)%Z).
  { assert (0 < 2 ^ k)%Z by (apply Z.pow_pos_nonneg; lia). nia. }
  destruct (relative_error m1 (D * 2 ^ k) N HT Herr HN) as (delta & Hdelta & Hval).
  exists mf, ef, delta. split; [exact Hres|]. split; [exact Hdf|]. split; [lia|].
  split; [exact Hdelta|].
  assert (Hm : inject_Z (Z.pos mf) * pow2 ef == inject_Z m1 * inject_Z (2 ^ k) * pow2 ex).
  { destruct Hcase as [[-> <-]|[-> <-]].
    - replace (d + ex - 53)%Z with (ex + k)%Z by (unfold k; lia).
      rewrite pow2_add, (pow2_inject k Hk). ring.
    - replace (d + ex - 52)%Z with (ex + k + 1)%Z by (unfold k; lia).
      rewrite !pow2_add, (pow2_inject k Hk), inject_Z_mult.
      change (pow2 1) with 2. change (inject_Z 2) with 2. ring. }
  rewrite Hm. rewrite !inject_Z_mult in Hval.
  transitivity (inject_Z m1 * (inject_Z D * inject_Z (2 ^ k)) * pow2 ex); [ring|].
  rewrite Hval. ring.
Qed.

(** The product of two mantissas of 53 bits has 105 or 106 bits. *)
Lemma digits_of_product (ma mb : positive) :
  Z.pos (digits2_pos ma) = 53%Z -> Z.pos (digits2_pos mb) = 53%Z ->
  (105 <= Z.pos (digits2_pos (ma * mb)) <= 106)%Z.
Proof.
  intros Ha Hb.
  pose proof (digits2_pos_bounds ma) as [Halo Hahi].
  pose proof (digits2_pos_bounds mb) as [Hblo Hbhi].
  pose proof (digits2_pos_bounds (ma * mb)) as [Hlo Hhi].
  rewrite Ha in *. rewrite Hb in *. rewrite Pos2Z.inj_mul in *.
  set (d := Z.pos (digits2_pos (ma * mb))) in *.
  change (2 ^ (53 - 1))%Z with 4503599627370496%Z in *.
  change (2 ^ 53)%Z with 9007199254740992%Z in *.
  assert (Hprod : (4503599627370496 * 4503599627370496 <= Z.pos ma * Z.pos mb
                   < 9007199254740992 * 9007199254740992)%Z) by nia.
  split.
  - destruct (Z.le_gt_cases 105 d) as [|Hd]; [assumption|exfalso].
    assert (2 ^ d <= 2 ^ 104)%Z by (apply Z.pow_le_mono_r; lia).
    change (2 ^ 104)%Z with (4503599627370496 * 4503599627370496)%Z in *. lia.
  - destruct (Z.le_gt_cases d 106) as [|Hd]; [assumption|exfalso].
    assert (2 ^ 106 <= 2 ^ (d - 1))%Z by (apply Z.pow_le_mono_r; lia).
    change (2 ^ 106)%Z with (9007199254740992 * 9007199254740992)%Z in *. lia.
Qed.

(** A product of two normal doubles that neither underflows nor overflows is
    the exact product up to the unit roundoff. *)
Lemma SFmul_accurate (sa sb : bool) (ma mb : positive) (ea eb : Z) :
  Z.pos (digits2_pos ma) = 53%Z -> Z.pos (digits2_pos mb) = 53%Z ->
  (-1126 <= ea + eb <= 917)%Z ->
  exists (mf : positive) (ef : Z) (delta : Q),
    SFmul 53 1024 (S754_finite sa ma ea) (S754_finite sb mb eb)
    = S754_finite (xorb sa sb) mf ef
    /\ Z.pos (digits2_pos mf) = 53%Z
    /\ (ea + eb + 52 <= ef <= ea + eb + 54)%Z
    /\ - unit_roundoff <= delta <= unit_roundoff
    /\ SF2Q (S754_finite (xorb sa sb) mf ef)
       == SF2Q (S754_finite sa ma ea) * SF2Q (S754_finite sb mb eb) * (1 + delta).
Proof.
  intros Ha Hb HE.
  pose proof (digits_of_product ma mb Ha Hb) as Hd.
  assert (Hloc : locates (Z.pos (ma * mb)) 1 (shr_record_of_loc (Z.pos (ma * mb)) loc_Exact)).
  { unfold locates; simpl. lia. }
  destruct (rounded_value (xorb sa sb) (ma * mb) (ea + eb) loc_Exact (Z.pos (ma * mb)) 1
              ltac:(lia) Hloc ltac:(lia) ltac:(lia) ltac:(lia))
    as (mf & ef & delta & Hres & Hdf & Hef & Hdelta & Hval).
  exists mf, ef, delta. split; [exact Hres|]. split; [exact Hdf|]. split; [lia|].
  split; [exact Hdelta|].
  unfold SF2Q. rewrite sign_Q_xorb.
  transitivity (sign_Q sa * sign_Q sb * (inject_Z (Z.pos mf) * pow2 ef * inject_Z 1));
    [change (inject_Z 1) with 1; ring|].
  rewrite Hval, Pos2Z.inj_mul, inject_Z_mult, pow2_add. ring.
Qed.

(** The location [SFdiv_core_binary] computes from the remainder. *)
Lemma new_location_locates (N D q r : Z) :
  (0 < D)%Z -> (0 <= q)%Z -> (0 <= r < D)%Z -> N = (D * q + r)%Z ->
  locates N D (shr_record_of_loc q (new_location D r)).
Proof.
  intros HD Hq Hr ->. unfold new_location, new_location_even, new_location_odd.
  destruct (Z.even D) eqn:Heven.
  - destruct (Z.eqb_spec r 0) as [->|Hr0]; [unfold locates; simpl; lia|].
    destruct (Z.compare_spec (2 * r) D); unfold locates; simpl; lia.
  - assert (Hodd : exists k, D = (2 * k + 1)%Z).
    { apply Zodd_ex, Zodd_bool_iff. now rewrite <- Z.negb_even, Heven. }
    destruct Hodd as [k Hk].
    destruct (Z.eqb_spec r 0) as [->|Hr0]; [unfold locates; simpl; lia|].
    destruct (Z.compare_spec (2 * r + 1) D); unfold locates; simpl; lia.
Qed.

(** A quotient of two normal doubles that neither underflows nor overflows is
    the exact quotient up to the unit roundoff. *)
Lemma SFdiv_accurate (sa sb : bool) (ma mb : positive) (ea eb : Z) :
  Z.pos (digits2_pos ma) = 53%Z -> Z.pos (digits2_pos mb) = 53%Z ->
  (-1021 <= ea - eb <= 1022)%Z ->
  exists (mf : positive) (ef : Z) (delta : Q),
    SFdiv 53 1024 (S754_finite sa ma ea) (S754_finite sb mb eb)
    = S754_finite (xorb sa sb) mf ef
    /\ Z.pos (digits2_pos mf) = 53%Z
    /\ (ea - eb - 53 <= ef <= ea - eb - 51)%Z
    /\ - unit_roundoff <= delta <= unit_roundoff
    /\ SF2Q (S754_finite (xorb sa sb) mf ef)
       == SF2Q (S754_finite sa ma ea) / SF2Q (S754_finite sb mb eb) * (1 + delta).
Proof.
  intros Ha Hb HE.
  pose proof (digits2_pos_bounds ma) as [Halo Hahi].
  pose proof (digits2_pos_bounds mb) as [Hblo Hbhi].
  rewrite Ha in Halo, Hahi. rewrite Hb in Hblo, Hbhi.
  change (2 ^ (53 - 1))%Z with 4503599627370496%Z in *.
  change (2 ^ 53)%Z with 9007199254740992%Z in *.
  unfold SFdiv, SFdiv_core_binary. simpl Zdigits2. rewrite Ha, Hb.
  replace (53 + ea - (53 + eb))%Z with (ea - eb)%Z by lia.
  rewrite (fexp_normal (ea - eb)) by lia.
  rewrite (Z.min_l (ea - eb - 53) (ea - eb)) by lia.
  replace (ea - eb - (ea - eb - 53))%Z with 53%Z by lia.
  cbv iota. rewrite Z.shiftl_mul_pow2 by lia.
  change (2 ^ 53)%Z with 9007199254740992%Z.
  pose proof (Z_div_mod (Z.pos ma * 9007199254740992) (Z.pos mb) ltac:(lia)) as Hdiv.
  destruct (Z.div_eucl (Z.pos ma * 9007199254740992) (Z.pos mb)) as [q r].
  destruct Hdiv as [Hqr Hr].
  assert (Hq : (4503599627370496 <= q < 18014398509481984)%Z) by nia.
  destruct q as [|mq|mq]; try lia.
  assert (Hloc : locates (Z.pos ma * 9007199254740992) (Z.pos mb)
                   (shr_record_of_loc (Z.pos mq) (new_location (Z.pos mb) r))).
  { apply new_location_locates; lia. }
  assert (Hd : (53 <= Z.pos (digits2_pos mq) <= 54)%Z).
  { pose proof (digits2_pos_bounds mq) as [Hlo Hhi].
    set (d := Z.pos (digits2_pos mq)) in *. split.
    - destruct (Z.le_gt_cases 53 d) as [|Hd]; [assumption|exfalso].
      assert (2 ^ d <= 2 ^ 52)%Z by (apply Z.pow_le_mono_r; lia).
      change (2 ^ 52)%Z with 4503599627370496%Z in *. lia.
    - destruct (Z.le_gt_cases d 54) as [|Hd]; [assumption|exfalso].
      assert (2 ^ 54 <= 2 ^ (d - 1))%Z by (apply Z.pow_le_mono_r; lia).
      change (2 ^ 54)%Z with 18014398509481984%Z in *. lia. }
  destruct (rounded_value (xorb sa sb) mq (ea - eb - 53) (new_location (Z.pos mb) r)
              (Z.pos ma * 9007199254740992) (Z.pos mb)
              ltac:(lia) Hloc ltac:(lia) ltac:(lia) ltac:(lia))
    as (mf & ef & delta & Hres & Hdf & Hef & Hdelta & Hval).
  exists mf, ef, delta. split; [exact Hres|]. split; [exact Hdf|]. split; [lia|].
  split; [exact Hdelta|].
  assert (Hpow : pow2 ea == pow2 (ea - eb - 53) * inject_Z 9007199254740992 * pow2 eb).
  { replace ea with ((ea - eb - 53) + 53 + eb)%Z at 1 by lia.
    rewrite !pow2_add. now rewrite (pow2_inject 53) by lia. }
  assert (Hmb : ~ inject_Z (Z.pos mb) == 0) by (unfold Qeq; simpl; lia).
  assert (Hpb : ~ pow2 eb == 0) by (pose proof (pow2_pos eb); lra).
  unfold SF2Q.
  rewrite inject_Z_mult in Hval.
  set (R := inject_Z (Z.pos mf) * pow2 ef) in *.
  assert (HR : R == inject_Z (Z.pos ma) * inject_Z 9007199254740992 * pow2 (ea - eb - 53)
                    * (1 + delta) / inject_Z (Z.pos mb)).
  { rewrite <- Hval. field. exact Hmb. }
  transitivity (sign_Q (xorb sa sb) * R); [unfold R; ring|].
  rewrite HR, Hpow.
  destruct sa, sb; simpl xorb; unfold sign_Q; field; split; assumption.
Qed.

End Accuracy.

(** *** Binary64: the round trip of a macro value *)

Section Binary64Accuracy.

(** A valid double above the smallest exponent is normal: its mantissa has
    53 bits. *)
Lemma normal_mantissa (x : float) (s : bool) (m : positive) (e : Z) :
  Prim2SF x = S754_finite s m e -> (-1074 < e)%Z -> Z.pos (digits2_pos m) = 53%Z.
Proof.
  intros E He. pose proof (Prim2SF_valid x) as V. rewrite E in V.
  unfold valid_binary, bounded, canonical_mantissa, fexp, emin in V.
  apply andb_true_iff in V as [V _]. apply Z.eqb_eq in V.
  change (Z.pos 3 - emax - prec)%Z with (-1074)%Z in V.
  change prec with 53%Z in V. lia.
Qed.

Lemma moderate_spec (x : float) :
  moderate x = true ->
  exists s m e, Prim2SF x = S754_finite s m e
                /\ Z.pos (digits2_pos m) = 53%Z /\ (-253 <= e <= 147)%Z.
Proof.
  unfold moderate. destruct (Prim2SF x) as [| | |s m e] eqn:E; try discriminate.
  intros H. apply andb_true_iff in H as [H1 H2].
  apply Z.leb_le in H1, H2. exists s, m, e. split; [reflexivity|].
  split; [|lia]. apply (normal_mantissa x s m e E). lia.
Qed.

Local Open Scope Q_scope.

(** The two lemmas above, on doubles. *)
Lemma mul_accurate (a b : float) (sa sb : bool) (ma mb : positive) (ea eb : Z) :
  Prim2SF a = S754_finite sa ma ea -> Prim2SF b = S754_finite sb mb eb ->
  Z.pos (digits2_pos ma) = 53%Z -> Z.pos (digits2_pos mb) = 53%Z ->
  (-1126 <= ea + eb <= 917)%Z ->
  exists (mf : positive) (ef : Z) (delta : Q),
    Prim2SF (a * b)%float = S754_finite (xorb sa sb) mf ef
    /\ Z.pos (digits2_pos mf) = 53%Z
    /\ (ea + eb + 52 <= ef <= ea + eb + 54)%Z
    /\ - unit_roundoff <= delta <= unit_roundoff
    /\ to_Q (a * b)%float == to_Q a * to_Q b * (1 + delta).
Proof.
  intros Ea Eb Ha Hb HE.
  destruct (SFmul_accurate sa sb ma mb ea eb Ha Hb HE)
    as (mf & ef & delta & Hres & Hdf & Hef & Hdelta & Hval).
  exists mf, ef, delta. unfold to_Q.
  rewrite FloatAxioms.mul_spec, Ea, Eb. unfold SF64mul.
  change prec with 53%Z. change emax with 1024%Z. rewrite Hres. auto.
Qed.

Lemma div_accurate (a b : float) (sa sb : bool) (ma mb : positive) (ea eb : Z) :
  Prim2SF a = S754_finite sa ma ea -> Prim2SF b = S754_finite sb mb eb ->
  Z.pos (digits2_pos ma) = 53%Z -> Z.pos (digits2_pos mb) = 53%Z ->
  (-1021 <= ea - eb <= 1022)%Z ->
  exists (mf : positive) (ef : Z) (delta : Q),
    Prim2SF (a / b)%float = S754_finite (xorb sa sb) mf ef
    /\ Z.pos (digits2_pos mf) = 53%Z
    /\ (ea - eb - 53 <= ef <= ea - eb - 51)%Z
    /\ - unit_roundoff <= delta <= unit_roundoff
    /\ to_Q (a / b)%float == to_Q a / to_Q b * (1 + delta).
Proof.
  intros Ea Eb Ha Hb HE.
  destruct (SFdiv_accurate sa sb ma mb ea eb Ha Hb HE)
    as (mf & ef & delta & Hres & Hdf & Hef & Hdelta & Hval).
  exists mf, ef, delta. unfold to_Q.
  rewrite FloatAxioms.div_spec, Ea, Eb. unfold SF64div.
  change prec with 53%Z. change emax with 1024%Z. rewrite Hres. auto.
Qed.

(** The product of two positive numbers, each in an interval. *)
Lemma mul_interval (a b al ah bl bh : Q) :
  0 < al -> al <= a <= ah -> 0 < bl -> bl <= b <= bh ->
  al * bl <= a * b <= ah * bh.
Proof. intros Hal Ha Hbl Hb. split; nra. Qed.

(** Four roundings in a row change a value by less than five unit roundoffs. *)
Lemma four_roundings (d1 d2 d3 d4 : Q) :
  - unit_roundoff <= d1 <= unit_roundoff -> - unit_roundoff <= d2 <= unit_roundoff ->
  - unit_roundoff <= d3 <= unit_roundoff -> - unit_roundoff <= d4 <= unit_roundoff ->
  Qabs ((1 + d1) * (1 + d2) * ((1 + d3) * (1 + d4)) - 1) <= 5 * unit_roundoff.
Proof.
  intros H1 H2 H3 H4.
  assert (Hu : 0 < 1 - unit_roundoff) by reflexivity.
  pose proof (mul_interval (1 + d1) (1 + d2) (1 - unit_roundoff) (1 + unit_roundoff)
                (1 - unit_roundoff) (1 + unit_roundoff)
                Hu ltac:(lra) Hu ltac:(lra)) as H12.
  pose proof (mul_interval (1 + d3) (1 + d4) (1 - unit_roundoff) (1 + unit_roundoff)
                (1 - unit_roundoff) (1 + unit_roundoff)
                Hu ltac:(lra) Hu ltac:(lra)) as H34.
  assert (Hu2 : 0 < (1 - unit_roundoff) * (1 - unit_roundoff)) by reflexivity.
  pose proof (mul_interval _ _ _ _ _ _ Hu2 H12 Hu2 H34) as H.
  assert (Hlo : 1 - 5 * unit_roundoff
                <= (1 - unit_roundoff) * (1 - unit_roundoff)
                   * ((1 - unit_roundoff) * (1 - unit_roundoff)))
    by (apply Qle_bool_iff; vm_compute; reflexivity).
  assert (Hhi : (1 + unit_roundoff) * (1 + unit_roundoff)
                * ((1 + unit_roundoff) * (1 + unit_roundoff))
                <= 1 + 5 * unit_roundoff)
    by (apply Qle_bool_iff; vm_compute; reflexivity).
  apply Qabs_Qle_condition. split; lra.
Qed.

Lemma to_Q_finite_nonzero (x : float) (s : bool) (m : positive) (e : Z) :
  Prim2SF x = S754_finite s m e -> ~ to_Q x == 0.
Proof.
  intros E. unfold to_Q. rewrite E. simpl.
  pose proof (pow2_pos e) as Hp.
  assert (Hm : 0 < inject_Z (Z.pos m)) by (unfold Qlt; simpl; lia).
  destruct s; unfold sign_Q; nra.
Qed.

(** One macro value through the round trip. *)
Lemma round_trip_of_a_value (x w1 w2 : float) :
  moderate w1 = true -> moderate w2 = true ->
  moderate x = true \/ is_zero x = true ->
  close_to (5 * unit_roundoff) (x * (w2 / w1) * (w1 / w2))%float x.
Proof.
  intros H1 H2 Hx.
  destruct (moderate_spec w1 H1) as (s1 & m1 & e1 & E1 & D1 & R1).
  destruct (moderate_spec w2 H2) as (s2 & m2 & e2 & E2 & D2 & R2).
  destruct (div_accurate w2 w1 s2 s1 m2 m1 e2 e1 E2 E1 D2 D1 ltac:(lia))
    as (ma & ea & da & Ea & Da & Ra & Hda & Va).
  destruct (div_accurate w1 w2 s1 s2 m1 m2 e1 e2 E1 E2 D1 D2 ltac:(lia))
    as (mb & eb & db & Eb & Db & Rb & Hdb & Vb).
  destruct Hx as [Hx|Hx].
  - destruct (moderate_spec x Hx) as (sx & mx & ex & Ex & Dx & Rx).
    destruct (mul_accurate x (w2 / w1)%float sx _ mx ma ex ea Ex Ea Dx Da ltac:(lia))
      as (my & ey & dy & Ey & Dy & Ry & Hdy & Vy).
    destruct (mul_accurate (x * (w2 / w1))%float (w1 / w2)%float _ _ my mb ey eb
                Ey Eb Dy Db ltac:(lia))
      as (mz & ez & dz & Ez & Dz & Rz & Hdz & Vz).
    split; [right; eauto|].
    pose proof (to_Q_finite_nonzero w1 _ _ _ E1) as N1.
    pose proof (to_Q_finite_nonzero w2 _ _ _ E2) as N2.
    assert (V : to_Q (x * (w2 / w1) * (w1 / w2))%float - to_Q x
                == to_Q x * ((1 + da) * (1 + dy) * ((1 + db) * (1 + dz)) - 1)).
    { rewrite Vz, Vy, Va, Vb. field. split; assumption. }
    rewrite V, Qabs_Qmult, (Qmult_comm (Qabs (to_Q x))).
    apply Qmult_le_compat_r; [now apply four_roundings|apply Qabs_nonneg].
  - unfold is_zero in Hx. destruct (Prim2SF x) as [sx| | |] eqn:Ex; try discriminate.
    assert (Ey : Prim2SF (x * (w2 / w1))%float = S754_zero (xorb sx (xorb s2 s1))).
    { rewrite FloatAxioms.mul_spec, Ex, Ea. reflexivity. }
    assert (Ez : Prim2SF (x * (w2 / w1) * (w1 / w2))%float
                 = S754_zero (xorb (xorb sx (xorb s2 s1)) (xorb s1 s2))).
    { rewrite FloatAxioms.mul_spec, Ey, Eb. reflexivity. }
    unfold close_to, is_zero, to_Q. rewrite Ez, Ex. simpl.
    split; [now left|]. apply Qle_bool_iff. reflexivity.
Qed.

End Binary64Accuracy.

Section RescalingDoubles.

(** The rescaler's two tests on a finite double that is not a zero. *)
Lemma positive_sign (w : float) (s : bool) (m : positive) (e : Z) :
  Prim2SF w = S754_finite s m e ->
  ((w >? of_Z 0)%num = negb s) /\ (w =? of_Z 0)%num = false.
Proof.
  intros E. change ((w >? of_Z 0)%num) with (PrimFloat.ltb (F64.of_Z 0) w).
  change ((w =? of_Z 0)%num) with (PrimFloat.eqb w (F64.of_Z 0)).
  rewrite FloatAxioms.ltb_spec, FloatAxioms.eqb_spec, E.
  change (Prim2SF (F64.of_Z 0)) with (S754_zero false).
  now destruct s.
Qed.

(** The rescaler on an item of moderate positive weight. *)
Lemma rescale_moderate (item : Ingredient.t float) (newWeight : float) :
  moderate (Ingredient.weight item) = true ->
  (Ingredient.weight item >? of_Z 0)%num = true ->
  macros (rescale item newWeight)
  = map (fun x => (x * (newWeight / Ingredient.weight item))%float) (macros item)
  /\ Ingredient.weight (rescale item newWeight) = newWeight.
Proof.
  intros Hm Hpos. destruct (moderate_spec _ Hm) as (s & m & e & E & _ & _).
  destruct (positive_sign _ _ _ _ E) as [_ Hzero].
  unfold rescale. rewrite Hpos, Hzero. split; reflexivity.
Qed.

(** Every macro value through the round trip. *)
Lemma round_trip_of_doubles (item : Ingredient.t float) (w2 : float) :
  moderate (Ingredient.weight item) = true ->
  (Ingredient.weight item >? of_Z 0)%num = true ->
  moderate w2 = true ->
  (w2 >? of_Z 0)%num = true ->
  Forall (fun x => moderate x = true \/ is_zero x = true) (macros item) ->
  Forall2 (close_to (5 * unit_roundoff)) (macros (rescale_round_trip item w2)) (macros item).
Proof.
  intros H1 P1 H2 P2 Hx. unfold rescale_round_trip.
  destruct (rescale_moderate item w2 H1 P1) as [E1 W1].
  destruct (rescale_moderate (rescale item w2) (Ingredient.weight item)) as [E2 _];
    [now rewrite W1|now rewrite W1|].
  rewrite E2, E1, W1, map_map. clear E1 E2.
  induction Hx as [|x xs Hx _ IH]; simpl; constructor; [|exact IH].
  now apply round_trip_of_a_value.
Qed.

End RescalingDoubles.

(** The fields the rescaler does not scale, and the weight, after a round
    trip. *)
Lemma rescale_weight {num : Type} `{Number num} (item : Ingredient.t num) (w : num) :
  Ingredient.weight (rescale item w) = w
  /\ Ingredient.id (rescale item w) = Ingredient.id item
  /\ Ingredient.name (rescale item w) = Ingredient.name item
  /\ Ingredient.notes (rescale item w) = Ingredient.notes item.
Proof. unfold rescale. now destruct (_ =? _)%num. Qed.

(** C2 (as amended).  In binary64, as the code computes: for every item
    whose weight [w1 > 0] and every new weight [w2 > 0], both of them normal
    doubles of a magnitude from [2^-201] up to [2^200], rescaling to [w2] and
    back to [w1] gives back each macro value that is zero, or such a double,
    within the relative error [5 * 2^-53] (four roundings: two quotients and
    two products, none of which underflows or overflows).  In exact arithmetic,
    for every item of finite weight [w1 > 0] and every finite [w2 > 0], it
    returns the item itself: each of calories, protein, carbs, fat and
    added-oil calories is multiplied by [w2 / w1] and then by [w1 / w2], and
    the weight is [w1] again.  In every arithmetic and for all weights the
    round trip gives back the weight, the id, the name and the notes, and it
    mutates nothing: its result is a new object, and every object that was
    there, the input among them, is what it was. *)
Theorem C2_round_trip_positive_weights :
  (forall (item : Ingredient.t float) (w2 : float),
      (Ingredient.weight item >? of_Z 0)%num = true ->
      (w2 >? of_Z 0)%num = true ->
      moderate (Ingredient.weight item) = true ->
      moderate w2 = true ->
      Forall (fun x => moderate x = true \/ is_zero x = true) (macros item) ->
      Forall2 (close_to (5 * unit_roundoff))
        (macros (rescale_round_trip item w2)) (macros item))
  /\ (forall (item : Ingredient.t xnum) (w1 w2 : Qc),
        Ingredient.weight item = Fin w1 -> (0 < w1)%Qc -> (0 < w2)%Qc ->
        macros (rescale item (Fin w2))
        = map (fun x => (x * (Fin w2 / Fin w1))%num) (macros item)
        /\ Ingredient.weight (rescale item (Fin w2)) = Fin w2
        /\ rescale_round_trip item (Fin w2) = item)
  /\ (forall (num : Type) (N : Number num) (item : Ingredient.t num) (w2 : num),
        Ingredient.weight (rescale_round_trip item w2) = Ingredient.weight item
        /\ Ingredient.id (rescale_round_trip item w2) = Ingredient.id item
        /\ Ingredient.name (rescale_round_trip item w2) = Ingredient.name item
        /\ Ingredient.notes (rescale_round_trip item w2) = Ingredient.notes item)
  /\ (forall (num : Type) (N : Number num) (heap : Heap) (r : nat)
             (item : Ingredient.t num) (w2 : num),
        heap !! r = Some item ->
        exists (heap' : Heap) (r' : nat),
          rescale_round_trip_object heap r w2 = Some (heap', r')
          /\ heap' !! r' = Some (rescale_round_trip item w2)
          /\ r' <> r
          /\ heap' !! r = Some item
          /\ (forall (other : nat) (object : Ingredient.t num),
                heap !! other = Some object -> heap' !! other = Some object)).
Proof.
  split; [|split; [|split]].
  - intros item w2 P1 P2 H1 H2 Hx. now apply round_trip_of_doubles.
  - intros item w1 w2 Hw H1 H2.
    pose proof (X_rescale_pos item w1 w2 Hw H1) as E1.
    split; [|split].
    + change ((Fin w2 / Fin w1)%num) with (X.div (Fin w2) (Fin w1)).
      rewrite X_div_pos by exact H1. rewrite E1. reflexivity.
    + now rewrite E1.
    + unfold rescale_round_trip. rewrite Hw.
      rewrite (X_rescale_pos (rescale item (Fin w2)) w2 w1) by (now rewrite E1 || exact H2).
      rewrite E1. simpl. rewrite !X_mul_there_and_back by assumption.
      destruct item; simpl in *. now subst.
  - intros num N item w2. unfold rescale_round_trip.
    destruct (rescale_weight (rescale item w2) (Ingredient.weight item))
      as (Hw & Hid & Hname & Hnotes).
    destruct (rescale_weight item w2) as (_ & Hid' & Hname' & Hnotes').
    rewrite Hw, Hid, Hname, Hnotes. auto.
  - intros num N heap r item w2 Hr. unfold Heap in *.
    assert (Hlt : (r < length heap)%nat) by (apply lookup_lt_is_Some; eauto).
    assert (Hkept : forall (other : nat) (object : Ingredient.t num),
              heap !! other = Some object ->
              ((heap ++ [rescale item w2]) ++ [rescale_round_trip item w2])%list !! other
              = Some object).
    { intros other object Ho.
      rewrite !lookup_app_l; [exact Ho|apply lookup_lt_is_Some; eauto|].
      rewrite length_app. apply Nat.lt_lt_add_r, lookup_lt_is_Some. eauto. }
    exists ((heap ++ [rescale item w2]) ++ [rescale_round_trip item w2])%list,
           (length (heap ++ [rescale item w2])).
    split; [|split; [|split; [|split]]].
    + unfold rescale_round_trip_object, rescale_object, new_object, Heap.
      rewrite Hr. rewrite lookup_app_r by lia. now rewrite Nat.sub_diag.
    + rewrite lookup_app_r by lia. now rewrite Nat.sub_diag.
    + rewrite length_app. simpl. lia.
    + now apply Hkept.
    + exact Hkept.
Qed.

Lemma C2_witness :
  Forall2 (close_to (5 * unit_roundoff))
    (macros (rescale_round_trip (num := float) fixed_egg (of_Z 7))) (macros fixed_egg)
  /\ rescale_round_trip (num := xnum) fixed_egg (of_Z 100) = fixed_egg
  /\ exists (heap' : Heap) (r' : nat),
       rescale_round_trip_object (num := float) [fixed_milk; fixed_egg] 1 (of_Z 100)
       = Some (heap', r')
       /\ heap' !! r' = Some (rescale_round_trip fixed_egg (of_Z 100))
       /\ r' <> 1%nat
       /\ heap' !! 1%nat = Some fixed_egg
       /\ (forall (other : nat) (object : Ingredient.t float),
             [fixed_milk; fixed_egg] !! other = Some object -> heap' !! other = Some object).
Proof.
  split; [|split].
  - apply (proj1 C2_round_trip_positive_weights fixed_egg (of_Z 7)).
    + reflexivity.
    + reflexivity.
    + reflexivity.
    + reflexivity.
    + repeat (constructor; [vm_compute; tauto|]). constructor.
  - apply (proj1 (proj2 C2_round_trip_positive_weights) fixed_egg (Q2Qc 50) (Q2Qc 100)).
    + reflexivity.
    + reflexivity.
    + reflexivity.
  - exact (proj2 (proj2 (proj2 C2_round_trip_positive_weights))
             float _ [fixed_milk; fixed_egg] 1%nat fixed_egg (of_Z 100) eq_refl).
Defined.

(** C2 as stated fails when the new weight is [0]: the default egg (50 g)
    rescaled to 0 g has all its macros multiplied by [0 / 50]; rescaling the
    result back to 50 g meets the zero-weight guard, which only replaces the
    weight, so the macros stay 0 instead of 70, 6, 0.6, 5, 0.  It also fails
    for a positive new weight that is not moderate: rescaled to the smallest
    positive double the egg has the macros 0, the ratio [5e-324 / 50] rounding
    to zero, and rescaling back multiplies them by the ratio [50 / 5e-324],
    which overflows to infinity: every macro comes back as NaN, which is
    within no tolerance of the value it was. *)
Lemma C2_counterexample_zero_and_tiny_weights :
  (Ingredient.weight (num := float) fixed_egg >? of_Z 0)%num = true
  /\ macros (num := float) fixed_egg = [of_Z 70; of_Z 6; lit 6 10; of_Z 5; of_Z 0]
  /\ macros (rescale_round_trip (num := float) fixed_egg (of_Z 0))
     = [of_Z 0; of_Z 0; of_Z 0; of_Z 0; of_Z 0]
  /\ ~ (forall (item : Ingredient.t float) (w2 : float),
          (Ingredient.weight item >? of_Z 0)%num = true ->
          macros_within (of_Z 1) (rescale_round_trip item w2) item = true)
  /\ (MIN_VALUE >? of_Z 0)%num = true
  /\ moderate MIN_VALUE = false
  /\ macros (rescale (num := float) fixed_egg MIN_VALUE)
     = [of_Z 0; of_Z 0; of_Z 0; of_Z 0; of_Z 0]
  /\ (Ingredient.weight (num := float) fixed_egg / MIN_VALUE)%num = PrimFloat.infinity
  /\ macros (rescale_round_trip (num := float) fixed_egg MIN_VALUE)
     = [PrimFloat.nan; PrimFloat.nan; PrimFloat.nan; PrimFloat.nan; PrimFloat.nan]
  /\ (forall tol : Q,
        ~ Forall2 (close_to tol)
            (macros (rescale_round_trip (num := float) fixed_egg MIN_VALUE))
            (macros fixed_egg))
  /\ ~ (forall (item : Ingredient.t float) (w2 : float),
          (Ingredient.weight item >? of_Z 0)%num = true ->
          (w2 >? of_Z 0)%num = true ->
          macros_within (of_Z 1) (rescale_round_trip item w2) item = true).
Proof.
  split; [reflexivity|]. split; [vm_compute; reflexivity|]. split; [vm_compute; reflexivity|].
  split.
  { intros claim. specialize (claim fixed_egg (of_Z 0) eq_refl).
    vm_compute in claim. discriminate. }
  split; [reflexivity|]. split; [reflexivity|].
  split; [vm_compute; reflexivity|]. split; [vm_compute; reflexivity|].
  split; [vm_compute; reflexivity|]. split.
  { intros tol H. unfold macros in H.
    inversion H as [|z x zs xs [[Hz|(s & m & e & Hf)] _] _]; subst.
    - vm_compute in Hz. discriminate.
    - vm_compute in Hf. discriminate. }
  intros claim. specialize (claim fixed_egg MIN_VALUE eq_refl eq_refl).
  vm_compute in claim. discriminate.
Qed.

(** ** Order of the items and of the meals *)

Section Reordering.
Context {num : Type} `{Number num}.

Lemma all_items_same_items (ms ms' : list (Meal.t num)) :
  Forall2 same_items ms ms' ->
  Permutation (concat (map Meal.items ms)) (concat (map Meal.items ms')).
Proof.
  induction 1 as [|m m' ms ms' Hm _ IH]; simpl; [constructor|].
  now apply Permutation_app.
Qed.

Lemma all_items_permuted_meals (ms ms' : list (Meal.t num)) :
  Permutation ms ms' ->
  Permutation (concat (map Meal.items ms)) (concat (map Meal.items ms')).
Proof.
  induction 1 as [|m ms ms' _ IH|m m' ms|ms1 ms2 ms3 _ IH1 _ IH2]; simpl.
  - constructor.
  - now apply Permutation_app_head.
  - rewrite !app_assoc. apply Permutation_app_tail, Permutation_app_comm.
  - now transitivity (concat (map Meal.items ms2)).
Qed.

Lemma all_items_reordered (log log' : DailyLog.t num) :
  reordered log log' -> Permutation (all_items log) (all_items log').
Proof.
  intros (ms & Hitems & Hmeals). unfold all_items.
  transitivity (concat (map Meal.items ms));
    [now apply all_items_same_items|now apply all_items_permuted_meals].
Qed.

Hypothesis add_assoc : forall a b c : num, (a + (b + c))%num = ((a + b) + c)%num.
Hypothesis add_comm : forall a b : num, (a + b)%num = (b + a)%num.

Lemma add_swap (x a b : num) : ((x + a) + b)%num = ((x + b) + a)%num.
Proof using add_assoc add_comm.
  now rewrite <- !add_assoc, (add_comm a b).
Qed.

Lemma add_item_swap (acc : Totals.t num) (a b : Ingredient.t num) :
  add_item (add_item acc a) b = add_item (add_item acc b) a.
Proof using add_assoc add_comm.
  unfold add_item; simpl. f_equal; apply add_swap.
Qed.

Lemma fold_add_item_permutation (l l' : list (Ingredient.t num)) :
  Permutation l l' ->
  forall acc, fold_left add_item l acc = fold_left add_item l' acc.
Proof using add_assoc add_comm.
  induction 1 as [|a l l' _ IH|a b l|l1 l2 l3 _ IH1 _ IH2]; intros acc; simpl.
  - reflexivity.
  - apply IH.
  - now rewrite add_item_swap.
  - now rewrite IH1.
Qed.

Lemma total_reordered (log log' : DailyLog.t num) :
  reordered log log' -> total log = total log'.
Proof using add_assoc add_comm.
  intros R. rewrite !total_flat.
  now apply fold_add_item_permutation, all_items_reordered.
Qed.

End Reordering.

Lemma X_add_comm (a b : xnum) : X.add a b = X.add b a.
Proof.
  destruct a, b; simpl; try reflexivity. now rewrite Qcplus_comm.
Qed.

Lemma X_add_assoc (a b c : xnum) : X.add a (X.add b c) = X.add (X.add a b) c.
Proof.
  destruct a, b, c; simpl; try reflexivity. now rewrite Qcplus_assoc.
Qed.

(** C8 (as amended).  Whenever addition is associative and commutative, as
    it is in exact arithmetic, a log and any reordering of it (the items of
    each meal permuted, then the meals permuted) have the same totals.  In
    binary64 addition is commutative but rounds, so the totals of a reordered
    log agree with the original ones only up to that rounding. *)
Theorem C8_totals_of_reordered_logs_exact :
  (forall (num : Type) (N : Number num),
      (forall a b c : num, (a + (b + c))%num = ((a + b) + c)%num) ->
      (forall a b : num, (a + b)%num = (b + a)%num) ->
      forall log log' : DailyLog.t num, reordered log log' -> total log = total log')
  /\ (forall log log' : DailyLog.t xnum, reordered log log' -> total log = total log').
Proof.
  split.
  - intros num N Hassoc Hcomm log log'. now apply total_reordered.
  - intros log log'. apply total_reordered; [exact X_add_assoc|exact X_add_comm].
Qed.

Lemma reordered_rev_items {num : Type} `{Number num} (items : list (Ingredient.t num)) :
  reordered (one_meal_log items) (one_meal_log (rev items)).
Proof.
  exists (DailyLog.meals (one_meal_log (rev items))). split.
  - constructor; [apply Permutation_rev|constructor].
  - reflexivity.
Qed.

Lemma C8_witness :
  total (num := xnum) (one_meal_log [fixed_egg; fixed_milk])
  = total (one_meal_log (rev [fixed_egg; fixed_milk])).
Proof.
  apply (proj2 C8_totals_of_reordered_logs_exact). apply reordered_rev_items.
Defined.

(** C8 as stated fails in binary64: a meal of 0.1, 0.2 and 0.3 kcal sums to
    0.6000000000000001 ([0 + 0.1 + 0.2 + 0.3], left to right), the same meal
    with its items reversed to 0.6. *)
Lemma C8_counterexample_binary64_rounding :
  reordered (one_meal_log three_snacks) (one_meal_log (rev three_snacks))
  /\ Totals.calories (total (one_meal_log three_snacks)) = PrimFloat.next_up (lit 6 10)
  /\ Totals.calories (total (one_meal_log (rev three_snacks))) = lit 6 10
  /\ total (one_meal_log three_snacks) <> total (one_meal_log (rev three_snacks)).
Proof.
  split; [apply reordered_rev_items|].
  split; [vm_compute; reflexivity|]. split; [vm_compute; reflexivity|].
  intros E.
  assert (D : PrimFloat.eqb (Totals.calories (total (one_meal_log three_snacks)))
                (Totals.calories (total (one_meal_log (rev three_snacks)))) = true).
  { rewrite E. vm_compute. reflexivity. }
  vm_compute in D. discriminate.
Qed.

(** ** Log store *)

(** C9.  For a date the store has no entry for, [getDailyLog] returns a log
    of that date with four meals, in the order breakfast, lunch, dinner,
    snack: their ids are [key-date], their names the four labels, the
    breakfast holds the two default records (egg, milk) and the other three
    meals are empty; each of the four slots finds its meal.  Nothing but the
    timestamps depends on when the call is made, so a second call returns the
    same ids, names and items, and the same log when the clock reads the
    same.  The store is only read: the function returns a log and no store,
    and a date with an entry is answered by that entry. *)
Theorem C9_first_access_builds_the_four_slots :
  forall (num : Type) (N : Number num) (logs : gmap string (DailyLog.t num))
         (now now' : nat -> num) (date : string),
    logs !! date = None ->
    let log := getDailyLog logs now date in
    let log' := getDailyLog logs now' date in
    DailyLog.date log = date
    /\ map Meal.id (DailyLog.meals log)
       = ["breakfast-" ++ date; "lunch-" ++ date; "dinner-" ++ date; "snack-" ++ date]
    /\ map Meal.name (DailyLog.meals log) = map snd MEAL_TYPES
    /\ map Meal.items (DailyLog.meals log) = [[fixed_egg; fixed_milk]; []; []; []]
    /\ map (fun type => Meal.id <$> slot_meal type log) MEAL_TYPES
       = map (fun type => Some (fst type ++ "-" ++ date)) MEAL_TYPES
    /\ map Meal.id (DailyLog.meals log') = map Meal.id (DailyLog.meals log)
    /\ map Meal.name (DailyLog.meals log') = map Meal.name (DailyLog.meals log)
    /\ map Meal.items (DailyLog.meals log') = map Meal.items (DailyLog.meals log)
    /\ ((forall i, now' i = now i) -> log' = log).
Proof.
  intros num N logs now now' date Hnone log log'.
  unfold log, log', getDailyLog. rewrite Hnone.
  repeat split.
  intros Hclock. unfold default_meal. now rewrite !Hclock.
Qed.

Lemma C9_witness :
  map Meal.id (DailyLog.meals fresh_log)
  = ["breakfast-2024-05-01"; "lunch-2024-05-01"; "dinner-2024-05-01"; "snack-2024-05-01"].
Proof.
  apply (C9_first_access_builds_the_four_slots float _ ∅ no_clock no_clock "2024-05-01").
  reflexivity.
Defined.

Lemma getDailyLog_stored {num : Type} `{Number num}
    (logs : gmap string (DailyLog.t num)) (now : nat -> num) (date : string)
    (log : DailyLog.t num) :
  logs !! date = Some log -> getDailyLog logs now date = log.
Proof. intros E. unfold getDailyLog. now rewrite E. Qed.

(** C10.  [updateLog] stores the new log under the new log's own date and
    leaves the entry (or the absence of an entry) of every other date as it
    was. *)
Theorem C10_updateLog_changes_one_date :
  forall (num : Type) (prev : gmap string (DailyLog.t num)) (newLog : DailyLog.t num),
    updateLog prev newLog !! DailyLog.date newLog = Some newLog
    /\ (forall date : string,
          date <> DailyLog.date newLog -> updateLog prev newLog !! date = prev !! date).
Proof.
  intros num prev newLog. unfold updateLog. split.
  - apply lookup_insert_eq.
  - intros date Hne. now apply lookup_insert_ne.
Qed.

Lemma C10_witness :
  updateLog (updateLog ∅ fresh_log) next_day_log !! "2024-05-01"
  = updateLog ∅ fresh_log !! "2024-05-01".
Proof.
  apply (C10_updateLog_changes_one_date float (updateLog ∅ fresh_log) next_day_log).
  discriminate.
Defined.

(** ** Food Entry Extraction *)

Section Extraction.
Context {num : Type} `{Host num}.

Lemma or_else_truthy (message fallback : string) :
  truthy_string fallback = true ->
  truthy_string (or_else (Some message) fallback) = true.
Proof. intros Hf. simpl. now destruct (truthy_string message) eqn:E. Qed.

(** Whatever [parseFoodEntry] throws carries a message. *)
Lemma parseFoodEntry_throws_a_message (description : string)
    (imageBase64 : option string) (message : string) :
  parseFoodEntry description imageBase64 = Throw message ->
  truthy_string message = true.
Proof.
  unfold parseFoodEntry, try_catch.
  match goal with |- match ?c with _ => _ end = _ -> _ => destruct c end.
  - discriminate.
  - intros [= <-]. now apply or_else_truthy.
Qed.

Lemma parseFoodEntry_no_client (description : string) (imageBase64 : option string)
    (message : string) :
  getAIClient = Throw message ->
  parseFoodEntry description imageBase64
  = Throw (or_else (Some message) default_failure_message).
Proof. intros E. unfold parseFoodEntry. now rewrite E. Qed.

Lemma parseFoodEntry_collaborator_throws (description : string)
    (imageBase64 : option string) (key message : string) :
  getAIClient = Return key ->
  generateContent key (request_parts description imageBase64) = Throw message ->
  parseFoodEntry description imageBase64
  = Throw (or_else (Some message) default_failure_message).
Proof. intros Ek Eg. unfold parseFoodEntry. rewrite Ek. simpl. now rewrite Eg. Qed.

Lemma parseFoodEntry_on_response (description : string)
    (imageBase64 : option string) (key : string) (text : option string) :
  getAIClient = Return key ->
  generateContent key (request_parts description imageBase64) = Return text ->
  parseFoodEntry description imageBase64
  = try_catch
      (result ← JSON_parse (or_else text "{}");
       items ← itemsWithIds result;
       cookingAnalysis ← cookingAnalysis_of result;
       Return (items, cookingAnalysis))
      (fun message => Throw (or_else (Some message) default_failure_message)).
Proof. intros Ek Eg. unfold parseFoodEntry. rewrite Ek. simpl. now rewrite Eg. Qed.

End Extraction.

(** C6 (as amended).  Whatever [parseFoodEntry] throws is one error with a
    non-empty message.  It throws when no API key is found, when the
    collaborator's call throws (the network fails), and when the response text
    is rejected by [JSON.parse]; the message is the cause's own, or the default
    one when the cause has none.  A response whose text is absent or empty is
    read as the text of the empty object: the extraction then succeeds with no
    item and the default cooking analysis, and so it does for every response
    that parses to an object without [items] and without [cookingAnalysis]. *)
Theorem C6_extraction_errors_and_fallbacks :
  forall (num : Type) (N : Number num) (host : Host num)
         (description : string) (imageBase64 : option string),
    let outcome := parseFoodEntry description imageBase64 in
    (forall message, outcome = Throw message -> truthy_string message = true)
    /\ (forall message,
          getAIClient (num := num) = Throw message ->
          outcome = Throw (or_else (Some message) default_failure_message))
    /\ (forall key message,
          getAIClient (num := num) = Return key ->
          generateContent (num := num) key (request_parts description imageBase64) = Throw message ->
          outcome = Throw (or_else (Some message) default_failure_message))
    /\ (forall key text message,
          getAIClient (num := num) = Return key ->
          generateContent (num := num) key (request_parts description imageBase64) = Return text ->
          JSON_parse (num := num) (or_else text "{}") = Throw message ->
          outcome = Throw (or_else (Some message) default_failure_message))
    /\ (forall key text,
          getAIClient (num := num) = Return key ->
          generateContent (num := num) key (request_parts description imageBase64) = Return text ->
          text = None \/ text = Some EmptyString ->
          outcome = Return ([], default_cooking_analysis))
    /\ (forall key text fields,
          getAIClient (num := num) = Return key ->
          generateContent (num := num) key (request_parts description imageBase64) = Return text ->
          JSON_parse (num := num) (or_else text "{}") = Return (JObject fields) ->
          get_property (JObject fields) "items" = Return None ->
          get_property (JObject fields) "cookingAnalysis" = Return None ->
          outcome = Return ([], default_cooking_analysis)).
Proof.
  intros num N host description imageBase64 outcome. unfold outcome.
  split; [intros m; apply parseFoodEntry_throws_a_message|].
  split; [intros m; apply parseFoodEntry_no_client|].
  split; [intros key m; apply parseFoodEntry_collaborator_throws|].
  split; [|split].
  - intros key text m Ek Eg Ep.
    rewrite (parseFoodEntry_on_response _ _ key text Ek Eg). now rewrite Ep.
  - intros key text Ek Eg Hempty.
    rewrite (parseFoodEntry_on_response _ _ key text Ek Eg).
    assert (E : or_else text "{}" = "{}") by (destruct Hempty; now subst).
    rewrite E, JSON_parse_empty_object. reflexivity.
  - intros key text fields Ek Eg Ep Hitems Hanalysis.
    rewrite (parseFoodEntry_on_response _ _ key text Ek Eg). rewrite Ep.
    unfold try_catch, itemsWithIds, cookingAnalysis_of.
    cbn [mbind Exc_bind]. rewrite Hitems. cbn [mbind Exc_bind].
    rewrite Hanalysis. reflexivity.
Qed.

Lemma C6_witness :
  @parseFoodEntry float _ offline_host "two eggs" None = Throw "Failed to fetch".
Proof.
  apply (proj1 (proj2 (proj2 (C6_extraction_errors_and_fallbacks
                                float _ offline_host "two eggs" None)))
           "test-key" "Failed to fetch");
    reflexivity.
Defined.

(** C6 as stated fails: when the collaborator's response has no text (or
    the empty text), [parseFoodEntry] returns the successful result with an
    empty item list and the default cooking-analysis string. *)
Lemma C6_counterexample_empty_response :
  @generateContent float _ silent_host "test-key"
    (@request_parts float _ silent_host "two eggs" None)
  = Return None
  /\ @parseFoodEntry float _ silent_host "two eggs" None
     = Return ([], "无额外烹饪说明")
  /\ @parseFoodEntry float _ (scenario_host (Return (Some EmptyString))) "two eggs" None
     = Return ([], "无额外烹饪说明")
  /\ ~ (forall (host : Host float) (description : string) (imageBase64 : option string)
              (key : string) (text : option string),
          getAIClient (num := float) = Return key ->
          generateContent (num := float) key (request_parts description imageBase64)
          = Return text ->
          text = None \/ text = Some EmptyString ->
          exists message, parseFoodEntry description imageBase64 = Throw message).
Proof.
  split; [reflexivity|]. split; [reflexivity|]. split; [reflexivity|].
  intros claim.
  destruct (claim silent_host "two eggs" None "test-key" None eq_refl eq_refl (or_introl eq_refl))
    as [message E].
  discriminate E.
Qed.

(** ** Adding food *)

(** C7.  When an attempted extraction throws, [handleAddFood] leaves the
    log store as it was, so the current log, and with it the item list and
    the cooking note of every meal, are the ones before the attempt; nothing
    of the extraction is applied.  Exactly one alert is raised, whose text
    holds the error's non-empty message; the input is kept.  A collaborator
    that cannot be reached is one such failure. *)
Theorem C7_failed_extraction_is_not_applied :
  forall (num : Type) (N : Number num) (host : Host num) (now : nat -> num)
         (st : AppState num) (mealTypeKey mealId cause : string),
    nothing_to_add (inputState st) = false ->
    parseFoodEntry (text (inputState st)) (image_argument (inputState st)) = Throw cause ->
    let st' := handleAddFood now st mealTypeKey mealId in
    logs st' = logs st
    /\ currentLog now st' = currentLog now st
    /\ map Meal.items (DailyLog.meals (currentLog now st'))
       = map Meal.items (DailyLog.meals (currentLog now st))
    /\ alerts st' = (alerts st ++ [alert_text cause])%list
    /\ truthy_string cause = true
    /\ inputState st' = inputState st
    /\ selectedDate st' = selectedDate st
    /\ isProcessing st' = false.
Proof.
  intros num N host now st mealTypeKey mealId cause Hinput Hthrow st'.
  pose proof (parseFoodEntry_throws_a_message _ _ _ Hthrow) as Hcause.
  unfold st', handleAddFood. rewrite Hinput, Hthrow. simpl.
  repeat split. exact Hcause.
Qed.

Lemma C7_witness :
  let st' := @handleAddFood float _ offline_host no_clock typing_state "lunch" "lunch-2024-05-01" in
  logs st' = ∅ /\ alerts st' = ["无法识别食物: Failed to fetch"].
Proof.
  destruct (C7_failed_extraction_is_not_applied float _ offline_host no_clock typing_state
              "lunch" "lunch-2024-05-01" "Failed to fetch" eq_refl eq_refl)
    as (Hlogs & _ & _ & Halerts & _).
  split; [exact Hlogs|exact Halerts].
Defined.

(** With an ideographic space typed in and no image there is nothing to
    add, as [trim] empties the text: no extraction is attempted and no alert
    is raised, whatever the collaborator would do. *)
Example handleAddFood_on_an_ideographic_space :
  nothing_to_add (inputState wide_space_state) = true
  /\ @handleAddFood float _ offline_host no_clock wide_space_state "lunch" "lunch-2024-05-01"
     = wide_space_state
  /\ @handleAddFood float _ answering_host no_clock wide_space_state "lunch" "lunch-2024-05-01"
     = wide_space_state.
Proof. repeat split. Qed.

(* ===================================================================== *)
(** * Part III.  Further properties of the code                           *)
(* ===================================================================== *)

(** ** The log store under the handlers *)

Section Store.
Context {num : Type} `{Services num}.

Lemma currentLog_date (now : nat -> num) (st : AppState num) :
  well_keyed (logs st) -> DailyLog.date (currentLog now st) = selectedDate st.
Proof.
  intros WK. unfold currentLog, getDailyLog.
  destruct (logs st !! selectedDate st) as [log|] eqn:E; [now apply WK|reflexivity].
Qed.

Lemma well_keyed_updateLog (logs : gmap string (DailyLog.t num)) (log : DailyLog.t num) :
  well_keyed logs -> well_keyed (updateLog logs log).
Proof.
  intros WK date log'. unfold updateLog.
  destruct (decide (DailyLog.date log = date)) as [<-|Hne].
  - rewrite lookup_insert_eq. now intros [= <-].
  - rewrite lookup_insert_ne by exact Hne. apply WK.
Qed.

(** Reading back what a handler has just stored. *)
Lemma currentLog_stored (now : nat -> num) (st : AppState num) (log : DailyLog.t num) :
  DailyLog.date log = selectedDate st ->
  currentLog now (with_logs st (updateLog (logs st) log)) = log.
Proof.
  intros Hd. unfold currentLog, getDailyLog, with_logs, updateLog; simpl.
  now rewrite <- Hd, lookup_insert_eq.
Qed.

(** What [handleAddFood] does to the store: nothing, or one [updateLog] of
    the current log with the extraction appended to the meals named. *)
Lemma handleAddFood_logs (now : nat -> num) (st : AppState num)
    (mealTypeKey mealId : string) :
  logs (handleAddFood now st mealTypeKey mealId) = logs st
  \/ exists items cookingAnalysis,
       parseFoodEntry (text (inputState st)) (image_argument (inputState st))
       = Return (items, cookingAnalysis)
       /\ handleAddFood now st mealTypeKey mealId = {|
            logs := updateLog (logs st)
                      (with_meals (currentLog now st)
                         (map (fun m => if String.eqb (Meal.id m) mealId
                                        then append_extraction m items cookingAnalysis
                                        else m)
                              (DailyLog.meals (currentLog now st))));
            selectedDate := selectedDate st;
            activeMealInput := None;
            inputState := {| text := EmptyString; image := None |};
            isProcessing := false;
            fileInput := (fun _ => EmptyString) <$> fileInput st;
            alerts := alerts st |}.
Proof.
  unfold handleAddFood.
  destruct (nothing_to_add (inputState st)); [now left|].
  destruct (parseFoodEntry _ _) as [[items analysis]|message]; [|now left].
  right. now exists items, analysis.
Qed.

End Store.

(** X1.  Once every log of the store is filed under its own date, it stays
    so: each of the four handlers that write the store files the log it
    writes under the selected date, which is that log's date. *)
Theorem store_stays_well_keyed :
  forall (num : Type) (N : Number num) (host : Host num) (services : Services num)
         (now : nat -> num) (st : AppState num),
    well_keyed (logs st) ->
    (forall mealTypeKey mealId,
        well_keyed (logs (handleAddFood now st mealTypeKey mealId)))
    /\ (forall mealId itemId field value,
          well_keyed (logs (handleUpdateItemDetails now st mealId itemId field value)))
    /\ (forall mealId itemId,
          well_keyed (logs (handleDeleteItem now st mealId itemId)))
    /\ (forall key value,
          well_keyed (logs (handleUpdateMetrics now st key value))).
Proof.
  intros num N host services now st WK. repeat split.
  - intros mealTypeKey mealId.
    destruct (handleAddFood_logs now st mealTypeKey mealId) as [->|(i & a & _ & ->)];
      [exact WK|]. now apply well_keyed_updateLog.
  - intros. now apply well_keyed_updateLog.
  - intros. now apply well_keyed_updateLog.
  - intros. now apply well_keyed_updateLog.
Qed.

Section StoreFrame.
Context {num : Type} `{Services num}.

Lemma with_logs_updateLog_frame (st : AppState num) (log : DailyLog.t num) (date : string) :
  DailyLog.date log = selectedDate st -> date <> selectedDate st ->
  logs (with_logs st (updateLog (logs st) log)) !! date = logs st !! date.
Proof.
  intros Hd Hne. unfold with_logs, updateLog; simpl.
  apply lookup_insert_ne. congruence.
Qed.

(** The ids and names of the current log's meals do not depend on the clock. *)
Lemma currentLog_ids_names (now now' : nat -> num) (st : AppState num) :
  map (fun m => (Meal.id m, Meal.name m)) (DailyLog.meals (currentLog now' st))
  = map (fun m => (Meal.id m, Meal.name m)) (DailyLog.meals (currentLog now st)).
Proof.
  unfold currentLog, getDailyLog. now destruct (logs st !! selectedDate st).
Qed.

End StoreFrame.

(** X2.  In a store whose logs are filed under their own dates, the four
    handlers write the entry of the selected date only: the entry (or the
    absence of an entry) of every other date is as before, and the selected
    date does not move. *)
Theorem handlers_write_the_selected_date_only :
  forall (num : Type) (N : Number num) (host : Host num) (services : Services num)
         (now : nat -> num) (st : AppState num) (date : string),
    well_keyed (logs st) ->
    date <> selectedDate st ->
    (forall mealTypeKey mealId,
        logs (handleAddFood now st mealTypeKey mealId) !! date = logs st !! date
        /\ selectedDate (handleAddFood now st mealTypeKey mealId) = selectedDate st)
    /\ (forall mealId itemId field value,
          logs (handleUpdateItemDetails now st mealId itemId field value) !! date
          = logs st !! date
          /\ selectedDate (handleUpdateItemDetails now st mealId itemId field value)
             = selectedDate st)
    /\ (forall mealId itemId,
          logs (handleDeleteItem now st mealId itemId) !! date = logs st !! date
          /\ selectedDate (handleDeleteItem now st mealId itemId) = selectedDate st)
    /\ (forall key value,
          logs (handleUpdateMetrics now st key value) !! date = logs st !! date
          /\ selectedDate (handleUpdateMetrics now st key value) = selectedDate st).
Proof.
  intros num N host services now st date WK Hne.
  pose proof (currentLog_date now st WK) as Hd.
  repeat split.
  - destruct (handleAddFood_logs now st mealTypeKey mealId) as [->|(i & a & _ & ->)];
      [reflexivity|]. simpl. unfold updateLog. apply lookup_insert_ne. simpl. congruence.
  - unfold handleAddFood. destruct (nothing_to_add _); [reflexivity|].
    now destruct (parseFoodEntry _ _) as [[]|].
  - now apply with_logs_updateLog_frame.
  - now apply with_logs_updateLog_frame.
  - now apply with_logs_updateLog_frame.
Qed.

(** X3.  No handler adds, removes, reorders or renames a meal: after
    editing an item, deleting an item or recording a metric, the current log
    lists the same meals, each with its id, name, timestamp and skipped flag
    (recording a metric leaves the meals as they are altogether); after
    adding food the ids and names are the same. *)
Theorem handlers_keep_the_meals_in_place :
  forall (num : Type) (N : Number num) (host : Host num) (services : Services num)
         (now now' : nat -> num) (st : AppState num),
    well_keyed (logs st) ->
    let before := DailyLog.meals (currentLog now st) in
    (forall mealId itemId field value,
        map meal_frame
          (DailyLog.meals
             (currentLog now' (handleUpdateItemDetails now st mealId itemId field value)))
        = map meal_frame before)
    /\ (forall mealId itemId,
          map meal_frame
            (DailyLog.meals (currentLog now' (handleDeleteItem now st mealId itemId)))
          = map meal_frame before)
    /\ (forall key value,
          DailyLog.meals (currentLog now' (handleUpdateMetrics now st key value)) = before)
    /\ (forall mealTypeKey mealId,
          map (fun m => (Meal.id m, Meal.name m))
            (DailyLog.meals (currentLog now' (handleAddFood now st mealTypeKey mealId)))
          = map (fun m => (Meal.id m, Meal.name m)) before).
Proof.
  intros num N host services now now' st WK before.
  pose proof (currentLog_date now st WK) as Hd.
  repeat split.
  - intros. unfold handleUpdateItemDetails.
    rewrite currentLog_stored by exact Hd. simpl.
    rewrite map_map. apply map_ext. intros m.
    now destruct (negb (String.eqb (Meal.id m) mealId)).
  - intros. unfold handleDeleteItem.
    rewrite currentLog_stored by exact Hd. simpl.
    rewrite map_map. apply map_ext. intros m. unfold delete_in.
    now destruct (negb (String.eqb (Meal.id m) mealId)).
  - intros. unfold handleUpdateMetrics.
    now rewrite currentLog_stored by exact Hd.
  - intros.
    destruct (handleAddFood_logs now st mealTypeKey mealId) as [E|(i & a & _ & E)].
    + unfold currentLog at 1. rewrite E.
      assert (S : selectedDate (handleAddFood now st mealTypeKey mealId) = selectedDate st).
      { unfold handleAddFood. destruct (nothing_to_add _); [reflexivity|].
        now destruct (parseFoodEntry _ _) as [[]|]. }
      rewrite S. apply (currentLog_ids_names now now' st).
    + rewrite E. unfold currentLog at 1, getDailyLog, updateLog. simpl.
      rewrite <- Hd. change (DailyLog.date (currentLog now st))
        with (DailyLog.date (with_meals (currentLog now st)
                (map (fun m => if String.eqb (Meal.id m) mealId
                               then append_extraction m i a else m)
                     (DailyLog.meals (currentLog now st))))) at 1.
      rewrite lookup_insert_eq. simpl.
      rewrite map_map. apply map_ext. intros m.
      now destruct (String.eqb (Meal.id m) mealId).
Qed.

(** ** Deleting an item *)

Section Deleting.
Context {num : Type} `{Services num}.

Lemma filter_filter_same {A : Type} (p : A -> bool) (l : list A) :
  List.filter p (List.filter p l) = List.filter p l.
Proof.
  induction l as [|a l IH]; simpl; [reflexivity|].
  destruct (p a) eqn:E; simpl; [rewrite E|]; now rewrite IH.
Qed.

Lemma delete_in_twice (mealId itemId : string) (meal : Meal.t num) :
  delete_in mealId itemId (delete_in mealId itemId meal) = delete_in mealId itemId meal.
Proof.
  unfold delete_in. destruct (negb (String.eqb (Meal.id meal) mealId)) eqn:E.
  - now rewrite E.
  - simpl. rewrite E. unfold with_items; simpl. now rewrite filter_filter_same.
Qed.

Lemma handleDeleteItem_current (now now' : nat -> num) (st : AppState num)
    (mealId itemId : string) :
  well_keyed (logs st) ->
  currentLog now' (handleDeleteItem now st mealId itemId)
  = with_meals (currentLog now st)
      (map (delete_in mealId itemId) (DailyLog.meals (currentLog now st))).
Proof.
  intros WK. unfold handleDeleteItem.
  now rewrite currentLog_stored by (exact (currentLog_date now st WK)).
Qed.

End Deleting.

(** X4.  Deleting an item removes, from the meals with the given id, the
    items with the given item id and nothing else: no such item is left in
    such a meal, every other meal is returned as it is, and the items with
    another id are all still there, in their order, in their meal. *)
Theorem handleDeleteItem_removes_that_item_only :
  forall (num : Type) (N : Number num) (host : Host num) (services : Services num)
         (now now' : nat -> num) (st : AppState num) (mealId itemId : string),
    well_keyed (logs st) ->
    let before := DailyLog.meals (currentLog now st) in
    let after := DailyLog.meals (currentLog now' (handleDeleteItem now st mealId itemId)) in
    let other := fun i : Ingredient.t num => negb (String.eqb (Ingredient.id i) itemId) in
    (forall m' i, In m' after -> Meal.id m' = mealId -> In i (Meal.items m') ->
                  Ingredient.id i <> itemId)
    /\ (forall m, In m before -> Meal.id m <> mealId -> In m after)
    /\ map (fun m => List.filter other (Meal.items m)) after
       = map (fun m => List.filter other (Meal.items m)) before
    /\ length after = length before.
Proof.
  intros num N host services now now' st mealId itemId WK before after other.
  assert (E : after = map (delete_in mealId itemId) before).
  { unfold after. now rewrite handleDeleteItem_current. }
  rewrite E. clear E after. repeat split.
  - intros m' i Hm' Hid Hi. apply in_map_iff in Hm' as (m & <- & _).
    unfold delete_in in Hid, Hi.
    destruct (String.eqb (Meal.id m) mealId) eqn:Em; simpl in Hid, Hi.
    + apply filter_In in Hi as [_ Hi].
      apply negb_true_iff, String.eqb_neq in Hi. exact Hi.
    + apply String.eqb_neq in Em. contradiction.
  - intros m Hm Hne. apply in_map_iff. exists m. split; [|exact Hm].
    unfold delete_in. apply String.eqb_neq in Hne. now rewrite Hne.
  - rewrite map_map. apply map_ext. intros m. unfold delete_in.
    destruct (negb (String.eqb (Meal.id m) mealId)); [reflexivity|].
    simpl. apply filter_filter_same.
  - apply length_map.
Qed.

(** X5.  Deleting is idempotent: deleting the same item of the same meal a
    second time leaves the state the first deletion produced. *)
Theorem handleDeleteItem_twice :
  forall (num : Type) (N : Number num) (host : Host num) (services : Services num)
         (now now' : nat -> num) (st : AppState num) (mealId itemId : string),
    well_keyed (logs st) ->
    handleDeleteItem now' (handleDeleteItem now st mealId itemId) mealId itemId
    = handleDeleteItem now st mealId itemId.
Proof.
  intros num N host services now now' st mealId itemId WK.
  unfold handleDeleteItem at 1.
  rewrite handleDeleteItem_current by exact WK.
  unfold handleDeleteItem, with_logs, with_meals, updateLog; simpl.
  rewrite map_map, (map_ext _ _ (delete_in_twice mealId itemId)).
  now rewrite insert_insert_eq.
Qed.

(** ** Body metrics and item edits *)

Section Edits.
Context {num : Type} `{Services num}.

Lemma get_set_metric (metrics : BodyMetrics.t num) (key : MetricKey) (v : option num) :
  get_metric (set_metric metrics key v) key = v.
Proof. now destruct key. Qed.

Lemma get_set_metric_other (metrics : BodyMetrics.t num) (key other : MetricKey)
    (v : option num) :
  other <> key -> get_metric (set_metric metrics key v) other = get_metric metrics other.
Proof. destruct key, other; simpl; congruence. Qed.

Lemma add_item_by_macros (acc : Totals.t num) (i i' : Ingredient.t num) :
  macros i = macros i' -> add_item acc i = add_item acc i'.
Proof. unfold macros, add_item. intros [= -> -> -> -> ->]. reflexivity. Qed.

Lemma fold_add_item_by_macros (l l' : list (Ingredient.t num)) :
  map macros l = map macros l' ->
  forall acc, fold_left add_item l acc = fold_left add_item l' acc.
Proof.
  revert l'. induction l as [|i l IH]; intros [|i' l'] E acc; try discriminate.
  - reflexivity.
  - simpl in E.
    pose proof (f_equal (hd (macros i)) E) as Ei.
    pose proof (f_equal (@tl _) E) as El. simpl in Ei, El. simpl.
    rewrite (add_item_by_macros acc i i' Ei). now apply IH.
Qed.

(** The totals depend on the macro values of the items only. *)
Lemma total_by_macros (log log' : DailyLog.t num) :
  map (fun m => map macros (Meal.items m)) (DailyLog.meals log)
  = map (fun m => map macros (Meal.items m)) (DailyLog.meals log') ->
  total log = total log'.
Proof.
  intros E. rewrite !total_flat. apply fold_add_item_by_macros.
  unfold all_items. rewrite !concat_map, !map_map. now rewrite E.
Qed.

Lemma nested_map_compose {X Y : Type} (g : Ingredient.t num -> X) (h : X -> Y)
    (ms ms' : list (Meal.t num)) :
  map (fun m => map g (Meal.items m)) ms = map (fun m => map g (Meal.items m)) ms' ->
  map (fun m => map (fun i => h (g i)) (Meal.items m)) ms
  = map (fun m => map (fun i => h (g i)) (Meal.items m)) ms'.
Proof.
  intros E. apply (f_equal (map (map h))) in E. rewrite !map_map in E.
  rewrite !(map_ext (fun m => map (fun i => h (g i)) (Meal.items m))
                    (fun m => map h (map g (Meal.items m))))
    by (intros m; now rewrite map_map).
  exact E.
Qed.

Lemma handleUpdateItemDetails_current (now now' : nat -> num) (st : AppState num)
    (mealId itemId : string) (field : IngredientKey) (value : Value num) :
  well_keyed (logs st) ->
  currentLog now' (handleUpdateItemDetails now st mealId itemId field value)
  = with_meals (currentLog now st)
      (map (fun meal =>
              if negb (String.eqb (Meal.id meal) mealId) then meal
              else with_items meal
                     (map (fun item =>
                             if negb (String.eqb (Ingredient.id item) itemId) then item
                             else update_item item field value)
                          (Meal.items meal)))
           (DailyLog.meals (currentLog now st))).
Proof.
  intros WK. unfold handleUpdateItemDetails.
  now rewrite currentLog_stored by (exact (currentLog_date now st WK)).
Qed.

End Edits.

(** X6.  Recording a body metric writes that metric and nothing else: the
    other three metrics, the meals and hence the totals of the day are as
    before.  The metric becomes the number [parseFloat] reads, or absent when
    that is NaN, so no NaN is ever stored as a metric. *)
Theorem handleUpdateMetrics_records_one_metric :
  forall (num : Type) (N : Number num) (host : Host num) (services : Services num)
         (now now' : nat -> num) (st : AppState num) (key : MetricKey) (value : string),
    well_keyed (logs st) ->
    let before := currentLog now st in
    let after := currentLog now' (handleUpdateMetrics now st key value) in
    get_metric (DailyLog.metrics after) key
    = (if isNaN (parseFloat value) then None else Some (parseFloat value))
    /\ (forall n, get_metric (DailyLog.metrics after) key = Some n -> isNaN n = false)
    /\ (forall other, other <> key ->
          get_metric (DailyLog.metrics after) other
          = get_metric (DailyLog.metrics before) other)
    /\ DailyLog.meals after = DailyLog.meals before
    /\ total after = total before
    /\ DailyLog.dailyNotes after = DailyLog.dailyNotes before.
Proof.
  intros num N host services now now' st key value WK before after.
  assert (E : after = with_metrics before
                (set_metric (DailyLog.metrics before) key
                   (if isNaN (parseFloat value) then None else Some (parseFloat value)))).
  { unfold after, handleUpdateMetrics.
    now rewrite currentLog_stored by (exact (currentLog_date now st WK)). }
  rewrite E. simpl. rewrite get_set_metric. repeat split.
  - intros n. destruct (isNaN (parseFloat value)) eqn:En; [discriminate|].
    now intros [= <-].
  - intros other Hne. now apply get_set_metric_other.
Qed.

(** X7.  Editing any field of an item other than its weight changes no
    number: every item keeps its id, weight, macro values and notes, so the
    totals of the day are as before; an edit of a field other than the weight
    and the name changes nothing at all in the log. *)
Theorem editing_other_fields_keeps_the_numbers :
  forall (num : Type) (N : Number num) (host : Host num) (services : Services num)
         (now now' : nat -> num) (st : AppState num) (mealId itemId : string)
         (field : IngredientKey) (value : Value num),
    well_keyed (logs st) ->
    field <> K_weight ->
    let before := currentLog now st in
    let after :=
      currentLog now' (handleUpdateItemDetails now st mealId itemId field value) in
    let numbers := fun i : Ingredient.t num =>
      (Ingredient.id i, Ingredient.weight i, macros i, Ingredient.notes i) in
    map (fun m => map numbers (Meal.items m)) (DailyLog.meals after)
    = map (fun m => map numbers (Meal.items m)) (DailyLog.meals before)
    /\ total after = total before
    /\ (field <> K_name -> after = before).
Proof.
  intros num N host services now now' st mealId itemId field value WK Hw
         before after numbers.
  assert (E : after = with_meals before
     (map (fun meal =>
              if negb (String.eqb (Meal.id meal) mealId) then meal
              else with_items meal
                     (map (fun item =>
                             if negb (String.eqb (Ingredient.id item) itemId) then item
                             else update_item item field value)
                          (Meal.items meal)))
           (DailyLog.meals before))).
  { apply handleUpdateItemDetails_current. exact WK. }
  assert (Hnum : forall item, numbers (update_item item field value) = numbers item).
  { intros item. destruct field; try reflexivity. contradiction. }
  assert (Hmeals :
    map (fun m => map numbers (Meal.items m)) (DailyLog.meals after)
    = map (fun m => map numbers (Meal.items m)) (DailyLog.meals before)).
  { rewrite E. simpl. rewrite map_map. apply map_ext. intros m.
    destruct (negb (String.eqb (Meal.id m) mealId)); [reflexivity|]. simpl.
    rewrite map_map. apply map_ext. intros i.
    destruct (negb (String.eqb (Ingredient.id i) itemId)); [reflexivity|apply Hnum]. }
  split; [exact Hmeals|]. split.
  - apply total_by_macros.
    apply (nested_map_compose numbers (fun x => snd (fst x))). exact Hmeals.
  - intros Hn. rewrite E.
    assert (Hid : forall item, update_item item field value = item).
    { intros item. destruct field; try reflexivity; contradiction. }
    replace (map _ (DailyLog.meals before)) with (DailyLog.meals before).
    + now destruct before.
    + symmetry. erewrite map_ext; [apply map_id|]. intros m.
      destruct (negb (String.eqb (Meal.id m) mealId)); [reflexivity|].
      replace (map _ (Meal.items m)) with (Meal.items m); [now destruct m|].
      symmetry. erewrite map_ext; [apply map_id|]. intros i.
      destruct (negb (String.eqb (Ingredient.id i) itemId)); [reflexivity|apply Hid].
Qed.

(** ** Adding food *)

Section Adding.
Context {num : Type} `{Services num}.

Lemma prefix_append (s t : string) : String.prefix s (s ++ t) = true.
Proof.
  induction s as [|a s IH]; simpl; [now destruct t|].
  destruct (ascii_dec a a); [exact IH|contradiction].
Qed.

(** The note [append_extraction] writes starts with the note it found. *)
Lemma append_extraction_note (m : Meal.t num) (items : list (Ingredient.t num))
    (analysis note : string) :
  Meal.cookingMethodNote m = Some note ->
  exists note', Meal.cookingMethodNote (append_extraction m items analysis) = Some note'
                /\ String.prefix note note' = true.
Proof.
  intros E. unfold append_extraction; simpl. rewrite E.
  destruct note as [|c note]; simpl.
  - exists analysis. split; [reflexivity|]. now destruct analysis.
  - eexists. split; [reflexivity|]. apply (prefix_append (String c note)).
Qed.

Lemma handleAddFood_current (now now' : nat -> num) (st : AppState num)
    (mealTypeKey mealId : string) (items : list (Ingredient.t num)) (analysis : string) :
  well_keyed (logs st) ->
  nothing_to_add (inputState st) = false ->
  parseFoodEntry (text (inputState st)) (image_argument (inputState st))
  = Return (items, analysis) ->
  currentLog now' (handleAddFood now st mealTypeKey mealId)
  = with_meals (currentLog now st)
      (map (fun m => if String.eqb (Meal.id m) mealId
                     then append_extraction m items analysis else m)
           (DailyLog.meals (currentLog now st))).
Proof.
  intros WK Hin Hok. unfold handleAddFood. rewrite Hin, Hok.
  unfold currentLog at 1, getDailyLog, updateLog. simpl.
  rewrite <- (currentLog_date now st WK).
  change (DailyLog.date (currentLog now st))
    with (DailyLog.date (with_meals (currentLog now st)
            (map (fun m => if String.eqb (Meal.id m) mealId
                           then append_extraction m items analysis else m)
                 (DailyLog.meals (currentLog now st))))) at 1.
  now rewrite lookup_insert_eq.
Qed.

End Adding.

(** X9.  A successful extraction is appended, never substituted: in the
    current log every meal keeps the items it had, in their order, followed,
    in the meals with the given id, by the extracted items; a meal with another
    id is returned as it is; the cooking note a meal had is the beginning of
    the note it has afterwards.  The input is cleared and no alert is raised. *)
Theorem handleAddFood_appends_the_extraction :
  forall (num : Type) (N : Number num) (host : Host num) (services : Services num)
         (now now' : nat -> num) (st : AppState num) (mealTypeKey mealId : string)
         (items : list (Ingredient.t num)) (analysis : string),
    well_keyed (logs st) ->
    nothing_to_add (inputState st) = false ->
    parseFoodEntry (text (inputState st)) (image_argument (inputState st))
    = Return (items, analysis) ->
    let st' := handleAddFood now st mealTypeKey mealId in
    let before := DailyLog.meals (currentLog now st) in
    let after := DailyLog.meals (currentLog now' st') in
    map Meal.items after
    = map (fun m => (Meal.items m
                     ++ (if String.eqb (Meal.id m) mealId then items else []))%list)
          before
    /\ (forall m, In m before -> Meal.id m <> mealId -> In m after)
    /\ (forall (k : nat) (m m' : Meal.t num) (note : string),
          before !! k = Some m -> after !! k = Some m' ->
          Meal.cookingMethodNote m = Some note ->
          exists note', Meal.cookingMethodNote m' = Some note'
                        /\ String.prefix note note' = true)
    /\ inputState st' = {| text := EmptyString; image := None |}
    /\ activeMealInput st' = None
    /\ alerts st' = alerts st
    /\ isProcessing st' = false.
Proof.
  intros num N host services now now' st mealTypeKey mealId items analysis
         WK Hin Hok st' before after.
  assert (E : after = map (fun m => if String.eqb (Meal.id m) mealId
                                    then append_extraction m items analysis else m)
                          before).
  { unfold after, st'. now rewrite (handleAddFood_current now now' st _ _ items analysis). }
  split; [|split; [|split]].
  - rewrite E, map_map. apply map_ext. intros m.
    destruct (String.eqb (Meal.id m) mealId); simpl; [reflexivity|].
    now rewrite app_nil_r.
  - intros m Hm Hne. rewrite E. apply in_map_iff. exists m. split; [|exact Hm].
    apply String.eqb_neq in Hne. now rewrite Hne.
  - intros k m m' note Hk Hk' Hnote. rewrite E, list_lookup_fmap, Hk in Hk'.
    simpl in Hk'. injection Hk' as <-.
    destruct (String.eqb (Meal.id m) mealId).
    + now apply append_extraction_note.
    + exists note. split; [exact Hnote|].
      rewrite <- (prefix_append note EmptyString) at 1.
      clear. induction note as [|c n IH]; simpl; [reflexivity|].
      destruct (ascii_dec c c); [exact IH|contradiction].
  - unfold st', handleAddFood. rewrite Hin, Hok. repeat split.
Qed.

(** ** The rescaler at NaN, and a zero target, in binary64 *)

Section FloatEdges.

Lemma SFcompare_refl_nan (x : spec_float) : SFeqb x x = false -> x = S754_nan.
Proof.
  unfold SFeqb. destruct x as [s|s| |s m e]; simpl; try discriminate; try reflexivity.
  - now destruct s.
  - rewrite Z.compare_refl, Pos.compare_cont_refl. now destruct s.
Qed.

Lemma F64_is_nan_eq (x : float) : PrimFloat.is_nan x = true -> x = PrimFloat.nan.
Proof.
  unfold PrimFloat.is_nan. rewrite FloatAxioms.eqb_spec. intros E.
  apply negb_true_iff, SFcompare_refl_nan in E.
  apply Prim2SF_inj. now rewrite E.
Qed.

Lemma F64_mul_nan_l (x : float) : PrimFloat.mul PrimFloat.nan x = PrimFloat.nan.
Proof.
  apply Prim2SF_inj. rewrite FloatAxioms.mul_spec.
  change (Prim2SF PrimFloat.nan) with S754_nan. reflexivity.
Qed.

Lemma F64_mul_nan_r (x : float) : PrimFloat.mul x PrimFloat.nan = PrimFloat.nan.
Proof. rewrite F64_mul_comm. apply F64_mul_nan_l. Qed.

Lemma F64_div_nan_l (x : float) : PrimFloat.div PrimFloat.nan x = PrimFloat.nan.
Proof.
  apply Prim2SF_inj. rewrite FloatAxioms.div_spec.
  change (Prim2SF PrimFloat.nan) with S754_nan. reflexivity.
Qed.

Lemma F64_pos_not_zero (x : float) :
  PrimFloat.ltb (F64.of_Z 0) x = true -> PrimFloat.eqb x (F64.of_Z 0) = false.
Proof.
  rewrite FloatAxioms.ltb_spec, FloatAxioms.eqb_spec. unfold SFltb, SFeqb.
  rewrite (SFcompare_antisym (Prim2SF (F64.of_Z 0)) (Prim2SF x)).
  destruct (SFcompare (Prim2SF (F64.of_Z 0)) (Prim2SF x)) as [[]|]; simpl; congruence.
Qed.

(** A positive double is a positive finite number or [+infinity]. *)
Lemma F64_pos_shape (x : float) :
  PrimFloat.ltb (F64.of_Z 0) x = true ->
  Prim2SF x = S754_infinity false \/ exists m e, Prim2SF x = S754_finite false m e.
Proof.
  rewrite FloatAxioms.ltb_spec. unfold SFltb.
  change (Prim2SF (F64.of_Z 0)) with (S754_zero false).
  destruct (Prim2SF x) as [s|[]| |[] m e]; simpl; try discriminate; eauto.
Qed.

Lemma F64_neg_shape (x : float) :
  PrimFloat.ltb x (F64.of_Z 0) = true ->
  Prim2SF x = S754_infinity true \/ exists m e, Prim2SF x = S754_finite true m e.
Proof.
  rewrite FloatAxioms.ltb_spec. unfold SFltb.
  change (Prim2SF (F64.of_Z 0)) with (S754_zero false).
  destruct (Prim2SF x) as [s|[]| |[] m e]; simpl; try discriminate; eauto.
Qed.

Lemma F64_zero_shape (x : float) :
  PrimFloat.eqb x (F64.of_Z 0) = true -> exists s, Prim2SF x = S754_zero s.
Proof.
  rewrite FloatAxioms.eqb_spec. unfold SFeqb.
  change (Prim2SF (F64.of_Z 0)) with (S754_zero false).
  destruct (Prim2SF x) as [s|[]| |[] m e]; simpl; try discriminate; eauto.
Qed.

(** The quotient by [+0], times 100. *)
Lemma F64_ratio_of_zero_target (val : float) (r : spec_float) :
  SFdiv prec emax (Prim2SF val) (S754_zero false) = r ->
  SFmul prec emax r (Prim2SF (F64.of_Z 100)) = r ->
  Prim2SF (PrimFloat.mul (PrimFloat.div val (F64.of_Z 0)) (F64.of_Z 100)) = r.
Proof.
  intros Hd Hm. rewrite FloatAxioms.mul_spec, FloatAxioms.div_spec.
  change (Prim2SF (F64.of_Z 0)) with (S754_zero false).
  unfold SF64mul, SF64div. now rewrite Hd.
Qed.

End FloatEdges.

(** X8.  In binary64, giving an item of positive weight the weight NaN
    (what [parseFloat] reads from an emptied input) turns its calories,
    protein, carbs, fat and added-oil calories into NaN, and no later rescale,
    to whatever weight, brings a number back: an item whose macros are NaN
    keeps them under every rescale. *)
Theorem nan_weight_turns_the_macros_into_nan :
  forall (item : Ingredient.t float) (w2 : float),
    (Ingredient.weight item >? of_Z 0)%num = true ->
    PrimFloat.is_nan w2 = true ->
    let nans := [PrimFloat.nan; PrimFloat.nan; PrimFloat.nan; PrimFloat.nan; PrimFloat.nan] in
    macros (rescale item w2) = nans
    /\ Ingredient.weight (rescale item w2) = PrimFloat.nan
    /\ (forall (item' : Ingredient.t float) (w : float),
          macros item' = nans -> macros (rescale item' w) = nans)
    /\ (forall w3 w4 : float, macros (rescale (rescale (rescale item w2) w3) w4) = nans).
Proof.
  intros item w2 Hpos Hnan nans.
  apply F64_is_nan_eq in Hnan. subst w2.
  assert (Hkeep : forall (item' : Ingredient.t float) (w : float),
             macros item' = nans -> macros (rescale item' w) = nans).
  { intros item' w. unfold macros, nans. intros [= Hc Hp Hb Hf Ho].
    unfold rescale. destruct (Ingredient.weight item' =? of_Z 0)%num; simpl.
    - now rewrite Hc, Hp, Hb, Hf, Ho.
    - rewrite Hc, Hp, Hb, Hf, Ho.
      change (@mul float float_Number) with PrimFloat.mul.
      now rewrite !F64_mul_nan_l. }
  assert (Hfirst : macros (rescale item PrimFloat.nan) = nans).
  { assert (Hnz : (Ingredient.weight item =? of_Z 0)%num = false)
      by exact (F64_pos_not_zero _ Hpos).
    unfold rescale. rewrite Hpos, Hnz.
    unfold macros; simpl.
    change (@div float float_Number) with PrimFloat.div.
    change (@mul float float_Number) with PrimFloat.mul.
    now rewrite F64_div_nan_l, !F64_mul_nan_r. }
  split; [exact Hfirst|]. split.
  - unfold rescale.
    now destruct (Ingredient.weight item =? of_Z 0)%num.
  - split; [exact Hkeep|]. intros w3 w4. now apply Hkeep, Hkeep.
Qed.

(** X18.  In binary64, against a target of [+0] (as the gram targets are
    when the calorie goal is 0) the display ratio is 100 for every positive
    actual value, 0 for every negative one, and NaN when the actual value is
    zero too. *)
Theorem getPercent_of_a_zero_target :
  forall val : float,
    ((val >? of_Z 0)%num = true -> getPercent val (of_Z 0) = of_Z 100)
    /\ ((val <? of_Z 0)%num = true -> getPercent val (of_Z 0) = of_Z 0)
    /\ ((val =? of_Z 0)%num = true -> getPercent val (of_Z 0) = PrimFloat.nan).
Proof.
  intros val. unfold getPercent.
  change (@Math_min float float_Number) with F64.min.
  change (@Math_max float float_Number) with F64.max.
  change (@mul float float_Number) with PrimFloat.mul.
  change (@div float float_Number) with PrimFloat.div.
  change (@of_Z float float_Number) with F64.of_Z.
  repeat split.
  - intros Hpos.
    assert (E : PrimFloat.mul (PrimFloat.div val (F64.of_Z 0)) (F64.of_Z 100)
                = PrimFloat.infinity).
    { apply Prim2SF_inj. change (Prim2SF PrimFloat.infinity) with (S754_infinity false).
      destruct (F64_pos_shape val Hpos) as [E|(m & e & E)];
        apply F64_ratio_of_zero_target; rewrite ?E; reflexivity. }
    rewrite E. vm_compute. reflexivity.
  - intros Hneg.
    assert (E : PrimFloat.mul (PrimFloat.div val (F64.of_Z 0)) (F64.of_Z 100)
                = PrimFloat.neg_infinity).
    { apply Prim2SF_inj. change (Prim2SF PrimFloat.neg_infinity) with (S754_infinity true).
      destruct (F64_neg_shape val Hneg) as [E|(m & e & E)];
        apply F64_ratio_of_zero_target; rewrite ?E; reflexivity. }
    rewrite E. vm_compute. reflexivity.
  - intros Hzero.
    assert (E : PrimFloat.mul (PrimFloat.div val (F64.of_Z 0)) (F64.of_Z 100)
                = PrimFloat.nan).
    { apply Prim2SF_inj. change (Prim2SF PrimFloat.nan) with S754_nan.
      destruct (F64_zero_shape val Hzero) as [s E].
      apply F64_ratio_of_zero_target; rewrite ?E; reflexivity. }
    rewrite E. vm_compute. reflexivity.
Qed.

(** ** Exact arithmetic: rescaling in steps, nested sums, the budget *)

Section ExactLaws.

Lemma X_mul_chain (x : xnum) (w1 w2 w3 : Qc) :
  (0 < w1)%Qc -> (0 < w2)%Qc -> (0 < w3)%Qc ->
  X.mul (X.mul x (Fin (w2 / w1))) (Fin (w3 / w2)) = X.mul x (Fin (w3 / w1)).
Proof.
  intros H1 H2 H3.
  rewrite (X_mul_pos x (w2 / w1)), (X_mul_pos x (w3 / w1)) by now apply Qcdiv_pos.
  destruct x as [q| | |]; (rewrite X_mul_pos by now apply Qcdiv_pos); try reflexivity.
  f_equal. field.
  split; intros ->; [now apply (Qclt_not_eq _ _ H1)|now apply (Qclt_not_eq _ _ H2)].
Qed.

Lemma X_add_0_r (a : xnum) : X.add a (of_Z 0) = a.
Proof. destruct a; simpl; try reflexivity. now rewrite Qcplus_0_r. Qed.

Lemma X_add_0_l (a : xnum) : X.add (of_Z 0) a = a.
Proof. rewrite X_add_comm. apply X_add_0_r. Qed.

End ExactLaws.

(** *** Binary64: rescaling in steps and per gram *)

Section ComparingDoubles.
Local Open Scope Q_scope.

(** Two values that are one value, each times a factor near one. *)
Lemma close_products (v p q t pl ph ql qh : Q) :
  pl <= p <= ph -> 0 < ql -> ql <= q <= qh ->
  0 <= t <= 1 -> ph <= (1 + t) * ql -> (1 - t) * qh <= pl ->
  Qabs (v * p - v * q) <= t * Qabs (v * q).
Proof.
  intros Hp Hql Hq Ht Hhi Hlo.
  assert (E : v * p - v * q == v * (p - q)) by ring.
  rewrite E, !Qabs_Qmult, (Qabs_pos q) by lra.
  assert (E2 : t * (Qabs v * q) == t * q * Qabs v) by ring.
  rewrite E2.
  rewrite (Qmult_comm (Qabs v)).
  apply Qmult_le_compat_r; [|apply Qabs_nonneg].
  apply Qabs_Qle_condition. split; nra.
Qed.

(** Three, four and two roundings in a row. *)
Lemma three_roundings (d1 d2 d3 : Q) :
  - unit_roundoff <= d1 <= unit_roundoff -> - unit_roundoff <= d2 <= unit_roundoff ->
  - unit_roundoff <= d3 <= unit_roundoff ->
  (1 - unit_roundoff) * (1 - unit_roundoff) * (1 - unit_roundoff)
  <= (1 + d1) * (1 + d2) * (1 + d3)
  <= (1 + unit_roundoff) * (1 + unit_roundoff) * (1 + unit_roundoff).
Proof.
  intros H1 H2 H3.
  assert (Hu : 0 < 1 - unit_roundoff) by reflexivity.
  assert (Hu2 : 0 < (1 - unit_roundoff) * (1 - unit_roundoff)) by reflexivity.
  pose proof (mul_interval (1 + d1) (1 + d2) _ (1 + unit_roundoff) _ (1 + unit_roundoff)
                Hu ltac:(lra) Hu ltac:(lra)) as H12.
  exact (mul_interval _ (1 + d3) _ _ _ (1 + unit_roundoff) Hu2 H12 Hu ltac:(lra)).
Qed.

Lemma four_roundings_interval (d1 d2 d3 d4 : Q) :
  - unit_roundoff <= d1 <= unit_roundoff -> - unit_roundoff <= d2 <= unit_roundoff ->
  - unit_roundoff <= d3 <= unit_roundoff -> - unit_roundoff <= d4 <= unit_roundoff ->
  (1 - unit_roundoff) * (1 - unit_roundoff) * (1 - unit_roundoff) * (1 - unit_roundoff)
  <= (1 + d1) * (1 + d2) * (1 + d3) * (1 + d4)
  <= (1 + unit_roundoff) * (1 + unit_roundoff) * (1 + unit_roundoff) * (1 + unit_roundoff).
Proof.
  intros H1 H2 H3 H4.
  assert (Hu : 0 < 1 - unit_roundoff) by reflexivity.
  assert (Hu3 : 0 < (1 - unit_roundoff) * (1 - unit_roundoff) * (1 - unit_roundoff))
    by reflexivity.
  exact (mul_interval _ (1 + d4) _ _ _ (1 + unit_roundoff) Hu3
           (three_roundings d1 d2 d3 H1 H2 H3) Hu ltac:(lra)).
Qed.

Lemma two_roundings_interval (d1 d2 : Q) :
  - unit_roundoff <= d1 <= unit_roundoff -> - unit_roundoff <= d2 <= unit_roundoff ->
  (1 - unit_roundoff) * (1 - unit_roundoff)
  <= (1 + d1) * (1 + d2)
  <= (1 + unit_roundoff) * (1 + unit_roundoff).
Proof.
  intros H1 H2.
  assert (Hu : 0 < 1 - unit_roundoff) by reflexivity.
  exact (mul_interval (1 + d1) (1 + d2) _ (1 + unit_roundoff) _ (1 + unit_roundoff)
           Hu ltac:(lra) Hu ltac:(lra)).
Qed.

(** A zero times or over a finite double is a zero. *)
Lemma zero_times (x y : float) (s sy : bool) (m : positive) (e : Z) :
  Prim2SF x = S754_zero s -> Prim2SF y = S754_finite sy m e ->
  Prim2SF (x * y)%float = S754_zero (xorb s sy).
Proof. intros Ex Ey. now rewrite FloatAxioms.mul_spec, Ex, Ey. Qed.

Lemma zero_over (x y : float) (s sy : bool) (m : positive) (e : Z) :
  Prim2SF x = S754_zero s -> Prim2SF y = S754_finite sy m e ->
  Prim2SF (x / y)%float = S754_zero (xorb s sy).
Proof. intros Ex Ey. now rewrite FloatAxioms.div_spec, Ex, Ey. Qed.

Lemma close_zeros (tol : Q) (a b : float) (sa sb : bool) :
  Prim2SF a = S754_zero sa -> Prim2SF b = S754_zero sb -> close_to tol a b.
Proof.
  intros Ea Eb. unfold close_to, is_zero, to_Q. rewrite Ea, Eb. simpl.
  split; [now left|]. apply Qle_bool_iff. unfold Qle_bool. simpl.
  apply Z.leb_le. lia.
Qed.

(** One macro value rescaled in two steps and at once. *)
Lemma two_steps_of_a_value (x w1 w2 w3 : float) :
  moderate w1 = true -> moderate w2 = true -> moderate w3 = true ->
  moderate x = true \/ is_zero x = true ->
  close_to (7 * unit_roundoff) (x * (w2 / w1) * (w3 / w2))%float (x * (w3 / w1))%float.
Proof.
  intros H1 H2 H3 Hx.
  destruct (moderate_spec w1 H1) as (s1 & m1 & e1 & E1 & D1 & R1).
  destruct (moderate_spec w2 H2) as (s2 & m2 & e2 & E2 & D2 & R2).
  destruct (moderate_spec w3 H3) as (s3 & m3 & e3 & E3 & D3 & R3).
  destruct (div_accurate w2 w1 s2 s1 m2 m1 e2 e1 E2 E1 D2 D1 ltac:(lia))
    as (ma & ea & da & Ea & Da & Ra & Hda & Va).
  destruct (div_accurate w3 w2 s3 s2 m3 m2 e3 e2 E3 E2 D3 D2 ltac:(lia))
    as (mb & eb & db & Eb & Db & Rb & Hdb & Vb).
  destruct (div_accurate w3 w1 s3 s1 m3 m1 e3 e1 E3 E1 D3 D1 ltac:(lia))
    as (mc & ec & dc & Ec & Dc & Rc & Hdc & Vc).
  destruct Hx as [Hx|Hx].
  - destruct (moderate_spec x Hx) as (sx & mx & ex & Ex & Dx & Rx).
    destruct (mul_accurate x (w2 / w1)%float sx _ mx ma ex ea Ex Ea Dx Da ltac:(lia))
      as (my & ey & dy & Ey & Dy & Ry & Hdy & Vy).
    destruct (mul_accurate (x * (w2 / w1))%float (w3 / w2)%float _ _ my mb ey eb
                Ey Eb Dy Db ltac:(lia))
      as (mz & ez & dz & Ez & Dz & Rz & Hdz & Vz).
    destruct (mul_accurate x (w3 / w1)%float sx _ mx mc ex ec Ex Ec Dx Dc ltac:(lia))
      as (mt & et & dt & Et & Dt & Rt & Hdt & Vt).
    split; [right; eauto|].
    pose proof (to_Q_finite_nonzero w1 _ _ _ E1) as N1.
    pose proof (to_Q_finite_nonzero w2 _ _ _ E2) as N2.
    set (v := to_Q x * to_Q w3 / to_Q w1).
    assert (V1 : to_Q (x * (w2 / w1) * (w3 / w2))%float
                 == v * ((1 + da) * (1 + dy) * (1 + db) * (1 + dz))).
    { unfold v. rewrite Vz, Vy, Va, Vb. field. split; assumption. }
    assert (V2 : to_Q (x * (w3 / w1))%float == v * ((1 + dc) * (1 + dt))).
    { unfold v. rewrite Vt, Vc. field. assumption. }
    rewrite V1, V2.
    apply (close_products v _ _ (7 * unit_roundoff) _ _
             ((1 - unit_roundoff) * (1 - unit_roundoff))
             ((1 + unit_roundoff) * (1 + unit_roundoff))
             (four_roundings_interval da dy db dz Hda Hdy Hdb Hdz)
             ltac:(reflexivity)
             (two_roundings_interval dc dt Hdc Hdt));
      [split|..]; apply Qle_bool_iff; vm_compute; reflexivity.
  - unfold is_zero in Hx. destruct (Prim2SF x) as [sx| | |] eqn:Ex; try discriminate.
    pose proof (zero_times x _ _ _ _ _ Ex Ea) as Ey.
    pose proof (zero_times _ _ _ _ _ _ Ey Eb) as Ez.
    pose proof (zero_times x _ _ _ _ _ Ex Ec) as Et.
    exact (close_zeros _ _ _ _ _ Ez Et).
Qed.

(** One macro value per gram, after rescaling and before. *)
Lemma per_gram_of_a_value (x w1 w2 : float) :
  moderate w1 = true -> moderate w2 = true ->
  moderate x = true \/ is_zero x = true ->
  close_to (5 * unit_roundoff) (x * (w2 / w1) / w2)%float (x / w1)%float.
Proof.
  intros H1 H2 Hx.
  destruct (moderate_spec w1 H1) as (s1 & m1 & e1 & E1 & D1 & R1).
  destruct (moderate_spec w2 H2) as (s2 & m2 & e2 & E2 & D2 & R2).
  destruct (div_accurate w2 w1 s2 s1 m2 m1 e2 e1 E2 E1 D2 D1 ltac:(lia))
    as (ma & ea & da & Ea & Da & Ra & Hda & Va).
  destruct Hx as [Hx|Hx].
  - destruct (moderate_spec x Hx) as (sx & mx & ex & Ex & Dx & Rx).
    destruct (mul_accurate x (w2 / w1)%float sx _ mx ma ex ea Ex Ea Dx Da ltac:(lia))
      as (my & ey & dy & Ey & Dy & Ry & Hdy & Vy).
    destruct (div_accurate (x * (w2 / w1))%float w2 _ s2 my m2 ey e2 Ey E2 Dy D2 ltac:(lia))
      as (mz & ez & dz & Ez & Dz & Rz & Hdz & Vz).
    destruct (div_accurate x w1 sx s1 mx m1 ex e1 Ex E1 Dx D1 ltac:(lia))
      as (mt & et & dt & Et & Dt & Rt & Hdt & Vt).
    split; [right; eauto|].
    pose proof (to_Q_finite_nonzero w1 _ _ _ E1) as N1.
    pose proof (to_Q_finite_nonzero w2 _ _ _ E2) as N2.
    set (v := to_Q x / to_Q w1).
    assert (V1 : to_Q (x * (w2 / w1) / w2)%float == v * ((1 + da) * (1 + dy) * (1 + dz))).
    { unfold v. rewrite Vz, Vy, Va. field. split; assumption. }
    assert (V2 : to_Q (x / w1)%float == v * (1 + dt)).
    { unfold v. rewrite Vt. reflexivity. }
    rewrite V1, V2.
    assert (Hq : 1 - unit_roundoff <= 1 + dt <= 1 + unit_roundoff) by lra.
    apply (close_products v _ _ (5 * unit_roundoff) _ _
             (1 - unit_roundoff) (1 + unit_roundoff)
             (three_roundings da dy dz Hda Hdy Hdz)
             ltac:(reflexivity) Hq);
      [split|..]; apply Qle_bool_iff; vm_compute; reflexivity.
  - unfold is_zero in Hx. destruct (Prim2SF x) as [sx| | |] eqn:Ex; try discriminate.
    pose proof (zero_times x _ _ _ _ _ Ex Ea) as Ey.
    pose proof (zero_over _ _ _ _ _ _ Ey E2) as Ez.
    pose proof (zero_over x _ _ _ _ _ Ex E1) as Et.
    exact (close_zeros _ _ _ _ _ Ez Et).
Qed.

End ComparingDoubles.

Section RescalingDoublesFurther.

Lemma two_steps_of_doubles (item : Ingredient.t float) (w2 w3 : float) :
  moderate (Ingredient.weight item) = true ->
  (Ingredient.weight item >? of_Z 0)%num = true ->
  moderate w2 = true ->
  (w2 >? of_Z 0)%num = true ->
  moderate w3 = true ->
  Forall (fun x => moderate x = true \/ is_zero x = true) (macros item) ->
  Forall2 (close_to (7 * unit_roundoff))
    (macros (rescale (rescale item w2) w3)) (macros (rescale item w3)).
Proof.
  intros H1 P1 H2 P2 H3 Hx.
  destruct (rescale_moderate item w2 H1 P1) as [E1 W1].
  destruct (rescale_moderate item w3 H1 P1) as [E3 _].
  destruct (rescale_moderate (rescale item w2) w3) as [E2 _];
    [now rewrite W1|now rewrite W1|].
  rewrite E2, E1, E3, W1, map_map. clear E1 E2 E3.
  induction Hx as [|x xs Hx _ IH]; simpl; constructor; [|exact IH].
  now apply two_steps_of_a_value.
Qed.

Lemma per_gram_of_doubles (item : Ingredient.t float) (w2 : float) :
  moderate (Ingredient.weight item) = true ->
  (Ingredient.weight item >? of_Z 0)%num = true ->
  moderate w2 = true ->
  Forall (fun x => moderate x = true \/ is_zero x = true) (macros item) ->
  Forall2 (close_to (5 * unit_roundoff))
    (map (fun x => (x / w2)%num) (macros (rescale item w2)))
    (map (fun x => (x / Ingredient.weight item)%num) (macros item)).
Proof.
  intros H1 P1 H2 Hx.
  destruct (rescale_moderate item w2 H1 P1) as [E1 _].
  rewrite E1, map_map. clear E1.
  induction Hx as [|x xs Hx _ IH]; simpl; constructor; [|exact IH].
  now apply per_gram_of_a_value.
Qed.

End RescalingDoublesFurther.

(** X20.  Rescaling composes.  In exact arithmetic, for positive finite
    weights, rescaling an item to [w2] and then to [w3] gives the item that
    rescaling it to [w3] at once gives.  In binary64, for normal weights of a
    magnitude from [2^-201] up to [2^200], the first two of them positive, the
    macro values that are zero or such doubles come out within the relative
    error [7 * 2^-53] of each other, and they can differ in the last digit: the
    default egg taken to 7 g and then to 30 g has 3.6000000000000001 g of
    protein, taken to 30 g at once it has 3.5999999999999996 g. *)
Theorem rescale_in_two_steps :
  (forall (item : Ingredient.t xnum) (w1 w2 w3 : Qc),
      Ingredient.weight item = Fin w1 ->
      (0 < w1)%Qc -> (0 < w2)%Qc -> (0 < w3)%Qc ->
      rescale (rescale item (Fin w2)) (Fin w3) = rescale item (Fin w3))
  /\ (forall (item : Ingredient.t float) (w2 w3 : float),
        (Ingredient.weight item >? of_Z 0)%num = true ->
        (w2 >? of_Z 0)%num = true ->
        moderate (Ingredient.weight item) = true ->
        moderate w2 = true ->
        moderate w3 = true ->
        Forall (fun x => moderate x = true \/ is_zero x = true) (macros item) ->
        Forall2 (close_to (7 * unit_roundoff))
          (macros (rescale (rescale item w2) w3)) (macros (rescale item w3)))
  /\ Ingredient.protein (rescale (rescale (num := float) fixed_egg (of_Z 7)) (of_Z 30))
     = lit 36 10
  /\ Ingredient.protein (rescale (num := float) fixed_egg (of_Z 30))
     = PrimFloat.next_down (lit 36 10)
  /\ (Ingredient.protein (rescale (rescale (num := float) fixed_egg (of_Z 7)) (of_Z 30))
      =? Ingredient.protein (rescale (num := float) fixed_egg (of_Z 30)))%num = false.
Proof.
  split; [|split; [|vm_compute; repeat split]].
  - intros item w1 w2 w3 Hw H1 H2 H3.
    assert (Hw2 : Ingredient.weight (rescale item (Fin w2)) = Fin w2)
      by now rewrite (X_rescale_pos item w1 w2 Hw H1).
    rewrite (X_rescale_pos (rescale item (Fin w2)) w2 w3 Hw2 H2).
    rewrite (X_rescale_pos item w1 w2 Hw H1), (X_rescale_pos item w1 w3 Hw H1).
    simpl. now rewrite !X_mul_chain by assumption.
  - intros item w2 w3 P1 P2 H1 H2 H3 Hx. now apply two_steps_of_doubles.
Qed.

Lemma rescale_in_two_steps_witness :
  rescale (rescale (num := xnum) fixed_egg (of_Z 7)) (of_Z 30)
  = rescale fixed_egg (of_Z 30)
  /\ Forall2 (close_to (7 * unit_roundoff))
       (macros (rescale (rescale (num := float) fixed_egg (of_Z 7)) (of_Z 30)))
       (macros (rescale fixed_egg (of_Z 30))).
Proof.
  split.
  - apply (proj1 rescale_in_two_steps fixed_egg (Q2Qc 50) (Q2Qc 7) (Q2Qc 30));
      reflexivity.
  - apply (proj1 (proj2 rescale_in_two_steps) fixed_egg (of_Z 7) (of_Z 30));
      try reflexivity.
    repeat (constructor; [vm_compute; tauto|]). constructor.
Defined.

Section NestedSums.
Context {num : Type} `{Number num}.
Hypothesis add_assoc : forall a b c : num, (a + (b + c))%num = ((a + b) + c)%num.
Hypothesis add_0_r : forall a : num, (a + of_Z 0)%num = a.
Hypothesis add_0_l : forall a : num, (of_Z 0 + a)%num = a.

Lemma fold_add_from (l : list num) (a : num) :
  fold_left add l a = (a + fold_left add l (of_Z 0))%num.
Proof using add_assoc add_0_r add_0_l.
  revert a. induction l as [|x l IH]; intros a; simpl.
  - now rewrite add_0_r.
  - rewrite (IH (a + x)%num), (IH (of_Z 0 + x)%num), add_0_l. now rewrite add_assoc.
Qed.

Lemma inner_sum_is_sum (f : Ingredient.t num -> num) (items : list (Ingredient.t num))
    (a : num) :
  fold_left (fun s i => (s + f i)%num) items a = fold_left add (map f items) a.
Proof. revert a. induction items as [|i items IH]; intros a; simpl; [reflexivity|apply IH]. Qed.

Lemma nested_fold_flat (f : Ingredient.t num -> num) (ms : list (Meal.t num)) (acc : num) :
  fold_left
    (fun acc m => (acc + fold_left (fun s i => (s + f i)%num) (Meal.items m) (of_Z 0))%num)
    ms acc
  = fold_left add (map f (concat (map Meal.items ms))) acc.
Proof using add_assoc add_0_r add_0_l.
  revert acc. induction ms as [|m ms IH]; intros acc; simpl; [reflexivity|].
  rewrite IH, map_app, fold_left_app, inner_sum_is_sum. f_equal.
  symmetry. apply fold_add_from.
Qed.

Lemma sum_by_flat (f : Ingredient.t num -> num) (log : DailyLog.t num) :
  sum_by f log = sum (map f (all_items log)).
Proof using add_assoc add_0_r add_0_l. apply nested_fold_flat. Qed.

End NestedSums.

Lemma X_total_by_sums (log : DailyLog.t xnum) :
  total log = {|
    Totals.calories := sum_by Ingredient.calories log;
    Totals.protein := sum_by Ingredient.protein log;
    Totals.carbs := sum_by Ingredient.carbs log;
    Totals.fat := sum_by Ingredient.fat log;
    Totals.oil := sum_by Ingredient.addedOilCalories log
  |}.
Proof.
  rewrite total_fields.
  pose proof (@sum_by_flat xnum xnum_Number X_add_assoc X_add_0_r X_add_0_l) as E.
  now rewrite !E.
Qed.

(** X10.  The calories, protein, carbs, fat and added oil that the
    recommendation and the reports compute, each as the sum over the meals of
    the meal's own sum, are the Macro Aggregator's totals whenever addition is
    associative with zero as its identity, as it is in exact arithmetic.  In
    binary64 the two ways of adding can differ: for a log whose first meal
    holds 0.1 kcal and whose second holds 0.2 and 0.3 kcal the aggregator's
    calories are 0.6000000000000001 and the reports' are 0.6. *)
Theorem report_sums_agree_with_the_totals :
  (forall (num : Type) (N : Number num),
      (forall a b c : num, (a + (b + c))%num = ((a + b) + c)%num) ->
      (forall a : num, (a + of_Z 0)%num = a) ->
      (forall a : num, (of_Z 0 + a)%num = a) ->
      forall log : DailyLog.t num,
        total log = {|
          Totals.calories := sum_by Ingredient.calories log;
          Totals.protein := sum_by Ingredient.protein log;
          Totals.carbs := sum_by Ingredient.carbs log;
          Totals.fat := sum_by Ingredient.fat log;
          Totals.oil := sum_by Ingredient.addedOilCalories log
        |})
  /\ (forall log : DailyLog.t xnum,
        total log = {|
          Totals.calories := sum_by Ingredient.calories log;
          Totals.protein := sum_by Ingredient.protein log;
          Totals.carbs := sum_by Ingredient.carbs log;
          Totals.fat := sum_by Ingredient.fat log;
          Totals.oil := sum_by Ingredient.addedOilCalories log
        |})
  /\ Totals.calories (total two_meal_snacks) = PrimFloat.next_up (lit 6 10)
  /\ sum_by Ingredient.calories two_meal_snacks = lit 6 10.
Proof.
  assert (G : forall (num : Type) (N : Number num),
      (forall a b c : num, (a + (b + c))%num = ((a + b) + c)%num) ->
      (forall a : num, (a + of_Z 0)%num = a) ->
      (forall a : num, (of_Z 0 + a)%num = a) ->
      forall log : DailyLog.t num,
        total log = {|
          Totals.calories := sum_by Ingredient.calories log;
          Totals.protein := sum_by Ingredient.protein log;
          Totals.carbs := sum_by Ingredient.carbs log;
          Totals.fat := sum_by Ingredient.fat log;
          Totals.oil := sum_by Ingredient.addedOilCalories log
        |}).
  { intros num N Ha Hr Hl log. rewrite total_fields.
    now rewrite !(sum_by_flat Ha Hr Hl). }
  split; [exact G|]. split.
  - exact X_total_by_sums.
  - split; vm_compute; reflexivity.
Qed.

Lemma report_sums_agree_with_the_totals_witness :
  Totals.calories (total (num := xnum) (one_meal_log [fixed_egg; fixed_milk]))
  = sum_by Ingredient.calories (one_meal_log [fixed_egg; fixed_milk]).
Proof.
  exact (f_equal Totals.calories
           (proj1 (proj2 report_sums_agree_with_the_totals)
              (one_meal_log [fixed_egg; fixed_milk]))).
Defined.

(** *** Binary64: the sign of a difference *)

Section SignOfADifference.
Open Scope Z_scope.

(** [x < 0] on doubles. *)
Lemma SFltb_zero (x : spec_float) : SFltb x (S754_zero false) = SFnegative x.
Proof. destruct x as [s|s| |s m e]; try reflexivity; now destruct s. Qed.

(** What validity says of a finite double. *)
Lemma valid_finite (s : bool) (m : positive) (e : Z) :
  valid_binary (S754_finite s m e) = true ->
  Z.pos (digits2_pos m) <= 53 /\ -1074 <= e /\ (-1074 < e -> Z.pos (digits2_pos m) = 53).
Proof.
  unfold valid_binary, bounded, canonical_mantissa, fexp, emin.
  intros V. apply andb_true_iff in V as [V _]. apply Z.eqb_eq in V.
  change (Z.pos 3 - emax - prec) with (-1074) in V. change prec with 53 in V. lia.
Qed.

(** Aligning a mantissa to a smaller exponent multiplies it by a power of
    two. *)
Lemma iter_xO (d : positive) (m : positive) :
  Z.pos (Pos.iter xO m d) = Z.pos m * 2 ^ Z.pos d.
Proof.
  induction d as [|d IH] using Pos.peano_ind.
  - simpl. lia.
  - rewrite Pos.iter_succ, Pos2Z.inj_xO, IH, Pos2Z.inj_succ, Z.pow_succ_r by lia. ring.
Qed.

Lemma shl_align_fst (m : positive) (e e' : Z) :
  e' <= e -> Z.pos (fst (shl_align m e e')) = Z.pos m * 2 ^ (e - e').
Proof.
  intros H. unfold shl_align. destruct (e' - e) as [|d|d] eqn:E; try lia.
  - replace (e - e') with 0 by lia. simpl. lia.
  - simpl fst. rewrite iter_xO. f_equal. f_equal. lia.
Qed.

Lemma shl_align_snd (m : positive) (e e' : Z) :
  snd (shl_align m e e') = Z.min e e'.
Proof. unfold shl_align. destruct (e' - e) as [|d|d] eqn:E; simpl; lia. Qed.

(** Shifting a positive mantissa to its format leaves it positive. *)
Lemma shr_fexp_positive (m : positive) (e : Z) :
  -1074 <= e ->
  0 < shr_m (fst (shr_fexp 53 1024 (Z.pos m) e loc_Exact))
  /\ -1074 <= snd (shr_fexp 53 1024 (Z.pos m) e loc_Exact)
  /\ locates (Z.pos m) (2 ^ (snd (shr_fexp 53 1024 (Z.pos m) e loc_Exact) - e))
       (fst (shr_fexp 53 1024 (Z.pos m) e loc_Exact)).
Proof.
  intros He. unfold shr_fexp. simpl Zdigits2. set (d := Z.pos (digits2_pos m)).
  pose proof (digits2_pos_bounds m) as [Hlo Hhi]. fold d in Hlo, Hhi.
  set (n := fexp 53 1024 (d + e) - e).
  assert (Hloc0 : locates (Z.pos m) 1 (shr_record_of_loc (Z.pos m) loc_Exact))
    by (unfold locates; simpl; lia).
  destruct (Z.le_gt_cases n 0) as [Hn|Hn].
  - assert (E : shr (shr_record_of_loc (Z.pos m) loc_Exact) e n
                = (shr_record_of_loc (Z.pos m) loc_Exact, e)).
    { destruct n; try lia; reflexivity. }
    rewrite E. simpl. replace (e - e) with 0 by lia. split; [lia|]. split; [lia|exact Hloc0].
  - assert (En : n = d - 53) by (unfold n, fexp, emin in *; lia).
    destruct (shr_locates (Z.pos m) 1 (shr_record_of_loc (Z.pos m) loc_Exact) e n
                ltac:(lia) ltac:(lia) Hloc0) as [Hrec Hsnd].
    rewrite Hsnd. replace (e + n - e) with n by lia.
    rewrite Z.mul_1_l in Hrec. split; [|split; [lia|exact Hrec]].
    destruct Hrec as (H0 & Hb & _).
    assert (Ed : 2 ^ (d - 1) = 2 ^ 52 * 2 ^ n).
    { rewrite <- Z.pow_add_r by lia. f_equal. lia. }
    assert (0 < 2 ^ n) by (apply Z.pow_pos_nonneg; lia).
    change (2 ^ 52) with 4503599627370496 in Ed. nia.
Qed.

(** Rounding a nonzero integer gives a double of its sign, not a zero. *)
Lemma binary_round_negative (m : positive) (e : Z) :
  -1074 <= e -> SFnegative (binary_round 53 1024 true m e) = true.
Proof.
  intros He. unfold binary_round.
  destruct (shl_align m e (fexp 53 1024 (Z.pos (digits2_pos m) + e))) as [mz ez] eqn:Ealign.
  assert (Hez : -1074 <= ez).
  { pose proof (shl_align_snd m e (fexp 53 1024 (Z.pos (digits2_pos m) + e))) as H.
    rewrite Ealign in H. simpl in H. unfold fexp, emin in H. lia. }
  unfold binary_round_aux.
  destruct (shr_fexp_positive mz ez Hez) as (Hpos & Hsnd & Hloc).
  destruct (shr_fexp 53 1024 (Z.pos mz) ez loc_Exact) as [rec e1]. simpl in Hpos, Hsnd, Hloc.
  assert (HT : 0 < 2 ^ (e1 - ez)).
  { destruct (Z.le_gt_cases 0 (e1 - ez)); [apply Z.pow_pos_nonneg; lia|].
    destruct Hloc as (_ & Hb & _). rewrite Z.pow_neg_r in Hb by lia. lia. }
  destruct (round_nearest_even_locates _ _ rec HT Hloc) as [Hm1 _].
  destruct (round_nearest_even (shr_m rec) (loc_of_shr_record rec)) as [|m1|m1]; try lia.
  destruct (shr_fexp_positive m1 e1 Hsnd) as (Hpos2 & _ & _).
  destruct (shr_fexp 53 1024 (Z.pos m1) e1 loc_Exact) as [rec2 e2]. simpl in Hpos2.
  destruct (shr_m rec2) as [|m2|m2]; try lia.
  now destruct (e2 <=? 1024 - 53).
Qed.

Lemma binary_round_not_negative (m : positive) (e : Z) :
  SFnegative (binary_round 53 1024 false m e) = false.
Proof.
  unfold binary_round.
  destruct (shl_align m e (fexp 53 1024 (Z.pos (digits2_pos m) + e))) as [mz ez].
  unfold binary_round_aux.
  destruct (shr_fexp 53 1024 (Z.pos mz) ez loc_Exact) as [rec e1].
  destruct (shr_fexp 53 1024 _ e1 loc_Exact) as [rec2 e2].
  destruct (shr_m rec2); try reflexivity.
  now destruct (e2 <=? 1024 - 53).
Qed.

Lemma binary_normalize_negative (M e : Z) :
  -1074 <= e -> SFnegative (binary_normalize 53 1024 M e false) = (M <? 0).
Proof.
  intros He. destruct M as [|m|m]; simpl.
  - reflexivity.
  - apply binary_round_not_negative.
  - now apply binary_round_negative.
Qed.

(** The order of two finite doubles is the order of their mantissas, taken
    to the smaller exponent. *)
Lemma SFltb_finite (sx sy : bool) (mx my : positive) (ex ey : Z) :
  valid_binary (S754_finite sx mx ex) = true ->
  valid_binary (S754_finite sy my ey) = true ->
  SFltb (S754_finite sx mx ex) (S754_finite sy my ey)
  = (cond_Zopp sx (Z.pos mx * 2 ^ (ex - Z.min ex ey))
     <? cond_Zopp sy (Z.pos my * 2 ^ (ey - Z.min ex ey))).
Proof.
  intros Vx Vy.
  destruct (valid_finite _ _ _ Vx) as (Dx & Ex & Nx).
  destruct (valid_finite _ _ _ Vy) as (Dy & Ey & Ny).
  pose proof (digits2_pos_bounds mx) as [Hxlo Hxhi].
  pose proof (digits2_pos_bounds my) as [Hylo Hyhi].
  assert (Hx53 : Z.pos mx < 2 ^ 53).
  { eapply Z.lt_le_trans; [exact Hxhi|]. apply Z.pow_le_mono_r; lia. }
  assert (Hy53 : Z.pos my < 2 ^ 53).
  { eapply Z.lt_le_trans; [exact Hyhi|]. apply Z.pow_le_mono_r; lia. }
  assert (Hcmp : (Z.pos mx * 2 ^ (ex - Z.min ex ey) ?= Z.pos my * 2 ^ (ey - Z.min ex ey))
                 = match ex ?= ey with
                   | Eq => Pos.compare_cont Eq mx my
                   | c => c
                   end).
  { destruct (Z.compare_spec ex ey) as [E|L|G].
    - subst ey. rewrite Z.min_id, Z.sub_diag. simpl. rewrite !Pos.mul_1_r.
      reflexivity.
    - rewrite Z.min_l by lia. rewrite Z.sub_diag, Z.mul_1_r.
      apply Z.compare_lt_iff.
      rewrite (Ny ltac:(lia)) in Hylo. change (2 ^ (53 - 1)) with (2 ^ 52) in Hylo.
      assert (2 ^ 1 <= 2 ^ (ey - ex)) by (apply Z.pow_le_mono_r; lia).
      change (2 ^ 53) with (2 ^ 52 * 2 ^ 1) in Hx53. nia.
    - rewrite Z.min_r by lia. rewrite Z.sub_diag, Z.mul_1_r.
      apply Z.compare_gt_iff.
      rewrite (Nx ltac:(lia)) in Hxlo. change (2 ^ (53 - 1)) with (2 ^ 52) in Hxlo.
      assert (2 ^ 1 <= 2 ^ (ex - ey)) by (apply Z.pow_le_mono_r; lia).
      change (2 ^ 53) with (2 ^ 52 * 2 ^ 1) in Hy53. nia. }
  assert (Hpx : 0 < Z.pos mx * 2 ^ (ex - Z.min ex ey)).
  { assert (0 < 2 ^ (ex - Z.min ex ey)) by (apply Z.pow_pos_nonneg; lia). nia. }
  assert (Hpy : 0 < Z.pos my * 2 ^ (ey - Z.min ex ey)).
  { assert (0 < 2 ^ (ey - Z.min ex ey)) by (apply Z.pow_pos_nonneg; lia). nia. }
  set (X := Z.pos mx * 2 ^ (ex - Z.min ex ey)) in *.
  set (Y := Z.pos my * 2 ^ (ey - Z.min ex ey)) in *.
  pose proof (Z.compare_spec X Y) as Hspec. rewrite Hcmp in Hspec.
  unfold SFltb, SFcompare.
  destruct sx, sy; simpl cond_Zopp.
  - destruct (ex ?= ey) eqn:Ec; [destruct (Pos.compare_cont Eq mx my) eqn:Ecc| |];
      simpl; symmetry; (apply Z.ltb_lt || apply Z.ltb_ge); inversion Hspec; lia.
  - symmetry. apply Z.ltb_lt. lia.
  - symmetry. apply Z.ltb_ge. lia.
  - destruct (ex ?= ey) eqn:Ec; [destruct (Pos.compare_cont Eq mx my) eqn:Ecc| |];
      simpl; symmetry; (apply Z.ltb_lt || apply Z.ltb_ge); inversion Hspec; lia.
Qed.

End SignOfADifference.

(** In binary64 a difference is below zero exactly when the first number is
    below the second: the exact difference is an integer multiple of the
    smallest exponent's unit, and rounding keeps it on its side of zero. *)
Lemma sub_negative (a b : float) :
  ((a - b) <? 0)%float = (a <? b)%float.
Proof.
  rewrite !FloatAxioms.ltb_spec, FloatAxioms.sub_spec.
  change (Prim2SF 0) with (S754_zero false). rewrite SFltb_zero.
  pose proof (Prim2SF_valid a) as Va. pose proof (Prim2SF_valid b) as Vb.
  destruct (Prim2SF a) as [sa|sa| |sa ma ea], (Prim2SF b) as [sb|sb| |sb mb eb];
    try reflexivity;
    try (destruct sa, sb; reflexivity);
    try (destruct sa; reflexivity);
    try (destruct sb; reflexivity).
  destruct (valid_finite _ _ _ Va) as (_ & Ea & _).
  destruct (valid_finite _ _ _ Vb) as (_ & Eb & _).
  rewrite (SFltb_finite sa sb ma mb ea eb Va Vb).
  unfold SF64sub, SFsub. change prec with 53%Z. change emax with 1024%Z.
  rewrite binary_normalize_negative by lia.
  rewrite !shl_align_fst by lia.
  destruct (Z.ltb_spec
              (cond_Zopp sa (Z.pos ma * 2 ^ (ea - Z.min ea eb))
               - cond_Zopp sb (Z.pos mb * 2 ^ (eb - Z.min ea eb))) 0),
           (Z.ltb_spec (cond_Zopp sa (Z.pos ma * 2 ^ (ea - Z.min ea eb)))
              (cond_Zopp sb (Z.pos mb * 2 ^ (eb - Z.min ea eb))));
    (reflexivity || lia).
Qed.

(** X19.  The budget the recommendation is given is the goal minus the
    consumption, the consumption added up meal by meal.  In binary64, for all
    doubles, it is negative exactly when the goal is below that consumption.
    In exact arithmetic that consumption is the Macro Aggregator's, so for a
    finite goal and a finite consumption the budget is negative exactly when
    the Goal Evaluator's over-budget flag is set.  In binary64 the flag and
    the sign of the budget can disagree, the evaluator adding item by item:
    with a goal of 0.6 kcal, 0.1 kcal in one meal and 0.2 and 0.3 kcal in the
    next, the flag is set (0.6000000000000001 is consumed) and the budget
    is 0. *)
Theorem remaining_budget_is_negative_when_over_budget :
  (forall (log : DailyLog.t float) (goals : MacroGoals.t float),
      (remainingCals log goals <? of_Z 0)%num
      = (sum_by Ingredient.calories log >? MacroGoals.calories goals)%num)
  /\ (forall (log : DailyLog.t xnum) (goals : MacroGoals.t xnum) (consumed goal : Qc),
        sum_by Ingredient.calories log = Fin consumed ->
        MacroGoals.calories goals = Fin goal ->
        remainingCals log goals = Fin (goal - consumed)
        /\ (remainingCals log goals <? of_Z 0)%num = overBudget (total log) goals)
  /\ overBudget (total two_meal_snacks) tight_goals = true
  /\ sum_by Ingredient.calories two_meal_snacks = lit 6 10
  /\ remainingCals two_meal_snacks tight_goals = of_Z 0
  /\ (remainingCals two_meal_snacks tight_goals <? of_Z 0)%num = false.
Proof.
  split; [|split; [|vm_compute; repeat split]].
  - intros log goals. exact (sub_negative _ _).
  - intros log goals consumed goal Hc Hg.
    assert (E : remainingCals log goals = Fin (goal - consumed)).
    { unfold remainingCals. rewrite Hc, Hg. reflexivity. }
    split; [exact E|]. rewrite E. unfold overBudget.
    rewrite (X_total_by_sums log). simpl.
    rewrite Hc, Hg. simpl. apply bool_decide_ext.
    rewrite (Qclt_minus_iff goal consumed), (Qclt_minus_iff (goal - consumed) (Q2Qc 0)).
    replace (Q2Qc 0 + - (goal - consumed))%Qc with (consumed + - goal)%Qc by ring.
    reflexivity.
Qed.

Lemma remaining_budget_witness :
  (remainingCals (num := xnum) (one_meal_log [fixed_egg; fixed_milk]) DEFAULT_GOALS
   <? of_Z 0)%num
  = overBudget (total (one_meal_log [fixed_egg; fixed_milk])) DEFAULT_GOALS.
Proof.
  apply (proj1 (proj2 remaining_budget_is_negative_when_over_budget)
           (one_meal_log [fixed_egg; fixed_milk]) DEFAULT_GOALS (Q2Qc 220) (Q2Qc 1350));
    reflexivity.
Defined.

(** ** What adding food does to the totals *)

Section AddingTotals.
Context {num : Type} `{Number num}.

Lemma all_items_after_append (mealId : string) (items : list (Ingredient.t num))
    (analysis : string) (ms : list (Meal.t num)) :
  Permutation
    (concat (map Meal.items
               (map (fun m => if String.eqb (Meal.id m) mealId
                              then append_extraction m items analysis else m) ms)))
    (concat (map Meal.items ms)
     ++ concat (map (fun m => if String.eqb (Meal.id m) mealId then items else []) ms)).
Proof.
  induction ms as [|m ms IH]; simpl; [constructor|].
  rewrite IH. destruct (String.eqb (Meal.id m) mealId); simpl.
  - rewrite <- !app_assoc. apply Permutation_app_head.
    rewrite !app_assoc. apply Permutation_app_tail, Permutation_app_comm.
  - now rewrite <- !app_assoc.
Qed.

(** When one meal has the id, the items appended, meal by meal, are [items]. *)
Lemma appended_once (mealId : string) (items : list (Ingredient.t num))
    (ms : list (Meal.t num)) :
  length (List.filter (fun m => String.eqb (Meal.id m) mealId) ms) = 1%nat ->
  concat (map (fun m => if String.eqb (Meal.id m) mealId then items else []) ms) = items.
Proof.
  induction ms as [|m ms IH]; simpl; [discriminate|].
  destruct (String.eqb (Meal.id m) mealId); simpl.
  - intros [= E]. clear IH.
    assert (Z : concat (map (fun m => if String.eqb (Meal.id m) mealId then items else [])
                            ms) = []).
    { induction ms as [|m' ms IH]; simpl in *; [reflexivity|].
      destruct (String.eqb (Meal.id m') mealId); simpl in *; [discriminate|now apply IH]. }
    now rewrite Z, app_nil_r.
  - exact IH.
Qed.

End AddingTotals.

Section AddingToTheLastMeal.
Context {num : Type} `{Number num}.

(** When the last meal, and no other, has the id, the items are appended
    after all the others. *)
Lemma all_items_after_append_last (mealId : string) (items : list (Ingredient.t num))
    (analysis : string) (earlier : list (Meal.t num)) (last : Meal.t num) :
  Forall (fun m => Meal.id m <> mealId) earlier ->
  Meal.id last = mealId ->
  concat (map Meal.items
            (map (fun m => if String.eqb (Meal.id m) mealId
                           then append_extraction m items analysis else m)
                 (earlier ++ [last])))
  = (concat (map Meal.items (earlier ++ [last])) ++ items)%list.
Proof.
  intros Hearlier Hlast. induction Hearlier as [|m earlier Hm _ IH]; simpl.
  - apply String.eqb_eq in Hlast. rewrite Hlast. simpl. now rewrite !app_nil_r.
  - apply String.eqb_neq in Hm. rewrite Hm, IH. now rewrite app_assoc.
Qed.

End AddingToTheLastMeal.

(** X22.  A successful extraction raises the totals of the day by the
    extracted items and by nothing else: when one meal of the current log has
    the given id, the totals afterwards are the totals before with each
    extracted item added.  This holds whenever addition is associative and
    commutative, as it is in exact arithmetic, and in every arithmetic,
    binary64 included, when the meal is the last one of the log.  In binary64
    it can fail in the last digit for an earlier meal: two items of 0.1 kcal
    added to an empty lunch that a snack of 0.4 kcal follows give totals of
    0.6000000000000001 kcal, while 0.4 with 0.1 and 0.1 added is 0.6. *)
Theorem handleAddFood_adds_the_extraction_to_the_totals :
  (forall (num : Type) (N : Number num) (host : Host num) (services : Services num),
      (forall a b c : num, (a + (b + c))%num = ((a + b) + c)%num) ->
      (forall a b : num, (a + b)%num = (b + a)%num) ->
      forall (now now' : nat -> num) (st : AppState num) (mealTypeKey mealId : string)
             (items : list (Ingredient.t num)) (analysis : string),
        well_keyed (logs st) ->
        nothing_to_add (inputState st) = false ->
        parseFoodEntry (text (inputState st)) (image_argument (inputState st))
        = Return (items, analysis) ->
        length (List.filter (fun m => String.eqb (Meal.id m) mealId)
                            (DailyLog.meals (currentLog now st))) = 1%nat ->
        total (currentLog now' (handleAddFood now st mealTypeKey mealId))
        = fold_left add_item items (total (currentLog now st)))
  /\ (forall (host : Host xnum) (services : Services xnum)
             (now now' : nat -> xnum) (st : AppState xnum) (mealTypeKey mealId : string)
             (items : list (Ingredient.t xnum)) (analysis : string),
        well_keyed (logs st) ->
        nothing_to_add (inputState st) = false ->
        parseFoodEntry (text (inputState st)) (image_argument (inputState st))
        = Return (items, analysis) ->
        length (List.filter (fun m => String.eqb (Meal.id m) mealId)
                            (DailyLog.meals (currentLog now st))) = 1%nat ->
        total (currentLog now' (handleAddFood now st mealTypeKey mealId))
        = fold_left add_item items (total (currentLog now st)))
  /\ (forall (num : Type) (N : Number num) (host : Host num) (services : Services num)
             (now now' : nat -> num) (st : AppState num) (mealTypeKey mealId : string)
             (items : list (Ingredient.t num)) (analysis : string)
             (earlier : list (Meal.t num)) (last : Meal.t num),
        well_keyed (logs st) ->
        nothing_to_add (inputState st) = false ->
        parseFoodEntry (text (inputState st)) (image_argument (inputState st))
        = Return (items, analysis) ->
        DailyLog.meals (currentLog now st) = (earlier ++ [last])%list ->
        Forall (fun m => Meal.id m <> mealId) earlier ->
        Meal.id last = mealId ->
        total (currentLog now' (handleAddFood now st mealTypeKey mealId))
        = fold_left add_item items (total (currentLog now st)))
  /\ (let st := snack_state (lit 4 10) in
      let st' := @handleAddFood float _ (snack_host (lit 1 10)) no_clock st
                   "lunch" "lunch-2024-05-01" in
      @parseFoodEntry float _ (snack_host (lit 1 10)) "noodles" None
      = Return ([calories_only "a" (lit 1 10); calories_only "b" (lit 1 10)],
                default_cooking_analysis)
      /\ Totals.calories (total (currentLog no_clock st')) = PrimFloat.next_up (lit 6 10)
      /\ Totals.calories
           (fold_left add_item [calories_only "a" (lit 1 10); calories_only "b" (lit 1 10)]
              (total (currentLog no_clock st)))
         = lit 6 10).
Proof.
  assert (G : forall (num : Type) (N : Number num) (host : Host num) (services : Services num),
      (forall a b c : num, (a + (b + c))%num = ((a + b) + c)%num) ->
      (forall a b : num, (a + b)%num = (b + a)%num) ->
      forall (now now' : nat -> num) (st : AppState num) (mealTypeKey mealId : string)
             (items : list (Ingredient.t num)) (analysis : string),
        well_keyed (logs st) ->
        nothing_to_add (inputState st) = false ->
        parseFoodEntry (text (inputState st)) (image_argument (inputState st))
        = Return (items, analysis) ->
        length (List.filter (fun m => String.eqb (Meal.id m) mealId)
                            (DailyLog.meals (currentLog now st))) = 1%nat ->
        total (currentLog now' (handleAddFood now st mealTypeKey mealId))
        = fold_left add_item items (total (currentLog now st))).
  { intros num N host services Hassoc Hcomm now now' st mealTypeKey mealId items analysis
           WK Hin Hok Hone.
    rewrite (handleAddFood_current now now' st _ _ items analysis WK Hin Hok).
    rewrite !total_flat. unfold all_items; simpl.
    rewrite (fold_add_item_permutation Hassoc Hcomm _ _
               (all_items_after_append mealId items analysis _)).
    now rewrite fold_left_app, appended_once. }
  split; [exact G|]. split; [|split].
  - intros host services. apply (G xnum _ host services X_add_assoc X_add_comm).
  - intros num N host services now now' st mealTypeKey mealId items analysis earlier last
           WK Hin Hok Hmeals Hearlier Hlast.
    rewrite (handleAddFood_current now now' st _ _ items analysis WK Hin Hok).
    rewrite !total_flat. unfold all_items; simpl. rewrite Hmeals.
    rewrite (all_items_after_append_last mealId items analysis earlier last Hearlier Hlast).
    now rewrite fold_left_app.
  - vm_compute. repeat split.
Qed.

(** ** The API key, the items of an extraction, the image data *)

(** X11.  [getAIClient] takes the first variable that is set to a non-empty
    string, looking at [process.env.API_KEY], [process.env.REACT_APP_API_KEY],
    [import.meta.env.VITE_API_KEY] and [import.meta.env.API_KEY] in this order;
    it throws the missing-key error exactly when none is. *)
Theorem getAIClient_takes_the_first_key_set :
  forall (num : Type) (N : Number num) (host : Host num),
    getAIClient (num := num)
    = match first_key deployment with
      | Some key => Return key
      | None => Throw missing_api_key_message
      end
    /\ (forall key, getAIClient (num := num) = Return key -> truthy_string key = true)
    /\ (forall message, getAIClient (num := num) = Throw message ->
          message = missing_api_key_message
          /\ Forall (fun v => or_else v EmptyString = EmptyString)
                    (key_candidates deployment)).
Proof.
  intros num N host.
  assert (E : getAIClient (num := num)
              = match first_key deployment with
                | Some key => Return key
                | None => Throw missing_api_key_message
                end
              /\ (first_key deployment = None ->
                  Forall (fun v => or_else v EmptyString = EmptyString)
                         (key_candidates deployment))
              /\ (forall key, first_key deployment = Some key -> truthy_string key = true)).
  { unfold getAIClient, first_key, key_candidates.
    destruct deployment as [[[k1 k2]|] [[k3 k4]|]]; simpl;
      repeat match goal with
             | k : option string |- _ => destruct k as [[|? ?]|]; simpl
             end;
      (split; [reflexivity|split; [intros; repeat constructor; try discriminate
                                  |intros key [= <-]; reflexivity]]). }
  destruct E as (E & Hnone & Hsome). split; [exact E|]. rewrite E. split.
  - intros key. destruct (first_key deployment) as [k|] eqn:F; [|discriminate].
    intros [= <-]. now apply Hsome.
  - intros message. destruct (first_key deployment) as [k|] eqn:F; [discriminate|].
    intros [= <-]. split; [reflexivity|now apply Hnone].
Qed.

Section ExtractionItems.
Context {num : Type} `{Host num}.

Lemma cookingAnalysis_of_returns (result : json num) (v : option (json num)) :
  get_property result "items" = Return v ->
  exists analysis, cookingAnalysis_of result = Return analysis.
Proof.
  unfold cookingAnalysis_of. destruct result; simpl; try discriminate; intros _;
    try (eexists; reflexivity).
  destruct (List.find _ fields) as [[k v']|]; simpl; eexists; reflexivity.
Qed.

End ExtractionItems.

(** X12.  Once the response text has been parsed: a [null] value, and an
    [items] field that is neither absent, [null] nor an array, make the
    extraction throw; an array gives one ingredient per element, in the order
    of the array, the [i]-th carrying the [i]-th id drawn. *)
Theorem parseFoodEntry_reads_items_from_an_array_only :
  forall (num : Type) (N : Number num) (host : Host num)
         (description : string) (imageBase64 : option string)
         (key : string) (text : option string) (result : json num),
    getAIClient (num := num) = Return key ->
    generateContent (num := num) key (request_parts description imageBase64) = Return text ->
    JSON_parse (num := num) (or_else text "{}") = Return result ->
    let outcome := parseFoodEntry description imageBase64 in
    (result = JNull -> exists message, outcome = Throw message)
    /\ (forall v, get_property result "items" = Return (Some v) ->
          match v with JArray _ | JNull => False | _ => True end ->
          outcome = Throw "result.items?.map is not a function")
    /\ (forall elements, get_property result "items" = Return (Some (JArray elements)) ->
          exists items analysis,
            outcome = Return (items, analysis)
            /\ length items = length elements
            /\ (forall i e, elements !! i = Some e ->
                            items !! i = Some (asIngredient (random_id i) e))).
Proof.
  intros num N host description imageBase64 key text result Ek Eg Ep outcome.
  unfold outcome. rewrite (parseFoodEntry_on_response _ _ key text Ek Eg), Ep.
  cbn [mbind Exc_bind]. split; [|split].
  - intros ->. eexists. reflexivity.
  - intros v Hv Hshape. unfold itemsWithIds. rewrite Hv. cbn [mbind Exc_bind].
    destruct v; try contradiction; reflexivity.
  - intros elements Hv.
    destruct (cookingAnalysis_of_returns result _ Hv) as [analysis Ha].
    exists (add_ids elements), analysis. split; [|split].
    + unfold itemsWithIds. rewrite Hv. cbn [mbind Exc_bind]. now rewrite Ha.
    + unfold add_ids. apply length_imap.
    + intros i e He. unfold add_ids. now rewrite list_lookup_imap, He.
Qed.

Section Base64.

Lemma split_no_separator (sep : ascii) (s : string) :
  string_forall (fun c => negb (Ascii.eqb c sep)) s = true -> split sep s = [s].
Proof.
  induction s as [|c s IH]; simpl; [reflexivity|].
  intros Hc. apply andb_true_iff in Hc as [Hc Hs].
  apply negb_true_iff in Hc. rewrite Hc, (IH Hs). reflexivity.
Qed.

Lemma split_at_separator (sep : ascii) (p rest : string) :
  string_forall (fun c => negb (Ascii.eqb c sep)) p = true ->
  split sep (p ++ String sep rest) = p :: split sep rest.
Proof.
  induction p as [|c p IH]; simpl.
  - now rewrite Ascii.eqb_refl.
  - intros Hc. apply andb_true_iff in Hc as [Hc Hp].
    apply negb_true_iff in Hc. rewrite Hc, (IH Hp). reflexivity.
Qed.

End Base64.

(** X17.  [base64Data] takes the payload out of a data URL: of
    [header,payload], with no comma in the header and a non-empty payload free
    of commas, it returns [payload]; a string without a comma is returned as
    it is. *)
Theorem base64Data_takes_the_payload :
  forall header payload : string,
    string_forall (fun c => negb (is_comma c)) header = true ->
    (string_forall (fun c => negb (is_comma c)) payload = true ->
     truthy_string payload = true ->
     base64Data (header ++ String ","%char payload) = payload)
    /\ base64Data header = header.
Proof.
  intros header payload Hh. unfold base64Data. split.
  - intros Hp Hne. rewrite (split_at_separator ","%char header payload Hh).
    rewrite (split_no_separator ","%char payload Hp). simpl. now rewrite Hne.
  - now rewrite (split_no_separator ","%char header Hh).
Qed.

Lemma base64Data_takes_the_payload_witness :
  base64Data "data:image/png;base64,iVBORw0KGgo=" = "iVBORw0KGgo=".
Proof.
  apply (proj1 (base64Data_takes_the_payload "data:image/png;base64" "iVBORw0KGgo="
                  eq_refl));
    reflexivity.
Defined.

(** ** The option chooser *)

(** *** What [trim] removes *)

Functional Scheme trim_start_ind := Induction for trim_start Sort Prop.

Section Trimming.

Lemma append_cons (c : ascii) (a b : string) : String c a ++ b = String c (a ++ b).
Proof. reflexivity. Qed.

Lemma append_assoc (a b c : string) : (a ++ b) ++ c = a ++ (b ++ c).
Proof.
  induction a as [|x a IH]; [reflexivity|]. now rewrite !append_cons, IH.
Qed.

Lemma append_empty_r (a : string) : a ++ "" = a.
Proof. induction a as [|x a IH]; [reflexivity|]. now rewrite append_cons, IH. Qed.

Lemma length_append (a b : string) :
  String.length (a ++ b) = (String.length a + String.length b)%nat.
Proof.
  induction a as [|x a IH]; [reflexivity|]. rewrite append_cons. simpl. now rewrite IH.
Qed.

Lemma join_cons (w : string) (ws : list string) : join (w :: ws) = w ++ join ws.
Proof. reflexivity. Qed.

(** White space at the start of a string is removed. *)
Lemma trim_start_white_space (w s : string) :
  In w white_space -> trim_start (w ++ s) = trim_start s.
Proof.
  intros Hin. vm_compute in Hin.
  repeat (destruct Hin as [<-|Hin]; [reflexivity|]). contradiction.
Qed.

Lemma white_space_not_empty (w : string) : In w white_space -> (0 < String.length w)%nat.
Proof.
  intros Hin. vm_compute in Hin.
  repeat (destruct Hin as [<-|Hin]; [simpl; lia|]). contradiction.
Qed.

(** What is removed at the start is white space, one code point after the
    other. *)
Lemma trim_start_removes_white_space (s : string) :
  exists ws : list string,
    Forall (fun w => In w white_space) ws /\ s = join ws ++ trim_start s.
Proof.
  functional induction (trim_start s).
  - now exists [].
  - destruct IHs0 as (ws & Hws & E).
    exists (String c1 "" :: ws). split; [|now rewrite join_cons, append_assoc, <- E].
    constructor; [|exact Hws].
    clear -e0. unfold is_whitespace in e0.
    assert (Hc : c1 = ascii_of_nat (nat_of_ascii c1)) by now rewrite ascii_nat_embedding.
    rewrite Hc. 
    assert (Hn : (nat_of_ascii c1 = 32 \/ nat_of_ascii c1 = 9 \/ nat_of_ascii c1 = 10
                 \/ nat_of_ascii c1 = 11 \/ nat_of_ascii c1 = 12 \/ nat_of_ascii c1 = 13)%nat).
    { apply orb_true_iff in e0 as [E|E].
      - apply Nat.eqb_eq in E. lia.
      - apply andb_true_iff in E as [E1 E2].
        apply Nat.leb_le in E1, E2. lia. }
    destruct Hn as [-> | [-> | [-> | [-> | [-> | ->]]]]]; vm_compute; tauto.
  - now exists [].
  - destruct IHs0 as (ws & Hws & E).
    exists (String c1 (String c2 "") :: ws). split; [|now rewrite join_cons, append_assoc, <- E].
    constructor; [|exact Hws].
    clear -e2. unfold is_whitespace2 in e2.
    apply andb_true_iff in e2 as [E1 E2]. apply Nat.eqb_eq in E1, E2.
    rewrite <- (ascii_nat_embedding c1), <- (ascii_nat_embedding c2), E1, E2.
    vm_compute; tauto.
  - now exists [].
  - destruct IHs0 as (ws & Hws & E).
    exists (String c1 (String c2 (String c3 "")) :: ws). split; [|now rewrite join_cons, append_assoc, <- E].
    constructor; [|exact Hws].
    clear -e4. unfold is_whitespace3 in e4.
    rewrite <- (ascii_nat_embedding c1), <- (ascii_nat_embedding c2),
      <- (ascii_nat_embedding c3).
    repeat (apply orb_true_iff in e4 as [e4|e4]);
      repeat (match goal with
              | H : (_ && _)%bool = true |- _ => apply andb_true_iff in H as [? ?]
              | H : (_ || _)%bool = true |- _ => apply orb_true_iff in H as [?|?]
              | H : (_ =? _)%nat = true |- _ => apply Nat.eqb_eq in H; rewrite H
              end);
      try (vm_compute; tauto).
    match goal with
    | H1 : (128 <=? ?n)%nat = true, H2 : (?n <=? 138)%nat = true |- _ =>
        apply Nat.leb_le in H1, H2;
        assert (Hn : (n = 128 \/ n = 129 \/ n = 130 \/ n = 131 \/ n = 132 \/ n = 133
                      \/ n = 134 \/ n = 135 \/ n = 136 \/ n = 137 \/ n = 138)%nat) by lia
    end.
    repeat (destruct Hn as [-> | Hn]; [vm_compute; tauto|]). rewrite Hn. vm_compute; tauto.
  - now exists [].
Qed.

Lemma trim_start_length (s : string) :
  (String.length (trim_start s) <= String.length s)%nat.
Proof. functional induction (trim_start s); simpl in *; lia. Qed.

Lemma trim_start_twice (s : string) : trim_start (trim_start s) = trim_start s.
Proof.
  functional induction (trim_start s); try assumption; try reflexivity; simpl.
  - now rewrite e0.
  - now rewrite e0, e2.
  - now rewrite e0, e2, e4.
Qed.

(** A string that is white space throughout, put in front of another. *)
Lemma trim_start_app_blank (x y : string) :
  trim_start x = "" -> trim_start (x ++ y) = trim_start y.
Proof.
  functional induction (trim_start x); intros E; try discriminate E.
  - reflexivity.
  - rewrite append_cons. simpl. rewrite e0. now apply IHs.
  - rewrite !append_cons. simpl. rewrite e0, e2. now apply IHs.
  - rewrite !append_cons. simpl. rewrite e0, e2, e4. now apply IHs.
Qed.

(** What is removed at the end is white space throughout. *)
Lemma trim_end_removes_white_space (s : string) :
  exists tail : string, s = trim_end s ++ tail /\ trim_start tail = "".
Proof.
  induction s as [|c s (tail & E & Htail)]; [now exists ""|].
  change (trim_end (String c s))
    with (match trim_start (String c s) with
          | "" => ""
          | String _ _ => String c (trim_end s)
          end).
  destruct (trim_start (String c s)) eqn:Hs.
  - now exists (String c s).
  - exists tail. split; [|exact Htail]. now rewrite append_cons, <- E.
Qed.

(** No end of a string trimmed at its end is white space throughout. *)
Lemma trim_end_no_blank_end (s p u : string) :
  trim_end s = p ++ u -> u <> "" -> trim_start u <> "".
Proof.
  revert p. induction s as [|c s IH]; intros p.
  - simpl. destruct p as [|c0 p]; [|rewrite append_cons; discriminate].
    change ("" ++ u) with u. intros <- Hu. now contradiction Hu.
  - change (trim_end (String c s))
      with (match trim_start (String c s) with
            | "" => ""
            | String _ _ => String c (trim_end s)
            end).
    destruct (trim_start (String c s)) as [|c' s'] eqn:Hs.
    + destruct p as [|c0 p]; [|rewrite append_cons; discriminate].
      change ("" ++ u) with u. intros <- Hu. now contradiction Hu.
    + destruct p as [|c0 p].
      * change ("" ++ u) with u. intros <- _ Hblank.
        destruct (trim_end_removes_white_space s) as (tail & E & Htail).
        pose proof (trim_start_app_blank _ tail Hblank) as F.
        rewrite append_cons, <- E, Hs, Htail in F. discriminate F.
      * rewrite append_cons. intros [= _ E]. now apply (IH p).
Qed.

Lemma trim_start_no_white_space_start (s w rest : string) :
  In w white_space -> trim_start s <> w ++ rest.
Proof.
  intros Hw E.
  pose proof (trim_start_twice s) as T. rewrite E in T at 1.
  rewrite (trim_start_white_space w rest Hw) in T.
  pose proof (trim_start_length rest) as L. rewrite T, E, length_append in L.
  pose proof (white_space_not_empty w Hw). lia.
Qed.

(** A trimmed string neither starts nor ends with white space. *)
Lemma trim_no_white_space (s w rest : string) :
  In w white_space -> trim s <> w ++ rest /\ trim s <> rest ++ w.
Proof.
  intros Hw. unfold trim. split; intros E.
  - destruct (trim_end_removes_white_space (trim_start s)) as (tail & F & _).
    rewrite E, append_assoc in F.
    now apply (trim_start_no_white_space_start s w (rest ++ tail)).
  - apply (trim_end_no_blank_end _ _ _ E).
    + intros ->. pose proof (white_space_not_empty _ Hw) as L. simpl in L. lia.
    + rewrite <- (append_empty_r w). now rewrite trim_start_white_space.
Qed.

(** A trimmed string is a part of the string. *)
Lemma trim_part (s : string) : exists before after, s = before ++ trim s ++ after.
Proof.
  destruct (trim_start_removes_white_space s) as (ws & _ & E).
  destruct (trim_end_removes_white_space (trim_start s)) as (tail & F & _).
  exists (join ws), tail. unfold trim. now rewrite <- F.
Qed.

Lemma trim_blank (s : string) : trim_start s = "" -> trim s = "".
Proof. intros E. unfold trim. now rewrite E. Qed.

End Trimming.

(** A string of ideographic spaces (U+3000), of no-break spaces (U+00A0) or
    of byte order marks (U+FEFF) is blank, as one of spaces and tabs is; the
    white space inside a text stays. *)
Example trim_of_wide_spaces :
  trim (bytes [227; 128; 128; 194; 160; 239; 187; 191; 32; 9]%nat) = ""
  /\ trim (bytes [227; 128; 128] ++ "牛肉 饭" ++ bytes [226; 128; 168; 32]%nat) = "牛肉 饭".
Proof. split; reflexivity. Qed.

(** *** The options *)

Section Splitting.

Lemma split_options_eq (c : ascii) (rest : string) :
  split_options (String c rest)
  = if is_separator c then "" :: split_options rest
    else match rest with
         | String c2 (String c3 rest') =>
             if is_fullwidth_comma c c2 c3 then "" :: split_options rest'
             else cons_piece c (split_options rest)
         | _ => cons_piece c (split_options rest)
         end.
Proof. reflexivity. Qed.

Lemma no_separator_empty : no_separator "".
Proof.
  intros sep before after Hsep E. vm_compute in Hsep.
  destruct before; [|discriminate E].
  destruct Hsep as [<-|[<-|[<-|[]]]]; discriminate E.
Qed.

Lemma no_separator_cons (c : ascii) (s : string) :
  is_separator c = false ->
  (forall c2 c3 rest, s = String c2 (String c3 rest) -> is_fullwidth_comma c c2 c3 = false) ->
  no_separator s -> no_separator (String c s).
Proof.
  intros Hc Hfw Hs sep before after Hsep E.
  destruct before as [|c0 before].
  - vm_compute in Hsep.
    destruct Hsep as [<-|[<-|[<-|[]]]]; injection E as -> E.
    + discriminate Hc.
    + discriminate Hc.
    + specialize (Hfw _ _ _ E). discriminate Hfw.
  - rewrite append_cons in E. injection E as _ E. exact (Hs sep before after Hsep E).
Qed.

(** The pieces hold no separator, and the first of them starts the string. *)
Lemma split_options_pieces_bounded (n : nat) :
  forall s : string,
    (String.length s <= n)%nat ->
    Forall no_separator (split_options s)
    /\ exists piece pieces rest, split_options s = piece :: pieces /\ s = piece ++ rest.
Proof.
  induction n as [|n IH]; intros [|c s] Hlen; simpl in Hlen; try lia.
  - split; [repeat constructor; apply no_separator_empty|now exists "", [], ""].
  - split; [repeat constructor; apply no_separator_empty|now exists "", [], ""].
  - rewrite split_options_eq.
    assert (Hplain :
      is_separator c = false ->
      (forall c2 c3 rest, s = String c2 (String c3 rest) -> is_fullwidth_comma c c2 c3 = false) ->
      Forall no_separator (cons_piece c (split_options s))
      /\ exists piece pieces rest,
           cons_piece c (split_options s) = piece :: pieces /\ String c s = piece ++ rest).
    { intros Hc Hfw. destruct (IH s ltac:(lia)) as (Hall & piece & pieces & rest & E & F).
      rewrite E in *. simpl. apply Forall_cons in Hall as [Hpiece Hpieces]. split.
      - constructor; [|exact Hpieces]. apply no_separator_cons; [exact Hc| |exact Hpiece].
        intros c2 c3 rest' ->. apply (Hfw c2 c3 (rest' ++ rest)). now rewrite F.
      - exists (String c piece), pieces, rest. split; [reflexivity|].
        now rewrite append_cons, <- F. }
    destruct (is_separator c) eqn:Hc.
    + split; [|now exists "", (split_options s), (String c s)].
      constructor; [apply no_separator_empty|]. apply (IH s). lia.
    + destruct s as [|c2 [|c3 s]]; try (apply Hplain; [reflexivity|discriminate]).
      destruct (is_fullwidth_comma c c2 c3) eqn:Hfw.
      * split; [|now exists "", (split_options s), (String c (String c2 (String c3 s)))].
        constructor; [apply no_separator_empty|]. apply (IH s). simpl in Hlen. lia.
      * apply Hplain; [reflexivity|]. now intros ? ? ? [= <- <- <-].
Qed.

Lemma split_options_pieces (s : string) : Forall no_separator (split_options s).
Proof. apply (split_options_pieces_bounded (String.length s)). lia. Qed.

Lemma no_separator_part (s before part after : string) :
  no_separator s -> s = before ++ part ++ after -> no_separator part.
Proof.
  intros Hs E sep a b Hsep ->. apply (Hs sep (before ++ a) (b ++ after) Hsep).
  now rewrite E, !append_assoc.
Qed.

(** Putting a string in front of the first piece. *)
Lemma split_options_plain (c : ascii) (s : string) :
  is_separator c = false -> nat_of_ascii c <> 239%nat ->
  split_options (String c s) = cons_piece c (split_options s).
Proof.
  intros Hc Hn. rewrite split_options_eq, Hc.
  destruct s as [|c2 [|c3 s]]; try reflexivity.
  unfold is_fullwidth_comma. apply Nat.eqb_neq in Hn. now rewrite Hn.
Qed.

(** A separator ends a piece; white space goes into the piece it is in. *)
Lemma split_options_separator (sep s : string) :
  In sep separators -> split_options (sep ++ s) = "" :: split_options s.
Proof.
  intros Hsep. vm_compute in Hsep.
  destruct Hsep as [<-|[<-|[<-|[]]]]; reflexivity.
Qed.

Lemma split_options_white_space (w s : string) :
  In w white_space ->
  split_options (w ++ s) = "" :: split_options s
  \/ exists piece pieces,
       split_options s = piece :: pieces /\ split_options (w ++ s) = (w ++ piece) :: pieces.
Proof.
  intros Hw.
  destruct (split_options_pieces_bounded (String.length s) s ltac:(lia))
    as (_ & piece & pieces & _ & E & _).
  vm_compute in Hw.
  repeat (destruct Hw as [<-|Hw];
          [first [ left; reflexivity
                 | right; exists piece, pieces; split; [exact E|];
                   rewrite ?append_cons; change ("" ++ s) with s;
                   first [ rewrite !split_options_plain by (vm_compute; congruence)
                         | rewrite split_options_eq;
                           change (is_separator _) with false; cbv iota;
                           change (is_fullwidth_comma _ _ _) with false; cbv iota;
                           rewrite !split_options_plain by (vm_compute; congruence) ];
                   rewrite E; reflexivity ]|]).
  contradiction.
Qed.

Lemma split_options_of_tokens (tokens : list string) :
  Forall (fun token => In token separators \/ In token white_space) tokens ->
  Forall (fun piece => trim_start piece = "") (split_options (join tokens)).
Proof.
  induction 1 as [|token tokens Htoken _ IH]; [repeat constructor|].
  rewrite join_cons.
  destruct Htoken as [Hsep|Hw].
  - rewrite (split_options_separator _ _ Hsep). now constructor.
  - destruct (split_options_white_space token (join tokens) Hw)
      as [E|(piece & pieces & E & F)].
    + rewrite E. now constructor.
    + rewrite F. rewrite E in IH. apply Forall_cons in IH as [Hpiece Hpieces].
      constructor; [|exact Hpieces]. now rewrite trim_start_white_space.
Qed.

End Splitting.

Lemma parse_options_of_separators (tokens : list string) :
  Forall (fun token => In token separators \/ In token white_space) tokens ->
  parse_options (join tokens) = [].
Proof.
  intros Htokens. unfold parse_options.
  induction (split_options_of_tokens tokens Htokens) as [|piece pieces Hpiece _ IH];
    [reflexivity|].
  simpl. now rewrite (trim_blank piece Hpiece).
Qed.

(** X15.  The options sent to the recommendation are clean: each one is
    non-empty, neither starts nor ends with white space (any of the code
    points [trim] removes, the ideographic space among them) and holds no
    comma, no full-width comma and no line feed.  Pieces that are empty or
    white space are dropped, so an input made of separators and white space
    gives no option at all. *)
Theorem parse_options_gives_clean_options :
  forall optionsInput : string,
    Forall (fun option =>
              option <> ""
              /\ (forall w rest, In w white_space ->
                    option <> w ++ rest /\ option <> rest ++ w)
              /\ (forall sep before after, In sep separators ->
                    option <> before ++ sep ++ after))
           (parse_options optionsInput)
    /\ (forall tokens,
          Forall (fun token => In token separators \/ In token white_space) tokens ->
          optionsInput = join tokens ->
          parse_options optionsInput = []).
Proof.
  intros optionsInput. split.
  - unfold parse_options. apply List.Forall_forall. intros option Hin.
    apply filter_In in Hin as [Hin Hne]. apply in_map_iff in Hin as (piece & <- & Hpiece).
    split; [now destruct (trim piece)|]. split.
    + intros w rest Hw. now apply trim_no_white_space.
    + destruct (trim_part piece) as (before & after & E).
      apply (no_separator_part piece before (trim piece) after); [|exact E].
      pose proof (split_options_pieces optionsInput) as Hall.
      rewrite List.Forall_forall in Hall. now apply Hall.
  - intros tokens Htokens ->. now apply parse_options_of_separators.
Qed.

Lemma parse_options_witness :
  parse_options (", " ++ bytes [239; 188; 140; 227; 128; 128; 10; 194; 160]%nat) = [].
Proof.
  apply (proj2 (parse_options_gives_clean_options
                  (", " ++ bytes [239; 188; 140; 227; 128; 128; 10; 194; 160]%nat))
           [","; " "; bytes [239; 188; 140]%nat; bytes [227; 128; 128]%nat;
            bytes [10]%nat; bytes [194; 160]%nat]).
  - repeat (constructor; [vm_compute; tauto|]). constructor.
  - reflexivity.
Defined.

(** Three dishes separated by a full-width comma, a comma and a line feed,
    the second one between ideographic spaces. *)
Example parse_options_of_three_dishes :
  parse_options ("牛肉饭，" ++ bytes [227; 128; 128]%nat ++ "冷面"
                 ++ bytes [227; 128; 128]%nat ++ ", 粉丝汤" ++ bytes [10]%nat)
  = ["牛肉饭"; "冷面"; "粉丝汤"].
Proof. reflexivity. Qed.

(** ** Recommendation and reports *)

Section Recommendation.
Context {num : Type} `{Services num} `{Subtraction num}.

Lemma getMealRecommendation_throws_a_message (options : list string)
    (log : DailyLog.t num) (goals : MacroGoals.t num) (mealType message : string) :
  getMealRecommendation options log goals mealType = Throw message ->
  truthy_string message = true.
Proof.
  unfold getMealRecommendation, try_catch.
  match goal with |- match ?c with _ => _ end = _ -> _ => destruct c end.
  - discriminate.
  - intros [= <-]. now apply or_else_truthy.
Qed.

End Recommendation.

(** X13.  [getMealRecommendation] fails with one error that carries a
    non-empty message: the cause's own, or the default one.  It fails when no
    API key is found, when the collaborator's call throws and when the
    response text is rejected by [JSON.parse].  A response without text is read
    as the empty object, which is returned as the recommendation: a result
    with no recommendation, no portions and no reasoning in it. *)
Theorem getMealRecommendation_errors_and_fallbacks :
  forall (num : Type) (N : Number num) (host : Host num) (services : Services num)
         (S : Subtraction num) (options : list string) (log : DailyLog.t num)
         (goals : MacroGoals.t num) (mealType : string),
    let outcome := getMealRecommendation options log goals mealType in
    let prompt := recommendation_prompt options log goals mealType in
    (forall message, outcome = Throw message -> truthy_string message = true)
    /\ (forall message,
          getAIClient (num := num) = Throw message ->
          outcome = Throw (or_else (Some message) default_recommendation_failure))
    /\ (forall key message,
          getAIClient (num := num) = Return key ->
          generateText key pro_model prompt = Throw message ->
          outcome = Throw (or_else (Some message) default_recommendation_failure))
    /\ (forall key text message,
          getAIClient (num := num) = Return key ->
          generateText key pro_model prompt = Return text ->
          JSON_parse (num := num) (or_else text "{}") = Throw message ->
          outcome = Throw (or_else (Some message) default_recommendation_failure))
    /\ (forall key text result,
          getAIClient (num := num) = Return key ->
          generateText key pro_model prompt = Return text ->
          JSON_parse (num := num) (or_else text "{}") = Return result ->
          outcome = Return result)
    /\ (forall key text,
          getAIClient (num := num) = Return key ->
          generateText key pro_model prompt = Return text ->
          text = None \/ text = Some EmptyString ->
          outcome = Return (JObject [])).
Proof.
  intros num N host services S options log goals mealType outcome prompt.
  unfold outcome, prompt.
  split; [intros m; apply getMealRecommendation_throws_a_message|].
  unfold getMealRecommendation. repeat split.
  - intros m E. now rewrite E.
  - intros key m Ek Eg. rewrite Ek. cbn [mbind Exc_bind]. now rewrite Eg.
  - intros key text m Ek Eg Ep. rewrite Ek. cbn [mbind Exc_bind]. rewrite Eg.
    cbn [mbind Exc_bind]. now rewrite Ep.
  - intros key text result Ek Eg Ep. rewrite Ek. cbn [mbind Exc_bind]. rewrite Eg.
    cbn [mbind Exc_bind]. now rewrite Ep.
  - intros key text Ek Eg Hempty. rewrite Ek. cbn [mbind Exc_bind]. rewrite Eg.
    cbn [mbind Exc_bind].
    assert (E : or_else text "{}" = "{}") by (destruct Hempty; now subst).
    now rewrite E, JSON_parse_empty_object.
Qed.

Lemma trim_start_of_white_space (ws : list string) :
  Forall (fun w => In w white_space) ws -> trim_start (join ws) = "".
Proof.
  induction 1 as [|w ws Hw _ IH]; [reflexivity|].
  now rewrite join_cons, trim_start_white_space.
Qed.

(** X21.  [handleDecide] makes no request for a blank input, one that
    [trim] empties, and leaves the state as it is; an input made of white
    space only, ideographic spaces included, is blank.  Otherwise it asks for
    a recommendation among the clean options, with an empty list of options
    when the input holds separators and white space only; a failure, whatever
    its cause, raises the one fixed alert and shows no result; a success shows
    the value received and raises no alert.  Either way loading ends. *)
Theorem handleDecide_outcomes :
  forall (num : Type) (N : Number num) (host : Host num) (services : Services num)
         (S : Subtraction num) (log : DailyLog.t num) (goals : MacroGoals.t num)
         (st : DecisionState num),
    let st' := handleDecide log goals st in
    let request :=
      getMealRecommendation (parse_options (optionsInput st)) log goals (mealType st) in
    (truthy_string (trim (optionsInput st)) = false -> st' = st)
    /\ (forall ws, Forall (fun w => In w white_space) ws ->
          optionsInput st = join ws -> st' = st)
    /\ (truthy_string (trim (optionsInput st)) = true ->
        optionsInput st' = optionsInput st
        /\ mealType st' = mealType st
        /\ loading st' = false
        /\ (forall message, request = Throw message ->
              result st' = None
              /\ decision_alerts st' = (decision_alerts st ++ [recommendation_alert])%list)
        /\ (forall res, request = Return res ->
              result st' = Some res /\ decision_alerts st' = decision_alerts st)
        /\ (forall tokens,
              Forall (fun token => In token separators \/ In token white_space) tokens ->
              optionsInput st = join tokens ->
              request = getMealRecommendation [] log goals (mealType st))).
Proof.
  intros num N host services S log goals st st' request. unfold st', handleDecide.
  split; [intros Hblank; now rewrite Hblank|].
  split.
  { intros ws Hws E. unfold trim. now rewrite E, trim_start_of_white_space. }
  intros Hblank; rewrite Hblank; simpl.
  assert (Hnone : forall tokens,
            Forall (fun token => In token separators \/ In token white_space) tokens ->
            optionsInput st = join tokens ->
            request = getMealRecommendation [] log goals (mealType st)).
  { intros tokens Htokens E. unfold request.
    now rewrite E, parse_options_of_separators. }
  fold request. destruct request as [res|message]; simpl;
    (split; [reflexivity|split; [reflexivity|split; [reflexivity|split; [|split]]]]);
    try exact Hnone.
  - intros m E. discriminate E.
  - intros res' [= <-]. split; reflexivity.
  - intros m _. split; reflexivity.
  - intros res E. discriminate E.
Qed.

Section ReportTexts.
Context {num : Type} `{Services num}.

Lemma report_failure_with_truthy (message : string) :
  truthy_string (report_failure_with message) = true.
Proof. reflexivity. Qed.

Lemma or_else_option_truthy (text : option string) (fallback : string) :
  truthy_string fallback = true -> truthy_string (or_else text fallback) = true.
Proof.
  intros Hf. destruct text as [t|]; simpl; [|exact Hf].
  now destruct (truthy_string t) eqn:E.
Qed.

End ReportTexts.

(** X14.  Both reports always return a text to show and never throw: the
    collaborator's text when it has one, the fixed failure text when the
    response has none, and the failure text followed by the cause when no API
    key is found or the call throws.  Whatever happens, [handleGenerateReport]
    ends on the report view with a non-empty report and with generation
    marked as finished. *)
Theorem reports_always_return_a_text :
  forall (num : Type) (N : Number num) (host : Host num) (services : Services num)
         (now : nat -> num) (st : AppState num) (log : DailyLog.t num)
         (week : list (DailyLog.t num)) (kind : WeeklyKind),
    truthy_string (generateDailyReport log) = true
    /\ truthy_string (generateWeeklyReport week kind) = true
    /\ (forall message,
          getAIClient (num := num) = Throw message ->
          generateDailyReport log = report_failure_with message
          /\ generateWeeklyReport week kind = report_failure_with message)
    /\ (forall key message,
          getAIClient (num := num) = Return key ->
          (generateText key pro_model (dailyReportPrompt (daily_summary log))
           = Throw message ->
           generateDailyReport log = report_failure_with message)
          /\ (generateText key pro_model (weeklyReportPrompt kind (map day_summary week))
              = Throw message ->
              generateWeeklyReport week kind = report_failure_with message))
    /\ (forall key text,
          getAIClient (num := num) = Return key ->
          (generateText key pro_model (dailyReportPrompt (daily_summary log))
           = Return text ->
           generateDailyReport log = or_else text report_failure)
          /\ (generateText key pro_model (weeklyReportPrompt kind (map day_summary week))
              = Return text ->
              generateWeeklyReport week kind = or_else text no_weekly_report))
    /\ (forall type,
          view (handleGenerateReport now st type) = V_report
          /\ generatingReport (handleGenerateReport now st type) = false
          /\ truthy_string (reportContent (handleGenerateReport now st type)) = true).
Proof.
  intros num N host services now st log week kind.
  assert (Hd : forall l, truthy_string (generateDailyReport l) = true).
  { intros l. unfold generateDailyReport.
    destruct (_ ≫= _) as [text|message];
      [now apply or_else_option_truthy|apply report_failure_with_truthy]. }
  assert (Hw : forall w k, truthy_string (generateWeeklyReport w k) = true).
  { intros w k. unfold generateWeeklyReport.
    destruct (_ ≫= _) as [text|message];
      [now apply or_else_option_truthy|apply report_failure_with_truthy]. }
  split; [apply Hd|]. split; [apply Hw|]. split; [|split; [|split]].
  - intros message E. unfold generateDailyReport, generateWeeklyReport.
    rewrite E. split; reflexivity.
  - intros key message Ek. unfold generateDailyReport, generateWeeklyReport.
    rewrite Ek. cbn [mbind Exc_bind]. split; intros ->; reflexivity.
  - intros key text Ek. unfold generateDailyReport, generateWeeklyReport.
    rewrite Ek. cbn [mbind Exc_bind]. split; intros ->; reflexivity.
  - intros [| |]; simpl; repeat split; auto.
Qed.

(** ** The logs of the weekly report *)

Section StringOrder.

Lemma string_le_total : Total string_le.
Proof.
  intros a b. unfold string_le.
  destruct (String_as_OT.compare_spec a b) as [E|L|G]; [left|left|right]; try discriminate.
  unfold String_as_OT.lt in G. rewrite G. discriminate.
Qed.

Lemma string_le_cases (a b : string) : string_le a b <-> a = b \/ String_as_OT.lt a b.
Proof.
  unfold string_le. split.
  - destruct (String_as_OT.compare_spec a b) as [E|L|G]; auto. congruence.
  - intros [->|L].
    + destruct (String_as_OT.compare_spec b b) as [E|L|G]; try discriminate.
      exfalso. now apply (StrictOrder_Irreflexive (R := String_as_OT.lt) b).
    + unfold String_as_OT.lt in L. rewrite L. discriminate.
Qed.

Lemma string_le_trans : Transitive string_le.
Proof.
  intros a b c Hab Hbc. apply string_le_cases in Hab, Hbc. apply string_le_cases.
  destruct Hab as [->|Lab]; [exact Hbc|].
  destruct Hbc as [->|Lbc]; [now right|].
  right. now transitivity b.
Qed.

Lemma string_le_antisym : AntiSymm (=) string_le.
Proof.
  intros a b Hab Hba. apply string_le_cases in Hab, Hba.
  destruct Hab as [->|Lab]; [reflexivity|]. destruct Hba as [->|Lba]; [reflexivity|].
  exfalso. apply (StrictOrder_Irreflexive (R := String_as_OT.lt) a). now transitivity b.
Qed.

End StringOrder.

Section Slices.
Context {A : Type}.

Lemma slice_last_split (n : nat) (l : list A) :
  l = (take (length l - n) l ++ slice_last n l)%list.
Proof. unfold slice_last. now rewrite take_drop. Qed.

Lemma slice_last_length (n : nat) (l : list A) :
  length (slice_last n l) = Nat.min n (length l).
Proof. unfold slice_last. rewrite length_drop. lia. Qed.

Lemma slice_last_all (n : nat) (l : list A) :
  length l <= n -> slice_last n l = l.
Proof. intros Hl. unfold slice_last. now replace (length l - n) with 0 by lia. Qed.

End Slices.

Section RecentLogs.
Context {num : Type}.
Implicit Types logs : gmap string (DailyLog.t num).

Lemma stored_dates_spec logs (d : string) :
  d ∈ map fst (map_to_list logs) <-> is_Some (logs !! d).
Proof.
  rewrite list_elem_of_fmap. split.
  - intros ([k log] & -> & Hin). apply elem_of_map_to_list in Hin. now exists log.
  - intros [log Hlog]. exists (d, log). split; [reflexivity|].
    now apply elem_of_map_to_list.
Qed.

Lemma sorted_dates_sorted logs :
  StronglySorted string_le (merge_sort string_le (map fst (map_to_list logs))).
Proof.
  apply (@StronglySorted_merge_sort _ string_le _ string_le_trans string_le_total).
Qed.

Lemma omap_lookup_all logs (dates : list string) :
  Forall (fun d => is_Some (logs !! d)) dates ->
  Forall2 (fun d log => logs !! d = Some log) dates (omap (fun d => logs !! d) dates).
Proof.
  induction 1 as [|d dates [log Hlog] _ IH]; simpl; [constructor|].
  rewrite Hlog. now constructor.
Qed.

End RecentLogs.

(** X16.  The weekly reports are given the logs of the latest seven dates
    of the store, in ascending order of date: at most seven dates, all of them
    when the store holds seven or fewer, each one stored and taken once, every
    date left out coming before every date taken; the logs are the entries of
    these dates, in that order; the order in which the keys of the store are
    enumerated plays no part. *)
Theorem weekly_report_takes_the_latest_seven_dates :
  forall (num : Type) (logs : gmap string (DailyLog.t num)),
    let dates := recent_dates logs in
    length dates = Nat.min 7 (size logs)
    /\ StronglySorted string_le dates
    /\ NoDup dates
    /\ (forall d, d ∈ dates -> is_Some (logs !! d))
    /\ (forall d d', is_Some (logs !! d) -> d ∉ dates -> d' ∈ dates -> string_le d d')
    /\ (size logs <= 7 -> forall d, is_Some (logs !! d) -> d ∈ dates)
    /\ Forall2 (fun d log => logs !! d = Some log) dates (recentLogs logs)
    /\ (forall keys, keys ≡ₚ map fst (map_to_list logs) ->
          slice_last 7 (merge_sort string_le keys) = dates).
Proof.
  intros num logs dates. unfold dates, recent_dates.
  set (keys := map fst (map_to_list logs)).
  set (sorted := merge_sort string_le keys).
  assert (Hperm : sorted ≡ₚ keys) by apply merge_sort_Permutation.
  assert (Hsorted : StronglySorted string_le sorted) by apply sorted_dates_sorted.
  assert (Hnodup : NoDup sorted).
  { rewrite Hperm. apply NoDup_fst_map_to_list. }
  assert (Hlen : length sorted = size logs).
  { rewrite Hperm. unfold keys. now rewrite length_map, length_map_to_list. }
  pose proof (slice_last_split 7 sorted) as Hsplit.
  assert (Hin : forall d, d ∈ slice_last 7 sorted -> is_Some (logs !! d)).
  { intros d Hd. apply stored_dates_spec. fold keys. rewrite <- Hperm, Hsplit.
    apply elem_of_app. now right. }
  split; [now rewrite slice_last_length, Hlen|].
  split; [rewrite Hsplit in Hsorted; now apply StronglySorted_app_1_r in Hsorted|].
  split; [rewrite Hsplit in Hnodup; now apply NoDup_app in Hnodup as (_ & _ & ?)|].
  split; [exact Hin|]. split; [|split; [|split]].
  - intros d d' Hd Hout Hd'.
    apply stored_dates_spec in Hd. fold keys in Hd. rewrite <- Hperm, Hsplit in Hd.
    apply elem_of_app in Hd as [Hd|Hd]; [|contradiction].
    rewrite Hsplit in Hsorted.
    now apply (StronglySorted_app_1_elem_of string_le _ _ d d' Hsorted).
  - intros Hsmall d Hd. rewrite slice_last_all by lia.
    rewrite Hperm. now apply stored_dates_spec.
  - unfold recentLogs, recent_dates. fold keys. fold sorted.
    apply omap_lookup_all. apply Forall_forall. exact Hin.
  - intros keys' Hkeys. f_equal.
    apply (@StronglySorted_unique _ string_le string_le_antisym).
    + apply (@StronglySorted_merge_sort _ string_le _ string_le_trans string_le_total).
    + exact Hsorted.
    + unfold sorted. now rewrite !merge_sort_Permutation.
Qed.

(** ** The properties above on concrete states *)

Lemma well_keyed_empty {num : Type} : well_keyed (∅ : gmap string (DailyLog.t num)).
Proof. intros date log E. rewrite lookup_empty in E. discriminate E. Qed.

Lemma store_stays_well_keyed_witness :
  well_keyed
    (logs (@handleDeleteItem float _ no_clock typing_state "breakfast-2024-05-01" "fixed-egg")).
Proof.
  apply (store_stays_well_keyed float _ offline_host offline_services no_clock typing_state
           well_keyed_empty).
Defined.

Lemma handlers_write_the_selected_date_only_witness :
  logs (@handleDeleteItem float _ no_clock typing_state "breakfast-2024-05-01" "fixed-egg")
    !! "2024-05-02"
  = logs typing_state !! "2024-05-02".
Proof.
  apply (handlers_write_the_selected_date_only float _ offline_host offline_services
           no_clock typing_state "2024-05-02" well_keyed_empty).
  discriminate.
Defined.

Lemma handlers_keep_the_meals_in_place_witness :
  map meal_frame
    (DailyLog.meals
       (currentLog no_clock
          (@handleDeleteItem float _ no_clock typing_state "breakfast-2024-05-01" "fixed-egg")))
  = map meal_frame (DailyLog.meals (currentLog no_clock typing_state)).
Proof.
  apply (handlers_keep_the_meals_in_place float _ offline_host offline_services
           no_clock no_clock typing_state well_keyed_empty).
Defined.

Lemma handleDeleteItem_removes_that_item_only_witness :
  length
    (DailyLog.meals
       (currentLog no_clock
          (@handleDeleteItem float _ no_clock typing_state "breakfast-2024-05-01" "fixed-egg")))
  = length (DailyLog.meals (currentLog no_clock typing_state)).
Proof.
  apply (handleDeleteItem_removes_that_item_only float _ offline_host offline_services
           no_clock no_clock typing_state "breakfast-2024-05-01" "fixed-egg"
           well_keyed_empty).
Defined.

Lemma handleDeleteItem_twice_witness :
  @handleDeleteItem float _ no_clock
    (@handleDeleteItem float _ no_clock typing_state "breakfast-2024-05-01" "fixed-egg")
    "breakfast-2024-05-01" "fixed-egg"
  = @handleDeleteItem float _ no_clock typing_state "breakfast-2024-05-01" "fixed-egg".
Proof.
  apply (handleDeleteItem_twice float _ offline_host offline_services no_clock no_clock
           typing_state "breakfast-2024-05-01" "fixed-egg" well_keyed_empty).
Defined.

Lemma handleUpdateMetrics_records_one_metric_witness :
  get_metric
    (DailyLog.metrics
       (currentLog no_clock
          (@handleUpdateMetrics float _ offline_host offline_services no_clock typing_state
             M_weight "72.5")))
    M_weight
  = Some (lit 725 10).
Proof.
  apply (handleUpdateMetrics_records_one_metric float _ offline_host offline_services
           no_clock no_clock typing_state M_weight "72.5" well_keyed_empty).
Defined.

Lemma editing_other_fields_keeps_the_numbers_witness :
  total
    (currentLog no_clock
       (@handleUpdateItemDetails float _ offline_host no_clock typing_state
          "breakfast-2024-05-01" "fixed-egg" K_name (VString "Fried egg")))
  = total (currentLog no_clock typing_state).
Proof.
  apply (editing_other_fields_keeps_the_numbers float _ offline_host offline_services
           no_clock no_clock typing_state "breakfast-2024-05-01" "fixed-egg" K_name
           (VString "Fried egg") well_keyed_empty).
  discriminate.
Defined.

Lemma handleAddFood_appends_the_extraction_witness :
  map (fun m => length (Meal.items m))
    (DailyLog.meals
       (currentLog no_clock
          (@handleAddFood float _ answering_host no_clock typing_state
             "breakfast" "breakfast-2024-05-01")))
  = [4; 0; 0; 0]%nat.
Proof.
  pose proof (handleAddFood_appends_the_extraction float _ answering_host answering_services
                no_clock no_clock typing_state "breakfast" "breakfast-2024-05-01"
                (add_ids [JObject []; JObject []]) "无额外烹饪说明"
                well_keyed_empty eq_refl eq_refl) as [E _].
  rewrite <- map_map, E. reflexivity.
Defined.

Lemma nan_weight_witness :
  macros (rescale (num := float) fixed_egg PrimFloat.nan)
  = [PrimFloat.nan; PrimFloat.nan; PrimFloat.nan; PrimFloat.nan; PrimFloat.nan].
Proof.
  exact (proj1 (nan_weight_turns_the_macros_into_nan fixed_egg PrimFloat.nan
                  eq_refl eq_refl)).
Defined.

Lemma snack_state_well_keyed {num : Type} `{Number num} (snack : num) :
  well_keyed (logs (snack_state snack)).
Proof.
  intros date log E. unfold snack_state in E. simpl in E.
  apply lookup_singleton_Some in E as [<- <-]. reflexivity.
Qed.

Lemma handleAddFood_adds_to_the_totals_witness :
  total
    (currentLog (fun _ => of_Z 0)
       (@handleAddFood xnum _ (exact_snack_host (of_Z 100)) (fun _ => of_Z 0)
          (snack_state (of_Z 40)) "lunch" "lunch-2024-05-01"))
  = fold_left add_item [calories_only "a" (of_Z 100); calories_only "b" (of_Z 100)]
      (total (currentLog (fun _ => of_Z 0) (snack_state (of_Z 40))))
  /\ total
       (currentLog no_clock
          (@handleAddFood float _ (snack_host (lit 1 10)) no_clock
             (snack_state (lit 4 10)) "snack" "snack-2024-05-01"))
     = fold_left add_item [calories_only "a" (lit 1 10); calories_only "b" (lit 1 10)]
         (total (currentLog no_clock (snack_state (lit 4 10)))).
Proof.
  split.
  - apply (proj1 (proj2 handleAddFood_adds_the_extraction_to_the_totals)
             (exact_snack_host (of_Z 100)) (exact_snack_services (of_Z 100))
             (fun _ => of_Z 0) (fun _ => of_Z 0) (snack_state (of_Z 40))
             "lunch" "lunch-2024-05-01"
             [calories_only "a" (of_Z 100); calories_only "b" (of_Z 100)]
             "无额外烹饪说明").
    + apply snack_state_well_keyed.
    + reflexivity.
    + reflexivity.
    + reflexivity.
  - apply (proj1 (proj2 (proj2 handleAddFood_adds_the_extraction_to_the_totals))
             float _ (snack_host (lit 1 10))
             (scenario_services (snack_host (lit 1 10)) (Return None))
             no_clock no_clock (snack_state (lit 4 10))
             "snack" "snack-2024-05-01"
             [calories_only "a" (lit 1 10); calories_only "b" (lit 1 10)]
             "无额外烹饪说明"
             [default_meal "lunch" "午餐" "2024-05-01" (of_Z 0) [] None]
             (default_meal "snack" "加餐" "2024-05-01" (of_Z 0)
                [calories_only "s" (lit 4 10)] None)).
    + apply snack_state_well_keyed.
    + reflexivity.
    + reflexivity.
    + reflexivity.
    + repeat constructor. discriminate.
    + reflexivity.
Defined.

Lemma parseFoodEntry_reads_items_witness :
  exists items analysis,
    @parseFoodEntry float _ answering_host "two eggs" None = Return (items, analysis)
    /\ length items = 2%nat
    /\ (forall i e, [JObject []; JObject []] !! i = Some e ->
                    items !! i = Some (scenario_asIngredient
                                         (String (Ascii.ascii_of_nat (97 + i)) EmptyString) e)).
Proof.
  exact (proj2 (proj2 (parseFoodEntry_reads_items_from_an_array_only float _
                         answering_host "two eggs" None
                         "test-key" (Some two_items_text)
                         (JObject [("items", JArray [JObject []; JObject []])])
                         eq_refl eq_refl eq_refl))
           [JObject []; JObject []] eq_refl).
Defined.

(** ** Editing an item touches that item only *)

(** X26.  An edit of an item, whatever the field, touches only the items
    with the given id in the meals with the given id: every other meal is
    returned as it is, the items with another id are unchanged and in place,
    no item is added or removed, and every item keeps its id and its notes.
    An edit of the weight gives the items it touches the new weight. *)
Theorem handleUpdateItemDetails_touches_that_item_only :
  forall (num : Type) (N : Number num) (host : Host num) (services : Services num)
         (now now' : nat -> num) (st : AppState num) (mealId itemId : string)
         (field : IngredientKey) (value : Value num),
    well_keyed (logs st) ->
    let before := DailyLog.meals (currentLog now st) in
    let after :=
      DailyLog.meals
        (currentLog now' (handleUpdateItemDetails now st mealId itemId field value)) in
    let other := fun i : Ingredient.t num => negb (String.eqb (Ingredient.id i) itemId) in
    (forall m, In m before -> Meal.id m <> mealId -> In m after)
    /\ map (fun m => List.filter other (Meal.items m)) after
       = map (fun m => List.filter other (Meal.items m)) before
    /\ map (fun m => map (fun i => (Ingredient.id i, Ingredient.notes i)) (Meal.items m)) after
       = map (fun m => map (fun i => (Ingredient.id i, Ingredient.notes i)) (Meal.items m))
             before
    /\ (field = K_weight ->
        forall m' i, In m' after -> Meal.id m' = mealId -> In i (Meal.items m') ->
                     Ingredient.id i = itemId ->
                     Ingredient.weight i = to_Number value).
Proof.
  intros num N host services now now' st mealId itemId field value WK before after other.
  assert (E : after = map (fun meal =>
              if negb (String.eqb (Meal.id meal) mealId) then meal
              else with_items meal
                     (map (fun item =>
                             if negb (String.eqb (Ingredient.id item) itemId) then item
                             else update_item item field value)
                          (Meal.items meal)))
           before).
  { unfold after. now rewrite handleUpdateItemDetails_current. }
  assert (Hid : forall item, Ingredient.id (update_item item field value) = Ingredient.id item
                             /\ Ingredient.notes (update_item item field value)
                                = Ingredient.notes item).
  { intros item. destruct field; simpl; try (split; reflexivity).
    unfold rescale. destruct (Ingredient.weight item =? of_Z 0)%num; split; reflexivity. }
  rewrite E. clear E after. split; [|split; [|split]].
  - intros m Hm Hne. apply in_map_iff. exists m. split; [|exact Hm].
    apply String.eqb_neq in Hne. now rewrite Hne.
  - rewrite map_map. apply map_ext. intros m.
    destruct (negb (String.eqb (Meal.id m) mealId)); [reflexivity|]. simpl.
    subst other. induction (Meal.items m) as [|i l IH]; simpl; [reflexivity|].
    destruct (negb (String.eqb (Ingredient.id i) itemId)) eqn:Ei; simpl.
    + rewrite Ei. now rewrite IH.
    + rewrite (proj1 (Hid i)), Ei. exact IH.
  - rewrite map_map. apply map_ext. intros m.
    destruct (negb (String.eqb (Meal.id m) mealId)); [reflexivity|]. simpl.
    rewrite map_map. apply map_ext. intros i.
    destruct (negb (String.eqb (Ingredient.id i) itemId)); [reflexivity|].
    now rewrite (proj1 (Hid i)), (proj2 (Hid i)).
  - intros -> m' i Hm' Hmeal Hi Hitem.
    apply in_map_iff in Hm' as (m & <- & _).
    destruct (String.eqb (Meal.id m) mealId) eqn:Em; simpl in Hmeal, Hi.
    + apply in_map_iff in Hi as (i0 & <- & _).
      destruct (String.eqb (Ingredient.id i0) itemId) eqn:Ei; simpl in *.
      * unfold rescale. now destruct (Ingredient.weight i0 =? of_Z 0)%num.
      * apply String.eqb_neq in Ei. contradiction.
    + apply String.eqb_neq in Em. contradiction.
Qed.

Lemma handleUpdateItemDetails_touches_witness :
  map (fun m => map (fun i => (Ingredient.id i, Ingredient.notes i)) (Meal.items m))
    (DailyLog.meals
       (currentLog no_clock
          (@handleUpdateItemDetails float _ offline_host no_clock typing_state
             "breakfast-2024-05-01" "fixed-egg" K_weight (VNumber (F64.of_Z 100)))))
  = map (fun m => map (fun i => (Ingredient.id i, Ingredient.notes i)) (Meal.items m))
      (DailyLog.meals (currentLog no_clock typing_state)).
Proof.
  apply (handleUpdateItemDetails_touches_that_item_only float _ offline_host offline_services
           no_clock no_clock typing_state "breakfast-2024-05-01" "fixed-egg" K_weight
           (VNumber (F64.of_Z 100)) well_keyed_empty).
Defined.

(** ** The Goal Evaluator and the rescaler in exact arithmetic *)

Section ExactEvaluator.

Lemma Qc_pos_neq (q : Qc) : (0 < q)%Qc -> q <> 0%Qc.
Proof. intros Hq ->. now apply (Qclt_not_eq _ _ Hq). Qed.

Lemma Qc_hundred_pos : (0 < Q2Qc (inject_Z 100))%Qc.
Proof. reflexivity. Qed.

(** [v / t * 100] against 0 and 100, for a positive [t]. *)
Lemma percent_lt_0 (v t : Qc) :
  (0 < t)%Qc -> ((0 < v / t * Q2Qc (inject_Z 100))%Qc <-> (0 < v)%Qc).
Proof.
  intros Ht.
  assert (Hk : (0 < / t * Q2Qc (inject_Z 100))%Qc).
  { apply Qcmult_pos_pos; [now apply Qcinv_pos|exact Qc_hundred_pos]. }
  rewrite (Qcmult_lt_mono_pos_r 0 v _ Hk).
  replace (0 * (/ t * Q2Qc (inject_Z 100)))%Qc with 0%Qc by ring.
  replace (v * (/ t * Q2Qc (inject_Z 100)))%Qc with (v / t * Q2Qc (inject_Z 100))%Qc
    by (unfold Qcdiv; ring).
  reflexivity.
Qed.

Lemma percent_lt_100 (v t : Qc) :
  (0 < t)%Qc ->
  ((v / t * Q2Qc (inject_Z 100) < Q2Qc (inject_Z 100))%Qc <-> (v < t)%Qc).
Proof.
  intros Ht.
  assert (Hk : (0 < / t * Q2Qc (inject_Z 100))%Qc).
  { apply Qcmult_pos_pos; [now apply Qcinv_pos|exact Qc_hundred_pos]. }
  rewrite (Qcmult_lt_mono_pos_r v t _ Hk).
  replace (t * (/ t * Q2Qc (inject_Z 100)))%Qc with (Q2Qc (inject_Z 100))
    by (field; now apply Qc_pos_neq).
  replace (v * (/ t * Q2Qc (inject_Z 100)))%Qc with (v / t * Q2Qc (inject_Z 100))%Qc
    by (unfold Qcdiv; ring).
  reflexivity.
Qed.

Lemma getPercent_exact (v t : Qc) :
  (0 < t)%Qc ->
  getPercent (Fin v) (Fin t)
  = if bool_decide (0 < v)%Qc
    then if bool_decide (v < t)%Qc then Fin (v / t * Q2Qc (inject_Z 100)) else of_Z 100
    else of_Z 0.
Proof.
  intros Ht. unfold getPercent.
  change ((Fin v / Fin t)%num) with (X.div (Fin v) (Fin t)).
  rewrite X_div_pos by exact Ht.
  change ((Fin (v / t) * of_Z 100)%num) with (Fin (v / t * Q2Qc (inject_Z 100))).
  change (Math_max (of_Z 0) (Fin (v / t * Q2Qc (inject_Z 100))))
    with (if bool_decide (0 < v / t * Q2Qc (inject_Z 100))%Qc
          then Fin (v / t * Q2Qc (inject_Z 100)) else Fin 0%Qc).
  rewrite (bool_decide_ext _ _ (percent_lt_0 v t Ht)).
  destruct (bool_decide (0 < v)%Qc); [|reflexivity].
  change (Math_min (of_Z 100) (Fin (v / t * Q2Qc (inject_Z 100))))
    with (if bool_decide (v / t * Q2Qc (inject_Z 100) < Q2Qc (inject_Z 100))%Qc
          then Fin (v / t * Q2Qc (inject_Z 100)) else Fin (Q2Qc (inject_Z 100))).
  now rewrite (bool_decide_ext _ _ (percent_lt_100 v t Ht)).
Qed.

End ExactEvaluator.

(** X23.  In exact arithmetic, against a positive finite target the display
    ratio is the percentage itself, [actual / target * 100], while the actual
    value lies between zero and the target; it is 0 for every actual value at
    or below zero and 100 for every actual value at or above the target. *)
Theorem getPercent_is_the_percentage_within_range :
  forall actual target : Qc,
    (0 < target)%Qc ->
    ((actual <= 0)%Qc -> getPercent (Fin actual) (Fin target) = of_Z 0)
    /\ ((0 <= actual)%Qc -> (actual <= target)%Qc ->
        getPercent (Fin actual) (Fin target) = Fin (actual / target * Q2Qc (inject_Z 100)))
    /\ ((target <= actual)%Qc -> getPercent (Fin actual) (Fin target) = of_Z 100).
Proof.
  intros v t Ht. rewrite (getPercent_exact v t Ht). repeat split.
  - intros Hv. rewrite bool_decide_eq_false_2; [reflexivity|].
    now apply Qcle_not_lt.
  - intros H0 Hle. destruct (bool_decide (0 < v)%Qc) eqn:Epos.
    + destruct (bool_decide (v < t)%Qc) eqn:Elt; [reflexivity|].
      apply bool_decide_eq_false_1 in Elt. apply Qcnot_lt_le in Elt.
      assert (v = t) by now apply Qcle_antisym. subst v.
      simpl. f_equal. field. now apply Qc_pos_neq.
    + apply bool_decide_eq_false_1 in Epos. apply Qcnot_lt_le in Epos.
      assert (v = 0%Qc) by now apply Qcle_antisym. subst v.
      simpl. f_equal; try (unfold Qcdiv; ring).
  - intros Hge.
    rewrite bool_decide_eq_true_2 by (eapply Qclt_le_trans; eassumption).
    rewrite bool_decide_eq_false_2; [reflexivity|]. now apply Qcle_not_lt.
Qed.

Lemma getPercent_within_range_witness :
  getPercent (Fin (Q2Qc 220)) (Fin (Q2Qc 1350)) = Fin (Q2Qc (220 # 1350) * Q2Qc 100).
Proof.
  pose proof (proj1 (proj2 (getPercent_is_the_percentage_within_range
                              (Q2Qc 220) (Q2Qc 1350) eq_refl))) as E.
  rewrite E; [apply f_equal, Qc_is_canon; reflexivity|discriminate|discriminate].
Defined.

Section ExactFlag.

Lemma X_leb_fin (p q : Qc) : X.leb (Fin p) (Fin q) = bool_decide (p <= q)%Qc.
Proof.
  unfold X.leb; simpl.
  destruct (bool_decide (p < q)%Qc) eqn:L; simpl.
  - apply bool_decide_eq_true_1 in L. symmetry. apply bool_decide_eq_true_2.
    now apply Qclt_le_weak.
  - apply bool_decide_eq_false_1 in L. apply bool_decide_ext. split.
    + intros ->. apply Qcle_refl.
    + intros Hle. apply Qcle_lt_or_eq in Hle as [Hlt|Heq]; [contradiction|exact Heq].
Qed.

Lemma four_hundred :
  (Q2Qc (inject_Z 4) * Q2Qc (inject_Z 100))%Qc = (Q2Qc 8 * Q2Qc (inject_Z 50))%Qc.
Proof. apply Qc_is_canon. reflexivity. Qed.

Lemma Qc_fifty_pos : (0 < Q2Qc (inject_Z 50))%Qc.
Proof. reflexivity. Qed.

Lemma half_of_the_energy (b c : Qc) :
  (0 < c)%Qc ->
  ((Q2Qc (inject_Z 50) <= b * Q2Qc (inject_Z 4) / c * Q2Qc (inject_Z 100))%Qc
   <-> (c <= Q2Qc 8 * b)%Qc).
Proof.
  intros Hc.
  assert (Hz : (0 < Q2Qc (inject_Z 50) * / c)%Qc).
  { apply Qcmult_pos_pos; [exact Qc_fifty_pos|now apply Qcinv_pos]. }
  rewrite (Qcmult_le_mono_pos_r c (Q2Qc 8 * b) _ Hz).
  replace (c * (Q2Qc (inject_Z 50) * / c))%Qc with (Q2Qc (inject_Z 50))
    by (field; now apply Qc_pos_neq).
  replace (Q2Qc 8 * b * (Q2Qc (inject_Z 50) * / c))%Qc
    with (b * Q2Qc (inject_Z 4) / c * Q2Qc (inject_Z 100))%Qc.
  - reflexivity.
  - unfold Qcdiv.
    transitivity (b * / c * (Q2Qc (inject_Z 4) * Q2Qc (inject_Z 100)))%Qc; [ring|].
    rewrite four_hundred. ring.
Qed.

End ExactFlag.

(** X24.  In exact arithmetic, for finite totals, the day is flagged on
    target exactly when it has calories and carbohydrate supplies at least
    half of them, that is when [0 < calories <= 8 * carbs]. *)
Theorem isCarbRatioGood_means_half_the_energy :
  forall (t : Totals.t xnum) (calories carbs : Qc),
    Totals.calories t = Fin calories ->
    Totals.carbs t = Fin carbs ->
    isCarbRatioGood t
    = bool_decide ((0 < calories)%Qc /\ (calories <= Q2Qc 8 * carbs)%Qc).
Proof.
  intros t c b Hc Hb. unfold isCarbRatioGood, currentCarbRatio, currentCarbCalories.
  rewrite Hc, Hb.
  change ((Fin c >? of_Z 0)%num) with (bool_decide (0 < c)%Qc).
  destruct (bool_decide (0 < c)%Qc) eqn:Epos.
  - apply bool_decide_eq_true_1 in Epos.
    change ((Fin b * of_Z 4)%num) with (Fin (b * Q2Qc (inject_Z 4))).
    change ((Fin (b * Q2Qc (inject_Z 4)) / Fin c)%num)
      with (X.div (Fin (b * Q2Qc (inject_Z 4))) (Fin c)).
    rewrite X_div_pos by exact Epos.
    change (Fin (b * Q2Qc (inject_Z 4) / c) * of_Z 100)%num
      with (Fin (b * Q2Qc (inject_Z 4) / c * Q2Qc (inject_Z 100))).
    change (?x >=? of_Z 50)%num with (X.leb (Fin (Q2Qc (inject_Z 50))) x).
    rewrite X_leb_fin. apply bool_decide_ext.
    rewrite (half_of_the_energy b c Epos). tauto.
  - apply bool_decide_eq_false_1 in Epos.
    rewrite bool_decide_eq_false_2 by tauto. reflexivity.
Qed.

Lemma isCarbRatioGood_witness :
  isCarbRatioGood (total (num := xnum) (one_meal_log [fixed_egg; fixed_milk])) = false.
Proof.
  rewrite (isCarbRatioGood_means_half_the_energy
             (total (one_meal_log [fixed_egg; fixed_milk]))
             (Q2Qc 220) (Q2Qc (63 # 5)));
    reflexivity.
Defined.

(** X25.  Rescaling keeps what an item holds per gram.  In exact
    arithmetic, for positive finite weights, each macro value of the rescaled
    item divided by the new weight is that macro value of the item divided by
    its weight.  In binary64, for normal weights of a magnitude from [2^-201]
    up to [2^200], the old one positive, the two quotients of a macro value
    that is zero or such a double are within the relative error [5 * 2^-53] of
    each other, and they can differ in the last digit: the default egg holds
    1.4 kcal and 0.12 g of protein per gram, rescaled to 7 g it holds
    1.4000000000000001 kcal and 0.12000000000000001 g per gram. *)
Theorem rescale_keeps_the_values_per_gram :
  (forall (item : Ingredient.t xnum) (w1 w2 : Qc),
      Ingredient.weight item = Fin w1 ->
      (0 < w1)%Qc -> (0 < w2)%Qc ->
      map (fun x => (x / Fin w2)%num) (macros (rescale item (Fin w2)))
      = map (fun x => (x / Fin w1)%num) (macros item))
  /\ (forall (item : Ingredient.t float) (w2 : float),
        (Ingredient.weight item >? of_Z 0)%num = true ->
        moderate (Ingredient.weight item) = true ->
        moderate w2 = true ->
        Forall (fun x => moderate x = true \/ is_zero x = true) (macros item) ->
        Forall2 (close_to (5 * unit_roundoff))
          (map (fun x => (x / w2)%num) (macros (rescale item w2)))
          (map (fun x => (x / Ingredient.weight item)%num) (macros item)))
  /\ map (fun x => (x / of_Z 50)%num) (macros (num := float) fixed_egg)
     = [lit 14 10; lit 12 100; lit 12 1000; lit 1 10; of_Z 0]
  /\ map (fun x => (x / of_Z 7)%num) (macros (rescale (num := float) fixed_egg (of_Z 7)))
     = [PrimFloat.next_up (lit 14 10); PrimFloat.next_up (lit 12 100); lit 12 1000;
        lit 1 10; of_Z 0].
Proof.
  split; [|split; [|vm_compute; repeat split]].
  - intros item w1 w2 Hw H1 H2.
    rewrite (X_rescale_pos item w1 w2 Hw H1). unfold macros; simpl map.
    assert (E : forall x : xnum,
               X.div (X.mul x (Fin (w2 / w1))) (Fin w2) = X.div x (Fin w1)).
    { intros x. rewrite (X_mul_pos x) by now apply Qcdiv_pos.
      destruct x as [q| | |]; simpl.
      - rewrite !bool_decide_eq_false_2 by now apply Qc_pos_neq.
        f_equal. field. split; now apply Qc_pos_neq.
      - rewrite !(bool_decide_eq_false_2 (_ < _)%Qc)
          by (apply Qcle_not_lt, Qclt_le_weak; assumption). reflexivity.
      - rewrite !(bool_decide_eq_false_2 (_ < _)%Qc)
          by (apply Qcle_not_lt, Qclt_le_weak; assumption). reflexivity.
      - reflexivity. }
    change (@div xnum xnum_Number) with X.div.
    now rewrite !E.
  - intros item w2 P1 H1 H2 Hx. now apply per_gram_of_doubles.
Qed.

Lemma rescale_per_gram_witness :
  map (fun x => (x / of_Z 7)%num) (macros (rescale (num := xnum) fixed_egg (of_Z 7)))
  = map (fun x => (x / of_Z 50)%num) (macros fixed_egg)
  /\ Forall2 (close_to (5 * unit_roundoff))
       (map (fun x => (x / of_Z 7)%num) (macros (rescale (num := float) fixed_egg (of_Z 7))))
       (map (fun x => (x / of_Z 50)%num) (macros (num := float) fixed_egg)).
Proof.
  split.
  - apply (proj1 rescale_keeps_the_values_per_gram fixed_egg (Q2Qc 50) (Q2Qc 7));
      reflexivity.
  - apply (proj1 (proj2 rescale_keeps_the_values_per_gram) fixed_egg (of_Z 7));
      try reflexivity.
    repeat (constructor; [vm_compute; tauto|]). constructor.
Defined.

Lemma getAIClient_witness :
  @getAIClient float _ offline_host = Return "test-key".
Proof.
  exact (proj1 (getAIClient_takes_the_first_key_set float _ offline_host)).
Defined.

Lemma getMealRecommendation_witness :
  @getMealRecommendation float _ offline_host offline_services _ ["牛肉饭"; "冷面"]
    fresh_log DEFAULT_GOALS "午餐"
  = Throw "Failed to fetch".
Proof.
  exact (proj1 (proj2 (proj2 (getMealRecommendation_errors_and_fallbacks
                                float _ offline_host offline_services _
                                ["牛肉饭"; "冷面"] fresh_log DEFAULT_GOALS "午餐")))
           "test-key" "Failed to fetch" eq_refl eq_refl).
Defined.

Lemma reports_witness :
  @generateDailyReport float _ offline_host offline_services fresh_log
  = "生成报告失败: Failed to fetch".
Proof.
  exact (proj1 (proj1 (proj2 (proj2 (proj2 (reports_always_return_a_text
                                      float _ offline_host offline_services
                                      no_clock typing_state fresh_log [fresh_log]
                                      nutrition))))
                  "test-key" "Failed to fetch" eq_refl) eq_refl).
Defined.

Lemma weekly_report_dates_witness :
  length (recent_dates two_day_store) = 2%nat.
Proof.
  exact (proj1 (weekly_report_takes_the_latest_seven_dates float two_day_store)).
Defined.

Lemma getPercent_of_a_zero_target_witness :
  getPercent (F64.of_Z 220) (F64.of_Z 0) = F64.of_Z 100.
Proof.
  exact (proj1 (getPercent_of_a_zero_target (F64.of_Z 220)) eq_refl).
Defined.

Lemma handleDecide_witness :
  @handleDecide float _ offline_host offline_services _ fresh_log DEFAULT_GOALS blank_decision
  = blank_decision
  /\ (let st' := @handleDecide float _ offline_host offline_services _ fresh_log DEFAULT_GOALS
                   undecided in
      loading st' = false
      /\ result st' = None
      /\ decision_alerts st' = ["获取推荐失败，请重试。"])
  /\ (let st' := @handleDecide float _ answering_host answering_services _ fresh_log
                   DEFAULT_GOALS undecided in
      result st' = Some (JObject [("items", JArray [JObject []; JObject []])])
      /\ decision_alerts st' = []).
Proof.
  split; [|split].
  - exact (proj1 (proj2 (handleDecide_outcomes float _ offline_host offline_services _
                           fresh_log DEFAULT_GOALS blank_decision))
             [bytes [227; 128; 128]%nat; " "; bytes [227; 128; 128]%nat]
             ltac:(repeat (constructor; [vm_compute; tauto|]); constructor)
             eq_refl).
  - destruct (proj2 (proj2 (handleDecide_outcomes float _ offline_host offline_services _
                              fresh_log DEFAULT_GOALS undecided)) eq_refl)
      as (_ & _ & Hloading & Hfailure & _).
    destruct (Hfailure "Failed to fetch" eq_refl) as [Hresult Halerts].
    split; [exact Hloading|]. split; [exact Hresult|exact Halerts].
  - destruct (proj2 (proj2 (handleDecide_outcomes float _ answering_host answering_services _
                              fresh_log DEFAULT_GOALS undecided)) eq_refl)
      as (_ & _ & _ & _ & Hsuccess & _).
    exact (Hsuccess _ eq_refl).
Defined.

(** ** The meal each slot shows *)

Section Slots.
Context {num : Type} `{Services num}.

Lemma find_map_same {A : Type} (p : A -> bool) (f : A -> A) (l : list A) :
  (forall a, p (f a) = p a) -> List.find p (map f l) = f <$> List.find p l.
Proof.
  intros Hp. induction l as [|a l IH]; simpl; [reflexivity|].
  rewrite Hp. now destruct (p a).
Qed.

(** A change of the meals that keeps each meal's id and name keeps the meal
    of each slot, changed likewise. *)
Lemma slot_meal_map (type : string * string) (log : DailyLog.t num)
    (f : Meal.t num -> Meal.t num) :
  (forall m, Meal.id (f m) = Meal.id m) -> (forall m, Meal.name (f m) = Meal.name m) ->
  slot_meal type (with_meals log (map f (DailyLog.meals log))) = f <$> slot_meal type log.
Proof.
  intros Hid Hname. unfold slot_meal; simpl.
  rewrite !find_map_same by (intros m; now rewrite ?Hid, ?Hname).
  now destruct (List.find _ (DailyLog.meals log)).
Qed.

End Slots.

(** X27.  After an item edit, an item deletion or a metric, each of the
    four slots shows the meal it showed before (the meal with the same id),
    or still none if it showed none: the lookup by label, then by id prefix,
    falls on the same meal. *)
Theorem every_slot_keeps_its_meal :
  forall (num : Type) (N : Number num) (host : Host num) (services : Services num)
         (now now' : nat -> num) (st : AppState num) (type : string * string),
    well_keyed (logs st) ->
    let shown := fun st' => Meal.id <$> slot_meal type (currentLog now' st') in
    (forall mealId itemId field value,
        shown (handleUpdateItemDetails now st mealId itemId field value)
        = Meal.id <$> slot_meal type (currentLog now st))
    /\ (forall mealId itemId,
          shown (handleDeleteItem now st mealId itemId)
          = Meal.id <$> slot_meal type (currentLog now st))
    /\ (forall key value,
          shown (handleUpdateMetrics now st key value)
          = Meal.id <$> slot_meal type (currentLog now st)).
Proof.
  intros num N host services now now' st type WK shown. unfold shown.
  pose proof (currentLog_date now st WK) as Hd. repeat split.
  - intros. rewrite handleUpdateItemDetails_current by exact WK.
    rewrite slot_meal_map.
    + now destruct (slot_meal type (currentLog now st)) as [m|]; simpl;
        [destruct (negb (String.eqb (Meal.id m) mealId))|].
    + intros m. now destruct (negb (String.eqb (Meal.id m) mealId)).
    + intros m. now destruct (negb (String.eqb (Meal.id m) mealId)).
  - intros. rewrite handleDeleteItem_current by exact WK.
    rewrite slot_meal_map.
    + destruct (slot_meal type (currentLog now st)) as [m|]; simpl; [|reflexivity].
      unfold delete_in. now destruct (negb (String.eqb (Meal.id m) mealId)).
    + intros m. unfold delete_in. now destruct (negb (String.eqb (Meal.id m) mealId)).
    + intros m. unfold delete_in. now destruct (negb (String.eqb (Meal.id m) mealId)).
  - intros. unfold handleUpdateMetrics.
    now rewrite currentLog_stored by exact Hd.
Qed.

Lemma every_slot_keeps_its_meal_witness :
  Meal.id <$> slot_meal ("breakfast", "早餐")
                (currentLog no_clock
                   (@handleDeleteItem float _ no_clock typing_state
                      "breakfast-2024-05-01" "fixed-egg"))
  = Some "breakfast-2024-05-01".
Proof.
  exact (proj1 (proj2 (every_slot_keeps_its_meal float _ offline_host offline_services
                         no_clock no_clock typing_state ("breakfast", "早餐")
                         well_keyed_empty))
           "breakfast-2024-05-01" "fixed-egg").
Defined.
